(** * MiniClaw: the execution pipeline, embedded and checked

    A shallow embedding of the Go sources of miniclaw: the Executor
    (executor.go), the command extractor (ollama.go), the pending commands
    of the Telegram bot with /yes and /no, and the cron Scheduler.  Go strings are byte
    sequences, so they are [string]s here (one [ascii] per byte); Go [int]
    values are [Z]; Go maps are [gmap]s.  Whatever the operating system or a
    library decides (how a process ends, what the model answers, whether a
    cron spec parses) is an explicit input of the function that consumes
    it. *)

From Stdlib Require Import ZArith String Ascii List Bool Lia DecimalString.
From stdpp Require Import gmap strings list fin_maps.

Local Open Scope string_scope.

(** ** Go strings *)

Module GoStr.

(** The byte 0x0A, written "\n" in the Go sources. *)
Definition nl : string := String "010"%char "".

(** [len(s)] *)
Definition len (s : string) : Z := Z.of_nat (String.length s).

(** [s[:n]] for [0 <= n <= len(s)] *)
Fixpoint take (n : nat) (s : string) : string :=
  match n, s with
  | O, _ => ""
  | S _, EmptyString => ""
  | S k, String c r => String c (take k r)
  end.

(** [strings.TrimPrefix(s, p)] answers [Some rest] when [p] leads [s]. *)
Fixpoint stripPrefix (p s : string) : option string :=
  match p, s with
  | EmptyString, _ => Some s
  | String _ _, EmptyString => None
  | String a p', String b s' =>
      if Ascii.eqb a b then stripPrefix p' s' else None
  end.

Definition HasPrefix (s p : string) : bool :=
  match stripPrefix p s with Some _ => true | None => false end.

Definition TrimPrefix (s p : string) : string :=
  match stripPrefix p s with Some r => r | None => s end.

(** [%d] of an int, [strconv.Itoa] *)
Definition Itoa (n : Z) : string := NilZero.string_of_int (Z.to_int n).

(** [strings.Join(elems, sep)] *)
Fixpoint Join (elems : list string) (sep : string) : string :=
  match elems with
  | [] => ""
  | [e] => e
  | e :: rest => e ++ sep ++ Join rest sep
  end.

End GoStr.

(** ** Outcomes of a Go call

    A Go function of type [(T, error)] either returns a value with a nil
    error or an error; an index out of range makes the runtime panic. *)

Inductive Outcome (A : Type) : Type :=
| Ret (a : A)
| Fail (msg : string)
| Panic.

Arguments Ret {A} a.
Arguments Fail {A} msg.
Arguments Panic {A}.

Definition isFail {A} (o : Outcome A) : bool :=
  match o with Fail _ => true | _ => false end.

(** ** path/filepath on a Unix host (separator "/") *)

Module Filepath.

Definition isSep (c : ascii) : bool := Ascii.eqb c "/"%char.

Fixpoint hasSep (s : string) : bool :=
  match s with
  | EmptyString => false
  | String c r => isSep c || hasSep r
  end.

(** The loop of [Base] that strips trailing separators. *)
Fixpoint stripTrailingSeps (s : string) : string :=
  match s with
  | EmptyString => ""
  | String c r =>
      match stripTrailingSeps r with
      | EmptyString => if isSep c then "" else String c ""
      | r' => String c r'
      end
  end.

(** The loop of [Base] that finds the last element: what follows the last
    separator, or the whole string when there is none. *)
Fixpoint afterLastSep (s : string) : string :=
  match s with
  | EmptyString => ""
  | String c r =>
      if hasSep r then afterLastSep r
      else if isSep c then r else s
  end.

(** [filepath.Base] *)
Definition Base (path : string) : string :=
  match path with
  | EmptyString => "."
  | _ =>
      match afterLastSep (stripTrailingSeps path) with
      | EmptyString => "/"
      | b => b
      end
  end.

(** [strings.Split(s, "/")] *)
Fixpoint split (s : string) : list string :=
  match s with
  | EmptyString => [""]
  | String c r =>
      if isSep c then "" :: split r
      else match split r with
           | h :: t => String c h :: t
           | [] => [String c ""]
           end
  end.

(** The state of [Clean]'s output buffer: how many leading ".." elements
    it holds (only for a path that is not rooted) and the elements after
    them, the last one first. *)
Record CleanBuf : Type := { dotdots : nat; elems : list string }.

Definition cleanStep (rooted : bool) (b : CleanBuf) (el : string) : CleanBuf :=
  if String.eqb el "" || String.eqb el "." then b
  else if String.eqb el ".." then
    match elems b with
    | _ :: rest => {| dotdots := dotdots b; elems := rest |}
    | [] => if rooted then b else {| dotdots := S (dotdots b); elems := [] |}
    end
  else {| dotdots := dotdots b; elems := el :: elems b |}.

Definition isRooted (path : string) : bool :=
  match path with
  | String c _ => isSep c
  | EmptyString => false
  end.

Definition render (rooted : bool) (b : CleanBuf) : string :=
  let body := GoStr.Join (repeat ".." (dotdots b) ++ rev (elems b)) "/" in
  if rooted then "/" ++ body
  else match body with EmptyString => "." | _ => body end.

Definition cleanBuf (path : string) : CleanBuf :=
  fold_left (cleanStep (isRooted path)) (split path)
    {| dotdots := 0; elems := [] |}.

(** [filepath.Clean]: empty and "." elements are dropped, an inner ".."
    removes the element before it, a ".." at the root is dropped, leading
    ".." elements of a path that is not rooted stay; the empty result is
    ".". *)
Definition Clean (path : string) : string :=
  match path with
  | EmptyString => "."
  | _ => render (isRooted path) (cleanBuf path)
  end.

(** A name that is one path element of its own: not empty, without
    separator, neither "." nor "..". *)
Definition ordinary (name : string) : bool :=
  negb (hasSep name) && negb (String.eqb name "")
  && negb (String.eqb name ".") && negb (String.eqb name "..").

(** The cleaned path of the entry [name] directly inside the directory
    [dir]: the elements of the cleaned [dir], then [name]. *)
Definition childOf (dir name : string) : string :=
  render (isRooted dir)
    {| dotdots := dotdots (cleanBuf dir); elems := name :: elems (cleanBuf dir) |}.

(** [filepath.Join(dir, name)]: the elements from the first one that is not
    empty on are joined by the separator, and the result is cleaned. *)
Definition Join (dir name : string) : string :=
  match dir with
  | EmptyString =>
      match name with
      | EmptyString => ""
      | _ => Clean name
      end
  | _ => Clean (dir ++ "/" ++ name)
  end.

(** The loop of [Ext]: scanning back from the end, stop at a separator. *)
Fixpoint extOf (s : string) : string :=
  match s with
  | EmptyString => ""
  | String c r =>
      match extOf r with
      | EmptyString =>
          if hasSep r then ""
          else if Ascii.eqb c "."%char then s else ""
      | e => e
      end
  end.

(** [filepath.Ext]: the suffix from the last dot of the last element. *)
Definition Ext (path : string) : string := extOf path.

End Filepath.

(** ** The host's file system, as [os] shows it

    A file system maps a cleaned path to the entry it names.  The calls
    fail as the Unix calls behind them do for an absent entry or a
    directory; permissions and a missing parent directory are left out. *)

Module OS.

Record File : Type := { data : string; mode : Z; isDir : bool }.

Abbreviation FS := (gmap string File).

(** [os.Stat] *)
Definition Stat (fs : FS) (path : string) : Outcome File :=
  match fs !! path with
  | Some f => Ret f
  | None => Fail ("stat " ++ path ++ ": no such file or directory")
  end.

(** [os.ReadFile] *)
Definition ReadFile (fs : FS) (path : string) : Outcome string :=
  match fs !! path with
  | Some f =>
      if isDir f then Fail ("read " ++ path ++ ": is a directory")
      else Ret (data f)
  | None => Fail ("open " ++ path ++ ": no such file or directory")
  end.

(** [os.WriteFile(path, content, perm)]: creates the file with [perm], or
    truncates it and keeps its mode. *)
Definition WriteFile (fs : FS) (path content : string) (perm : Z)
  : Outcome unit * FS :=
  match fs !! path with
  | Some f =>
      if isDir f then (Fail ("open " ++ path ++ ": is a directory"), fs)
      else (Ret tt, <[path := {| data := content; mode := mode f; isDir := false |}]> fs)
  | None =>
      (Ret tt, <[path := {| data := content; mode := perm; isDir := false |}]> fs)
  end.

(** Has the directory [path] an entry below it? *)
Definition hasEntries (fs : FS) (path : string) : bool :=
  existsb (fun kv => GoStr.HasPrefix (fst kv) (path ++ "/")) (map_to_list fs).

(** [os.Remove]: removes a file or an empty directory. *)
Definition Remove (fs : FS) (path : string) : Outcome unit * FS :=
  match fs !! path with
  | Some f =>
      if isDir f && hasEntries fs path
      then (Fail ("remove " ++ path ++ ": directory not empty"), fs)
      else (Ret tt, delete path fs)
  | None => (Fail ("remove " ++ path ++ ": no such file or directory"), fs)
  end.

(** [os.Chmod] *)
Definition Chmod (fs : FS) (path : string) (m : Z) : FS :=
  match fs !! path with
  | Some f => <[path := {| data := data f; mode := m; isDir := isDir f |}]> fs
  | None => fs
  end.

End OS.

(** ** executor.go: Run *)

Module Exec.

(** [os/exec]: how the child ended, as [cmd.Run] reports it.  A wait status
    holds either an 8-bit exit status or the signal that ended the
    process; [ProcessState.ExitCode] is the status in the first case and -1
    in the second. *)
Inductive ProcessState : Type :=
| Exited (status : N)
| Signaled (sig : N).

Definition processExitCode (ps : ProcessState) : Z :=
  match ps with
  | Exited status => Z.of_N status
  | Signaled _ => -1
  end.

(** The [error] of [cmd.Run]: an [*exec.ExitError] carrying the process
    state (the child ran and did not succeed), or any other error: the
    command could not be executed (no interpreter, no working directory). *)
Inductive CmdError : Type :=
| ExitError (ps : ProcessState)
| OtherError (msg : string).

(** Everything [Run] observes of one execution of [bash -c command]:
    both captured streams, the error of [cmd.Run], the measured duration
    in nanoseconds, and whether [ctx.Err()] is [context.DeadlineExceeded]
    when [cmd.Run] is back. *)
Record Execution : Type := {
  stdoutBuf : string;
  stderrBuf : string;
  runErr : option CmdError;
  elapsed : Z;
  deadlineExceeded : bool
}.

Record Executor : Type := {
  workspace : string;
  timeout : Z;
  maxOutputBytes : Z
}.

Record ExecResult : Type := {
  Stdout : string;
  Stderr : string;
  ExitCode : Z;
  Duration : Z;
  Truncated : bool
}.

(** The exit code written on a timeout. *)
Definition timeoutExitCode : Z := (-1)%Z.

Definition truncationMarker : string := GoStr.nl ++ "... [truncated]".

Definition timeoutMarker : string := GoStr.nl ++ "‚è± TIMEOUT: command exceeded ".

(** [if len(s) > max { s = s[:max] + marker; truncated = true }].
    A negative [max] makes [s[:max]] panic. *)
Definition capStream (max : Z) (s : string) : Outcome (string * bool) :=
  if (GoStr.len s >? max)%Z then
    if (max <? 0)%Z then Panic
    else Ret (GoStr.take (Z.to_nat max) s ++ truncationMarker, true)
  else Ret (s, false).

Section Run.

(** [time.Duration.String], of the standard library. *)
Variable durationString : Z -> string.

Definition Run (e : Executor) (x : Execution) : Outcome ExecResult :=
  if deadlineExceeded x then
    Ret {| Stdout := stdoutBuf x;
           Stderr := stderrBuf x ++ timeoutMarker ++ durationString (timeout e);
           ExitCode := timeoutExitCode;
           Duration := elapsed x;
           Truncated := false |}
  else
    let continue (code : Z) : Outcome ExecResult :=
      match capStream (maxOutputBytes e) (stdoutBuf x) with
      | Ret (out, t1) =>
          match capStream (maxOutputBytes e) (stderrBuf x) with
          | Ret (err, t2) =>
              Ret {| Stdout := out; Stderr := err; ExitCode := code;
                     Duration := elapsed x; Truncated := t1 || t2 |}
          | Fail m => Fail m
          | Panic => Panic
          end
      | Fail m => Fail m
      | Panic => Panic
      end in
    match runErr x with
    | None => continue 0%Z
    | Some (ExitError ps) => continue (processExitCode ps)
    | Some (OtherError msg) => Fail ("executing command: " ++ msg)
    end.

End Run.

(** *** The files of the workspace *)

(** [strings.SplitN(s, "\n", 2)[0]] *)
Fixpoint firstLine (s : string) : string :=
  match s with
  | EmptyString => ""
  | String c r => if Ascii.eqb c "010"%char then "" else String c (firstLine r)
  end.

(** [strings.ToLower] on the bytes A..Z; the other bytes of an extension
    never lead to an entry of the table below. *)
Definition lowerByte (c : ascii) : ascii :=
  let n := nat_of_ascii c in
  if (65 <=? n)%nat && (n <=? 90)%nat then ascii_of_nat (n + 32) else c.

Fixpoint ToLower (s : string) : string :=
  match s with
  | EmptyString => ""
  | String c r => String (lowerByte c) (ToLower r)
  end.

Definition interpreterOfExt (ext : string) : string :=
  if String.eqb ext ".py" then "python3"
  else if String.eqb ext ".sh" || String.eqb ext ".bash" then "bash"
  else if String.eqb ext ".js" then "node"
  else if String.eqb ext ".rb" then "ruby"
  else if String.eqb ext ".pl" then "perl"
  else "bash".

Definition detectInterpreter (fs : OS.FS) (path filename : string) : string :=
  match OS.ReadFile fs path with
  | Ret data =>
      if (GoStr.len data >? 2)%Z && String.eqb (GoStr.take 2 data) "#!"
      then GoStr.TrimPrefix (firstLine data) "#!"
      else interpreterOfExt (ToLower (Filepath.Ext filename))
  | _ => interpreterOfExt (ToLower (Filepath.Ext filename))
  end.

(** [RunScript] up to its last line: the command line it hands to [Run],
    and the file system after the [os.Chmod].  The mode bits 0111 and 0755
    are 73 and 493. *)
Definition scriptCommand (e : Executor) (fs : OS.FS) (filename : string)
    (args : list string) : Outcome string * OS.FS :=
  let path := Filepath.Join (workspace e) filename in
  match OS.Stat fs path with
  | Ret info =>
      let fs' :=
        if (Z.land (OS.mode info) 73 =? 0)%Z
        then OS.Chmod fs path (Z.lor (OS.mode info) 493)
        else fs in
      let interpreter := detectInterpreter fs' path filename in
      let cmdStr := interpreter ++ " " ++ path in
      let cmdStr :=
        match args with
        | [] => cmdStr
        | _ => cmdStr ++ " " ++ GoStr.Join args " "
        end in
      (Ret cmdStr, fs')
  | _ => (Fail ("script not found: " ++ filename), fs)
  end.

Section Files.

Variable durationString : Z -> string.

(** What the host does with [bash -c cmd] in the workspace. *)
Variable bash : string -> Execution.

Definition RunScript (e : Executor) (fs : OS.FS) (filename : string)
    (args : list string) : Outcome ExecResult * OS.FS :=
  match scriptCommand e fs filename args with
  | (Ret cmdStr, fs') => (Run durationString e (bash cmdStr), fs')
  | (Fail m, fs') => (Fail m, fs')
  | (Panic, fs') => (Panic, fs')
  end.

End Files.

(** [SaveFile]; the mode 0644 is 420. *)
Definition SaveFile (e : Executor) (fs : OS.FS) (filename content : string)
  : Outcome string * OS.FS :=
  let filename := Filepath.Base filename in
  let path := Filepath.Join (workspace e) filename in
  match OS.WriteFile fs path content 420 with
  | (Ret _, fs') => (Ret path, fs')
  | (Fail m, fs') => (Fail ("saving file: " ++ m), fs')
  | (Panic, fs') => (Panic, fs')
  end.

Definition ReadFile (e : Executor) (fs : OS.FS) (filename : string)
  : Outcome string :=
  let filename := Filepath.Base filename in
  let path := Filepath.Join (workspace e) filename in
  match OS.ReadFile fs path with
  | Ret content =>
      if (GoStr.len content >? 4000)%Z
      then Ret (GoStr.take 4000 content ++ truncationMarker)
      else Ret content
  | Fail m => Fail ("reading file: " ++ m)
  | Panic => Panic
  end.

Definition DeleteFile (e : Executor) (fs : OS.FS) (filename : string)
  : Outcome unit * OS.FS :=
  let filename := Filepath.Base filename in
  let path := Filepath.Join (workspace e) filename in
  OS.Remove fs path.

(** *** FormatResult *)

Section Format.

(** [fmt]'s rendering [%.1f] of a duration in seconds. *)
Variable formatSeconds : Z -> string.

Definition FormatResult (r : ExecResult) : string :=
  let nl := GoStr.nl in
  (if (ExitCode r =? 0)%Z then "‚úÖ Success"
   else "‚ùå Exit code: " ++ GoStr.Itoa (ExitCode r))
  ++ (" (" ++ formatSeconds (Duration r) ++ "s)" ++ nl)
  ++ (if String.eqb (Stdout r) "" then ""
      else (nl ++ "üì§ stdout:" ++ nl ++ "```" ++ nl) ++ Stdout r ++ nl ++ "```")
  ++ (if String.eqb (Stderr r) "" then ""
      else (nl ++ "üìõ stderr:" ++ nl ++ "```" ++ nl) ++ Stderr r ++ nl ++ "```")
  ++ (if String.eqb (Stdout r) "" && String.eqb (Stderr r) ""
      then nl ++ "(no output)" else "")
  ++ (if Truncated r then (nl ++ "‚ö†Ô∏è Output was truncated") else "").

End Format.

End Exec.

(** ** ollama.go: the command extractor *)

Module Extract.

Definition byte (n : nat) : ascii := ascii_of_nat n.

(** The encodings of the runes [unicode.IsSpace] accepts: tab, line feed,
    vertical tab, form feed, carriage return, space, U+0085, U+00A0,
    U+1680, U+2000..U+200A, U+2028, U+2029, U+202F, U+205F, U+3000. *)
Definition spaceRunes : list (list ascii) :=
  map (fun n => [byte n]) [9; 10; 11; 12; 13; 32]
  ++ [[byte 194; byte 133]; [byte 194; byte 160]; [byte 225; byte 154; byte 128]]
  ++ map (fun n => [byte 226; byte 128; byte n])
       [128; 129; 130; 131; 132; 133; 134; 135; 136; 137; 138; 168; 169; 175]
  ++ [[byte 226; byte 129; byte 159]; [byte 227; byte 128; byte 128]].

Fixpoint dropPrefix (p l : list ascii) : option (list ascii) :=
  match p, l with
  | [], _ => Some l
  | _ :: _, [] => None
  | a :: p', b :: l' => if Ascii.eqb a b then dropPrefix p' l' else None
  end.

(** The rest of [l] after one leading rune out of [runes], if it has one. *)
Fixpoint dropRune (runes : list (list ascii)) (l : list ascii)
  : option (list ascii) :=
  match runes with
  | [] => None
  | r :: more =>
      match dropPrefix r l with
      | Some rest => Some rest
      | None => dropRune more l
      end
  end.

Fixpoint trimLeading (fuel : nat) (runes : list (list ascii)) (l : list ascii)
  : list ascii :=
  match fuel with
  | O => l
  | S k =>
      match dropRune runes l with
      | Some rest => trimLeading k runes rest
      | None => l
      end
  end.

(** [strings.TrimSpace]: leading runes are dropped reading forwards,
    trailing ones reading backwards. *)
Definition TrimSpace (s : string) : string :=
  let l := list_ascii_of_string s in
  let l1 := trimLeading (length l) spaceRunes l in
  let l2 := trimLeading (length l1) (map (@rev ascii) spaceRunes) (rev l1) in
  string_of_list_ascii (rev l2).

Definition fence : string := "```".

(** [cutAtFence s] splits [s] at its first fence: what is before it and
    what is after it. *)
Fixpoint cutAtFence (s : string) : option (string * string) :=
  match GoStr.stripPrefix fence s with
  | Some rest => Some ("", rest)
  | None =>
      match s with
      | EmptyString => None
      | String c r =>
          match cutAtFence r with
          | Some (before, rest) => Some (String c before, rest)
          | None => None
          end
      end
  end.

(** [(?:bash|sh)?\n]: the alternatives in the order the regexp tries
    them. *)
Definition afterTag (s : string) : option string :=
  match GoStr.stripPrefix ("bash" ++ GoStr.nl) s with
  | Some r => Some r
  | None =>
      match GoStr.stripPrefix ("sh" ++ GoStr.nl) s with
      | Some r => Some r
      | None => GoStr.stripPrefix GoStr.nl s
      end
  end.

(** A match of [bashBlockRegex] that starts at the head of [s]: the
    submatch [(.*?)], which ends at the first fence after the opening
    line, and what follows the match. *)
Definition matchHere (s : string) : option (string * string) :=
  match GoStr.stripPrefix fence s with
  | Some r1 =>
      match afterTag r1 with
      | Some r2 => cutAtFence r2
      | None => None
      end
  | None => None
  end.

(** [bashBlockRegex.FindAllStringSubmatch(s, -1)], first submatches: the
    matches are searched from left to right and do not overlap.  Every
    step consumes a byte, so [S (length s)] steps reach the end. *)
Fixpoint findAllFrom (fuel : nat) (s : string) : list string :=
  match fuel with
  | O => []
  | S k =>
      match matchHere s with
      | Some (content, rest) => content :: findAllFrom k rest
      | None =>
          match s with
          | EmptyString => []
          | String _ r => findAllFrom k r
          end
      end
  end.

Definition findAll (s : string) : list string :=
  findAllFrom (S (String.length s)) s.

Definition ExtractBashCommands (response : string) : list string :=
  filter (fun cmd => negb (String.eqb cmd ""))
         (map TrimSpace (findAll response)).

End Extract.

(** ** The bot: suggestions, /yes and /no *)

Module Bot.

Record ChatMessage : Type := { Role : string; Content : string }.

(** The conversation memory of the Ollama client. *)
Record OllamaClient : Type := {
  systemPrompt : string;
  history : list ChatMessage
}.

(** An inbound Telegram message: [msg.From.ID], [msg.Chat.ID]. *)
Record Message : Type := { FromID : Z; ChatID : Z }.

(** What a handler does to the world, in the order it does it. *)
Inductive Event : Type :=
| Sent (chat : Z) (text : string)
| Stored (operator : Z) (cmd : string)
| Deleted (operator : Z)
| Ran (cmd : string)
| Crashed.

Record Bot : Type := {
  autoExecute : bool;
  executor : Exec.Executor;
  ollama : OllamaClient;
  pendingCmds : gmap Z string;
  trace : list Event
}.

Definition emit (ev : Event) (b : Bot) : Bot :=
  {| autoExecute := autoExecute b; executor := executor b; ollama := ollama b;
     pendingCmds := pendingCmds b; trace := (trace b ++ [ev])%list |}.

Definition setOllama (o : OllamaClient) (b : Bot) : Bot :=
  {| autoExecute := autoExecute b; executor := executor b; ollama := o;
     pendingCmds := pendingCmds b; trace := trace b |}.

(** [b.sendMessage(chat, text)] and [b.reply(msg, text)] *)
Definition sendMessage (chat : Z) (text : string) (b : Bot) : Bot :=
  emit (Sent chat text) b.

Definition reply (msg : Message) (text : string) (b : Bot) : Bot :=
  sendMessage (ChatID msg) text b.

(** [b.pendingCmds[id] = cmd] *)
Definition storePending (id : Z) (cmd : string) (b : Bot) : Bot :=
  emit (Stored id cmd)
    {| autoExecute := autoExecute b; executor := executor b; ollama := ollama b;
       pendingCmds := <[id := cmd]> (pendingCmds b); trace := trace b |}.

(** [delete(b.pendingCmds, id)] *)
Definition deletePending (id : Z) (b : Bot) : Bot :=
  emit (Deleted id)
    {| autoExecute := autoExecute b; executor := executor b; ollama := ollama b;
       pendingCmds := delete id (pendingCmds b); trace := trace b |}.

(** [o.history[start:]] with [start = len - 12] when the history is longer
    than 12 messages. *)
Definition recent (h : list ChatMessage) : list ChatMessage :=
  skipn (length h - 12) h.

Section Handlers.

Variable durationString : Z -> string.
Variable formatSeconds : Z -> string.

(** What the host does with [bash -c cmd]. *)
Variable bash : string -> Exec.Execution.

(** The Ollama server: the message it answers to a request, or the
    error of the exchange. *)
Variable post : list ChatMessage -> Outcome ChatMessage.

(** [OllamaClient.Chat] *)
Definition Chat (o : OllamaClient) (userMessage : string)
  : Outcome string * OllamaClient :=
  let messages :=
    ([{| Role := "system"; Content := systemPrompt o |}]
     ++ recent (history o)
     ++ [{| Role := "user"; Content := userMessage |}])%list in
  match post messages with
  | Ret answer =>
      (Ret (Content answer),
       {| systemPrompt := systemPrompt o;
          history := (history o
                      ++ [{| Role := "user"; Content := userMessage |}]
                      ++ [answer])%list |})
  | Fail m => (Fail m, o)
  | Panic => (Panic, o)
  end.

(** [b.executor.Run(cmd)], recorded in the trace. *)
Definition run (cmd : string) (b : Bot) : Outcome Exec.ExecResult * Bot :=
  (Exec.Run durationString (executor b) (bash cmd), emit (Ran cmd) b).

Definition handleChat (b : Bot) (msg : Message) (text : string) : Bot :=
  let nl := GoStr.nl in
  let b := sendMessage (ChatID msg) "🧠 Thinking..." b in
  match Chat (ollama b) text with
  | (Ret response, o) =>
      let b := setOllama o b in
      let commands := Extract.ExtractBashCommands response in
      let b := reply msg response b in
      match commands with
      | [] => b
      | _ =>
          let combined := GoStr.Join commands nl in
          if autoExecute b then
            let b := sendMessage (ChatID msg) "⚡ Auto-executing..." b in
            match run combined b with
            | (Ret result, b) =>
                sendMessage (ChatID msg)
                  (Exec.FormatResult formatSeconds result) b
            | (Fail m, b) => sendMessage (ChatID msg) ("❌ Error: " ++ m) b
            | (Panic, b) => emit Crashed b
            end
          else
            let b := storePending (FromID msg) combined b in
            sendMessage (ChatID msg)
              ("🔐 Execute these commands?" ++ nl ++ "```bash" ++ nl
               ++ combined ++ nl ++ "```" ++ nl ++ nl
               ++ "/yes to run · /no to cancel") b
      end
  | (Fail m, o) => reply msg ("❌ Ollama error: " ++ m) (setOllama o b)
  | (Panic, o) => emit Crashed (setOllama o b)
  end.

Definition handleConfirm (b : Bot) (msg : Message) : Bot :=
  let nl := GoStr.nl in
  match pendingCmds b !! FromID msg with
  | None => reply msg "Nothing pending to execute." b
  | Some cmd =>
      let b := deletePending (FromID msg) b in
      let b := sendMessage (ChatID msg) "⚡ Executing..." b in
      match run cmd b with
      | (Ret result, b) =>
          let b := reply msg (Exec.FormatResult formatSeconds result) b in
          let prompt :=
            "The command was executed. Here is the result:" ++ nl ++ nl
            ++ "Exit code: " ++ GoStr.Itoa (Exec.ExitCode result) ++ nl
            ++ "Stdout:" ++ nl ++ Exec.Stdout result ++ nl
            ++ "Stderr:" ++ nl ++ Exec.Stderr result in
          setOllama (snd (Chat (ollama b) prompt)) b
      | (Fail m, b) => reply msg ("❌ Error: " ++ m) b
      | (Panic, b) => emit Crashed b
      end
  end.

(** The [/no] case of [handleMessage]. *)
Definition handleReject (b : Bot) (msg : Message) : Bot :=
  reply msg "↩️ Cancelled." (deletePending (FromID msg) b).

End Handlers.

(** The commands a trace shows as run, in order. *)
Definition ranOf (evs : list Event) : list string :=
  omap (fun ev => match ev with Ran cmd => Some cmd | _ => None end) evs.

End Bot.

(** ** The scheduler *)

Module Sched.

(** Times are instants, in nanoseconds; the zero [time.Time] is 0. *)
Record CronJob : Type := {
  ID : string;
  Spec : string;
  Command : string;
  Label : string;
  Created : Z;
  LastRun : Z;
  EntryID : Z
}.

(** robfig/cron: the counter its entry ids come from, and for every live
    entry the id of the job its function runs. *)
Record Cron : Type := { nextID : Z; entries : gmap Z string }.

(** The JSON object [encoding/json] writes for a job: the fields with a
    name in their [json] tag ([EntryID] is tagged "-").  The strings of a
    job are text, which [encoding/json] writes and reads back as it is (the
    bot cuts them out of chat messages), and its times are instants. *)
Record JobDoc : Type := {
  d_id : string;
  d_spec : string;
  d_command : string;
  d_label : string;
  d_created : Z;
  d_last_run : Z
}.

(** The persist file holds one JSON object, from job id to job object;
    [None] is a file that is absent or does not parse. *)
Record Scheduler : Type := {
  cron : Cron;
  jobs : gmap string CronJob;
  disk : option (gmap string JobDoc)
}.

(** The errors of [Add] and [Remove]:
    [job %q already exists], [invalid cron spec %q: %w], [job %q not found]. *)
Inductive SchedError : Type :=
| AlreadyExists (id : string)
| InvalidSpec (spec : string)
| NotFound (id : string).

Definition toDoc (j : CronJob) : JobDoc :=
  {| d_id := ID j; d_spec := Spec j; d_command := Command j;
     d_label := Label j; d_created := Created j; d_last_run := LastRun j |}.

Definition ofDoc (d : JobDoc) : CronJob :=
  {| ID := d_id d; Spec := d_spec d; Command := d_command d;
     Label := d_label d; Created := d_created d; LastRun := d_last_run d;
     EntryID := 0 |}.

Definition withEntry (entry : Z) (j : CronJob) : CronJob :=
  {| ID := ID j; Spec := Spec j; Command := Command j; Label := Label j;
     Created := Created j; LastRun := LastRun j; EntryID := entry |}.

Definition withLastRun (t : Z) (j : CronJob) : CronJob :=
  {| ID := ID j; Spec := Spec j; Command := Command j; Label := Label j;
     Created := Created j; LastRun := t; EntryID := EntryID j |}.

(** [cron.Remove] *)
Definition cronRemove (c : Cron) (entry : Z) : Cron :=
  {| nextID := nextID c; entries := delete entry (entries c) |}.

(** [s.persist()]: the whole table is written anew. *)
Definition persist (s : Scheduler) : Scheduler :=
  {| cron := cron s; jobs := jobs s; disk := Some (toDoc <$> jobs s) |}.

Section Scheduler.

(** Does the parser of [cron.New(cron.WithSeconds())] accept the spec? *)
Variable validSpec : string -> bool.

(** [cron.AddFunc(spec, func() { s.runJob(job) })] *)
Definition AddFunc (c : Cron) (spec jobID : string) : option (Z * Cron) :=
  if validSpec spec then
    let entry := (nextID c + 1)%Z in
    Some (entry, {| nextID := entry; entries := <[entry := jobID]> (entries c) |})
  else None.

Definition Add (s : Scheduler) (now : Z) (id spec command label : string)
  : option SchedError * Scheduler :=
  match jobs s !! id with
  | Some _ => (Some (AlreadyExists id), s)
  | None =>
      let job := {| ID := id; Spec := spec; Command := command;
                    Label := label; Created := now; LastRun := 0;
                    EntryID := 0 |} in
      match AddFunc (cron s) spec id with
      | None => (Some (InvalidSpec spec), s)
      | Some (entry, c) =>
          (None,
           persist {| cron := c;
                      jobs := <[id := withEntry entry job]> (jobs s);
                      disk := disk s |})
      end
  end.

Definition Remove (s : Scheduler) (id : string)
  : option SchedError * Scheduler :=
  match jobs s !! id with
  | None => (Some (NotFound id), s)
  | Some job =>
      (None,
       persist {| cron := cronRemove (cron s) (EntryID job);
                  jobs := delete id (jobs s);
                  disk := disk s |})
  end.

(** The table part of [runJob(job)].  The function of an entry holds a
    pointer to its job: that job is the one the table holds under [id]
    as long as the table's job carries the same entry id; a job that was
    removed in the meantime is updated outside the table.  The table is
    written in both cases. *)
Definition recordRun (s : Scheduler) (id : string) (entry : Z) (now : Z)
  : Scheduler :=
  match jobs s !! id with
  | Some job =>
      if (EntryID job =? entry)%Z
      then persist {| cron := cron s;
                      jobs := <[id := withLastRun now job]> (jobs s);
                      disk := disk s |}
      else persist s
  | None => persist s
  end.

(** One round of the loop of [load]. *)
Definition loadJob (s : Scheduler) (d : JobDoc) : Scheduler :=
  match AddFunc (cron s) (d_spec d) (d_id d) with
  | None => s
  | Some (entry, c) =>
      {| cron := c;
         jobs := <[d_id d := withEntry entry (ofDoc d)]> (jobs s);
         disk := disk s |}
  end.

(** Go ranges over a map in no fixed order: [order] is an order in which
    the loop of [load] may meet the jobs of the file. *)
Definition rangeOrder (doc : gmap string JobDoc) (order : list JobDoc) : Prop :=
  order ≡ₚ (snd <$> map_to_list doc).

(** One such order: that of the file's keys. *)
Definition fileOrder (file : option (gmap string JobDoc)) : list JobDoc :=
  match file with
  | Some doc => snd <$> map_to_list doc
  | None => []
  end.

Definition load (s : Scheduler) (order : list JobDoc) : Scheduler :=
  match disk s with
  | None => s
  | Some _ => fold_left loadJob order s
  end.

(** [NewScheduler], on a host whose persist file holds [file]. *)
Definition NewScheduler (file : option (gmap string JobDoc))
    (order : list JobDoc) : Scheduler :=
  load {| cron := {| nextID := 0; entries := ∅ |}; jobs := ∅; disk := file |}
       order.

(** Every job of the table is filed under its own id and carries a spec
    the parser accepts. *)
Definition tableOK (s : Scheduler) : Prop :=
  forall k j, jobs s !! k = Some j -> ID j = k /\ validSpec (Spec j) = true.

(** The schedulers a run of the program can hold. *)
Inductive Reachable : Scheduler -> Prop :=
| reach_new file order :
    (forall doc, file = Some doc -> rangeOrder doc order) ->
    Reachable (NewScheduler file order)
| reach_add s now id spec command label :
    Reachable s -> Reachable (snd (Add s now id spec command label))
| reach_remove s id :
    Reachable s -> Reachable (snd (Remove s id))
| reach_run s id entry now :
    Reachable s -> Reachable (recordRun s id entry now).

End Scheduler.

Section Trigger.

Variable durationString : Z -> string.
Variable formatSeconds : Z -> string.
Variable bash : string -> Exec.Execution.

(** [runJob(job)], for the job an entry's function holds: the command is
    run, the run is recorded in the table, and the summary is what goes to
    the notifier; a panic of [Run] ends the program before either. *)
Definition runJob (e : Exec.Executor) (s : Scheduler) (job : CronJob) (now : Z)
  : option (Scheduler * string) :=
  let head := "⏰ Cron [" ++ ID job ++ "] " ++ Label job ++ GoStr.nl in
  match Exec.Run durationString e (bash (Command job)) with
  | Ret result =>
      Some (recordRun s (ID job) (EntryID job) now,
            head ++ Exec.FormatResult formatSeconds result)
  | Fail m =>
      Some (recordRun s (ID job) (EntryID job) now,
            head ++ "❌ Error: " ++ m)
  | Panic => None
  end.

End Trigger.

(** What the round trip is about: id, spec, command, label, last run (and
    the creation time, which is written too). *)
Definition persisted (j : CronJob) : string * string * string * string * Z * Z :=
  (ID j, Spec j, Command j, Label j, LastRun j, Created j).

(** A parser that accepts the schedules the cron library predefines by
    name, and nothing else; the samples below take it for [validSpec]. *)
Definition descriptor (spec : string) : bool :=
  bool_decide (spec ∈ ["@yearly"; "@annually"; "@monthly"; "@weekly";
                       "@daily"; "@midnight"; "@hourly"]).

End Sched.

(** ** Sample inputs *)

Module Sample.

Import Exec.

(** A rendering of durations, for the places that need some. *)
Definition minute (_ : Z) : string := "1m0s".

(** A rendering of seconds, likewise. *)
Definition tenths (_ : Z) : string := "0.0".

(** The executor of the default configuration, for the user [pi]. *)
Definition pi : Executor :=
  {| workspace := "/home/pi/.miniclaw/workspace";
     timeout := 60000000000;
     maxOutputBytes := 4000 |}.

(** An executor whose cap is four bytes. *)
Definition capFour : Executor :=
  {| workspace := "/home/pi/.miniclaw/workspace";
     timeout := 1000000000;
     maxOutputBytes := 4 |}.

(** A command that printed ten bytes and was still running at the
    deadline, so that it was killed. *)
Definition floodThenHang : Execution :=
  {| stdoutBuf := "0123456789"; stderrBuf := "";
     runErr := Some (ExitError (Signaled 9));
     elapsed := 1000000000; deadlineExceeded := true |}.


(** [exit 7] *)
Definition exitSeven : Execution :=
  {| stdoutBuf := ""; stderrBuf := "";
     runErr := Some (ExitError (Exited 7));
     elapsed := 2000000; deadlineExceeded := false |}.

(** A host where every command prints nothing and succeeds. *)
Definition quietHost (_ : string) : Execution :=
  {| stdoutBuf := ""; stderrBuf := ""; runErr := None;
     elapsed := 1000000; deadlineExceeded := false |}.

(** A host without [bash]. *)
Definition noBash (_ : string) : Execution :=
  {| stdoutBuf := ""; stderrBuf := "";
     runErr := Some (OtherError "exec: bash: executable file not found in $PATH");
     elapsed := 1000; deadlineExceeded := false |}.

(** The home of [pi]: the workspace, and a script next to the
    [.miniclaw] directory. *)
Definition home : OS.FS :=
  <["/home/pi/evil.sh" :=
      {| OS.data := "echo pwned"; OS.mode := 420; OS.isDir := false |}]>
  (<["/home/pi/.miniclaw/workspace" :=
      {| OS.data := ""; OS.mode := 493; OS.isDir := true |}]> ∅).

(** A model that answers every request with one [bash] block holding the
    text of the request's last message. *)
Definition echoModel (messages : list Bot.ChatMessage) : Outcome Bot.ChatMessage :=
  Ret {| Bot.Role := "assistant";
         Bot.Content :=
           "```bash" ++ GoStr.nl
           ++ match last messages with
              | Some m => Bot.Content m
              | None => ""
              end
           ++ GoStr.nl ++ "```" |}.

(** A scheduler started without a persist file, with the parser that
    knows the descriptors. *)
Definition emptyScheduler : Sched.Scheduler :=
  Sched.NewScheduler Sched.descriptor None [].

(** The same after [Add("backup", "@daily", "echo hi", "Daily Backup")] at
    time 5 and one run of the job that ended at time 99. *)
Definition backupScheduler : Sched.Scheduler :=
  Sched.recordRun
    (snd (Sched.Add Sched.descriptor emptyScheduler 5
            "backup" "@daily" "echo hi" "Daily Backup"))
    "backup" 1 99.

(** The one operator of the samples, in a private chat. *)
Definition operator : Bot.Message := {| Bot.FromID := 42; Bot.ChatID := 42 |}.

(** A bot in safe mode with nothing pending. *)
Definition idleBot : Bot.Bot :=
  {| Bot.autoExecute := false;
     Bot.executor := pi;
     Bot.ollama := {| Bot.systemPrompt := "You are MiniClaw."; Bot.history := [] |};
     Bot.pendingCmds := ∅;
     Bot.trace := [] |}.

(** The same bot, with a command of the operator awaiting its answer. *)
Definition waitingBot : Bot.Bot :=
  {| Bot.autoExecute := false;
     Bot.executor := pi;
     Bot.ollama := {| Bot.systemPrompt := "You are MiniClaw."; Bot.history := [] |};
     Bot.pendingCmds := {[ 42%Z := "uptime" ]};
     Bot.trace := [] |}.

End Sample.

(** ** More of Go's strings *)

Module Text.

(** [s[n:]] for [0 <= n <= len(s)] *)
Fixpoint drop (n : nat) (s : string) : string :=
  match n, s with
  | O, _ => s
  | S _, EmptyString => ""
  | S k, String _ r => drop k r
  end.

(** The six bytes of ASCII white space: tab, line feed, vertical tab, form
    feed, carriage return, space. *)
Definition asciiSpace (c : ascii) : bool :=
  existsb (Ascii.eqb c) (map Extract.byte [9; 10; 11; 12; 13; 32]).

(** Does the string hold a backtick? *)
Fixpoint hasTick (s : string) : bool :=
  match s with
  | EmptyString => false
  | String c r => Ascii.eqb c "`"%char || hasTick r
  end.

End Text.

(** ** More sample inputs *)

Module Demo.

(** An executor whose cap is negative. *)
Definition capNegative : Exec.Executor :=
  {| Exec.workspace := "/home/pi/.miniclaw/workspace";
     Exec.timeout := 60000000000;
     Exec.maxOutputBytes := -1 |}.

(** A command that printed twenty bytes on each stream and exited with
    status 1. *)
Definition noisyFailure : Exec.Execution :=
  {| Exec.stdoutBuf := "0123456789abcdefghij";
     Exec.stderrBuf := "ABCDEFGHIJ0123456789";
     Exec.runErr := Some (Exec.ExitError (Exec.Exited 1));
     Exec.elapsed := 5000000; Exec.deadlineExceeded := false |}.

(** The workspace of [pi] with an uploaded script that is not executable
    yet and a text file. *)
Definition workspaceFS : OS.FS :=
  <["/home/pi/.miniclaw/workspace/deploy.sh" :=
      {| OS.data := "#!/bin/sh" ++ GoStr.nl ++ "echo deployed";
         OS.mode := 420; OS.isDir := false |}]>
  (<["/home/pi/.miniclaw/workspace/notes.txt" :=
      {| OS.data := "remember the milk"; OS.mode := 420; OS.isDir := false |}]>
  (<["/home/pi/.miniclaw/workspace" :=
      {| OS.data := ""; OS.mode := 493; OS.isDir := true |}]> ∅)).

End Demo.

(** ** Sample bots *)

Module DemoBot.

(** A bot in auto-execute mode, with a command of operator 7 pending from
    before the mode was switched on. *)
Definition autoBot : Bot.Bot :=
  {| Bot.autoExecute := true;
     Bot.executor := Sample.pi;
     Bot.ollama := {| Bot.systemPrompt := "You are MiniClaw."; Bot.history := [] |};
     Bot.pendingCmds := {[ 7%Z := "reboot" ]};
     Bot.trace := [] |}.

(** A second operator. *)
Definition colleague : Bot.Message := {| Bot.FromID := 7; Bot.ChatID := 7 |}.

(** A model that is down. *)
Definition deadModel (_ : list Bot.ChatMessage) : Outcome Bot.ChatMessage :=
  Fail "calling ollama: connection refused".

End DemoBot.

(** ** The timers of the scheduler *)

Module Timers.

(** Every job of the table has a live entry that runs it, and the ids of
    the live entries lie between 1 and the counter. *)
Definition timersOK (s : Sched.Scheduler) : Prop :=
  (forall k j, Sched.jobs s !! k = Some j ->
     Sched.entries (Sched.cron s) !! Sched.EntryID j = Some k)
  /\ (forall entry id, Sched.entries (Sched.cron s) !! entry = Some id ->
        (0 < entry <= Sched.nextID (Sched.cron s))%Z)
  /\ (0 <= Sched.nextID (Sched.cron s))%Z.

End Timers.

(** ** Sample schedulers *)

Module DemoSched.

(** The scheduler after [Add("backup", "@daily", "echo hi", "Daily Backup")]
    at time 5. *)
Definition withBackup : Sched.Scheduler :=
  snd (Sched.Add Sched.descriptor Sample.emptyScheduler 5
         "backup" "@daily" "echo hi" "Daily Backup").

(** The job that [Add] has made. *)
Definition backupJob : Sched.CronJob :=
  {| Sched.ID := "backup"; Sched.Spec := "@daily"; Sched.Command := "echo hi";
     Sched.Label := "Daily Backup"; Sched.Created := 5; Sched.LastRun := 0;
     Sched.EntryID := 1 |}.

(** A persist file with a job whose spec the parser accepts and one whose
    spec it does not. *)
Definition mixedFile : gmap string Sched.JobDoc :=
  <["backup" := {| Sched.d_id := "backup"; Sched.d_spec := "@daily";
                   Sched.d_command := "echo hi"; Sched.d_label := "Daily Backup";
                   Sched.d_created := 5; Sched.d_last_run := 99 |}]>
  (<["old" := {| Sched.d_id := "old"; Sched.d_spec := "every day";
                 Sched.d_command := "date"; Sched.d_label := "Clock";
                 Sched.d_created := 1; Sched.d_last_run := 2 |}]> ∅).

End DemoSched.

(** ** The bot: splitMessage *)

Module Chunks.

(** [strings.LastIndex(s, "\n")]: the index of the last line feed, or -1. *)
Fixpoint lastNewline (s : string) : Z :=
  match s with
  | EmptyString => -1
  | String c r =>
      let i := lastNewline r in
      if (0 <=? i)%Z then (i + 1)%Z
      else if Ascii.eqb c "010"%char then 0%Z else (-1)%Z
  end.

(** Where the loop of [splitMessage] cuts a text longer than [maxLen]: at
    the last line feed of its first [maxLen] bytes, unless that lies in the
    first half, else at [maxLen].  Go's [/] rounds towards zero. *)
Definition cutIndex (maxLen : Z) (text : string) : Z :=
  let idx := lastNewline (GoStr.take (Z.to_nat maxLen) text) in
  if (idx <? Z.quot maxLen 2)%Z then maxLen else idx.

(** The loop of [splitMessage].  [None] stands for a loop that is still
    running when the steps are used up; the slice [text[:maxLen]] panics for
    a negative [maxLen]. *)
Fixpoint splitLoop (fuel : nat) (maxLen : Z) (text : string)
  : option (Outcome (list string)) :=
  match fuel with
  | O => None
  | S k =>
      if (GoStr.len text =? 0)%Z then Some (Ret [])
      else if (GoStr.len text <=? maxLen)%Z then Some (Ret [text])
      else if (maxLen <? 0)%Z then Some Panic
      else
        let idx := Z.to_nat (cutIndex maxLen text) in
        match splitLoop k maxLen (Text.drop idx text) with
        | Some (Ret chunks) => Some (Ret (GoStr.take idx text :: chunks))
        | other => other
        end
  end.

Definition splitMessage (fuel : nat) (text : string) (maxLen : Z)
  : option (Outcome (list string)) :=
  if (GoStr.len text <=? maxLen)%Z then Some (Ret [text])
  else splitLoop fuel maxLen text.

End Chunks.

(** ** ollama.go: ChatStream *)

Module Stream.

(** A line of the streamed answer, decoded: [chunk.Message] and
    [chunk.Done]. *)
Record StreamChunk : Type := { Message : Bot.ChatMessage; Done : bool }.

(** The loop over the lines the scanner yields.  A line [json.Unmarshal]
    rejects is [None] and is passed over; the content of every other line is
    written to the answer and handed to [onChunk]; the loop ends after a line
    that is marked done.  The result lists the contents in order. *)
Fixpoint pieces (lines : list (option StreamChunk)) : list string :=
  match lines with
  | [] => []
  | None :: rest => pieces rest
  | Some chunk :: rest =>
      Bot.Content (Message chunk)
      :: (if Done chunk then [] else pieces rest)
  end.

(** The messages of the request: the system prompt, the last twelve
    messages of the memory, the user's message. *)
Definition request (o : Bot.OllamaClient) (userMessage : string)
  : list Bot.ChatMessage :=
  ([{| Bot.Role := "system"; Bot.Content := Bot.systemPrompt o |}]
   ++ Bot.recent (Bot.history o)
   ++ [{| Bot.Role := "user"; Bot.Content := userMessage |}])%list.

Section ChatStream.

(** The Ollama server: the lines of its streamed answer to a request, or
    the error of the exchange. *)
Variable postStream : list Bot.ChatMessage -> Outcome (list (option StreamChunk)).

(** [OllamaClient.ChatStream]: the answer, the client afterwards, and the
    arguments of the calls of [onChunk], in order. *)
Definition ChatStream (o : Bot.OllamaClient) (userMessage : string)
  : Outcome string * Bot.OllamaClient * list string :=
  match postStream (request o userMessage) with
  | Ret lines =>
      let result := GoStr.Join (pieces lines) "" in
      (Ret result,
       {| Bot.systemPrompt := Bot.systemPrompt o;
          Bot.history :=
            (Bot.history o
             ++ [{| Bot.Role := "user"; Bot.Content := userMessage |}]
             ++ [{| Bot.Role := "assistant"; Bot.Content := result |}])%list |},
       pieces lines)
  | Fail m => (Fail ("calling ollama: " ++ m), o, [])
  | Panic => (Panic, o, [])
  end.

End ChatStream.

(** The contents of the lines that decode. *)
Definition contents (lines : list (option StreamChunk)) : list string :=
  omap (fun line => (fun chunk => Bot.Content (Message chunk)) <$> line) lines.

(** No line is marked done. *)
Definition unfinished (lines : list (option StreamChunk)) : Prop :=
  forall chunk, Some chunk ∈ lines -> Done chunk = false.

End Stream.

(** A streamed answer for the samples. *)
Module DemoStream.

Definition word (text : string) : Stream.StreamChunk :=
  {| Stream.Message := {| Bot.Role := "assistant"; Bot.Content := text |};
     Stream.Done := false |}.

Definition finish : Stream.StreamChunk :=
  {| Stream.Message := {| Bot.Role := "assistant"; Bot.Content := "" |};
     Stream.Done := true |}.

(** Two words, with a line between them that does not decode, the closing
    line, and a line after it. *)
Definition server (_ : list Bot.ChatMessage)
  : Outcome (list (option Stream.StreamChunk)) :=
  Ret [Some (word "Hi"); None; Some (word " there"); Some finish;
       Some (word "ignored")].

End DemoStream.

(** ** strings.Fields and strings.SplitN *)

Module Words.

(** The field collected so far, if it has a byte. *)
Definition flush (cur : list ascii) : list string :=
  match cur with
  | [] => []
  | _ => [string_of_list_ascii (rev cur)]
  end.

(** [strings.Fields], byte by byte: [skip] counts the bytes left of a rune of
    white space that has been met, [cur] holds the bytes of the field being
    read, last byte first. *)
Fixpoint fieldsGo (skip : nat) (cur : list ascii) (l : list ascii)
  : list string :=
  match l with
  | [] => flush cur
  | c :: rest =>
      match skip with
      | S k => fieldsGo k cur rest
      | O =>
          match Extract.dropRune Extract.spaceRunes l with
          | Some after =>
              (flush cur
               ++ fieldsGo (length rest - length after) [] rest)%list
          | None => fieldsGo 0 (c :: cur) rest
          end
      end
  end.

Definition Fields (s : string) : list string :=
  fieldsGo 0 [] (list_ascii_of_string s).

(** What stands before and after the first [sep] in [s]. *)
Fixpoint cut (sep s : string) : option (string * string) :=
  match GoStr.stripPrefix sep s with
  | Some rest => Some ("", rest)
  | None =>
      match s with
      | EmptyString => None
      | String c r =>
          match cut sep r with
          | Some (before, after) => Some (String c before, after)
          | None => None
          end
      end
  end.

(** [strings.SplitN(s, sep, 2)] for a separator that is not empty *)
Definition SplitN2 (s sep : string) : list string :=
  match cut sep s with
  | Some (before, after) => [before; after]
  | None => [s]
  end.

End Words.

(** ** bot.go: the /cron command *)

Module CronCmd.

Import Sched.

Section handleCron.

Variable validSpec : string -> bool.

(** [LastRun.Format("Jan 02 15:04")] *)
Variable formatTime : Z -> string.

(** [%q] of a string, and the text of the parser's error for a spec *)
Variable quote : string -> string.
Variable parseError : string -> string.

(** [err.Error()] *)
Definition errorText (e : SchedError) : string :=
  match e with
  | AlreadyExists id => "job " ++ quote id ++ " already exists"
  | InvalidSpec spec =>
      "invalid cron spec " ++ quote spec ++ ": " ++ parseError spec
  | NotFound id => "job " ++ quote id ++ " not found"
  end.

Definition FormatJobList (jobs : list CronJob) : string :=
  match jobs with
  | [] => "📋 No cron jobs configured."
  | _ =>
      fold_left
        (fun msg j =>
           let lastRun :=
             if (LastRun j =? 0)%Z then "never" else formatTime (LastRun j) in
           msg ++ "• `" ++ ID j ++ "` — " ++ Label j ++ GoStr.nl
               ++ "  Schedule: `" ++ Spec j ++ "`" ++ GoStr.nl
               ++ "  Command: `" ++ Command j ++ "`" ++ GoStr.nl
               ++ "  Last run: " ++ lastRun ++ GoStr.nl ++ GoStr.nl)
        jobs
        ("📋 *Cron Jobs:*" ++ GoStr.nl ++ GoStr.nl)
  end.

(** Where the spec ends and the label begins in the words before the bar. *)
Definition specAndLabel (id : string) (header : list string)
  : option (string * string) :=
  let second := nth 1 header "" in
  if GoStr.HasPrefix second "@" then
    Some (second,
          if (2 <? length header)%nat
          then GoStr.Join (skipn 2 header) " " else id)
  else if (7 <=? length header)%nat then
    Some (GoStr.Join (firstn 6 (skipn 1 header)) " ",
          if (7 <? length header)%nat
          then GoStr.Join (skipn 7 header) " " else id)
  else if (6 <=? length header)%nat then
    Some (GoStr.Join (firstn 5 (skipn 1 header)) " ", id)
  else None.

Definition usage : string :=
  "Usage: `/cron add <id> <cron-spec> <label> | <command>`"
  ++ GoStr.nl ++ GoStr.nl ++ "Example:" ++ GoStr.nl
  ++ "`/cron add backup @daily Daily Backup | tar czf backup.tgz /data`".

Definition unknown : string :=
  "Unknown cron command. Use: `/cron list`, `/cron add ...`, `/cron rm <id>`".

(** [handleCron(msg, args)]: [listed] is what [b.scheduler.List()] answers,
    [now] the time at which [Add] would be reached. *)
Definition handleCron (b : Bot.Bot) (s : Scheduler) (listed : list CronJob)
    (now : Z) (msg : Bot.Message) (args : string) : Bot.Bot * Scheduler :=
  let args := Extract.TrimSpace args in
  if String.eqb args "" || String.eqb args " list" then
    (Bot.reply msg (FormatJobList listed) b, s)
  else if GoStr.HasPrefix args " add " then
    let rest := GoStr.TrimPrefix args " add " in
    match Words.SplitN2 rest " | " with
    | [head; tail] =>
        let header := Words.Fields head in
        let command := Extract.TrimSpace tail in
        if (length header <? 2)%nat then
          (Bot.reply msg "Need at least: `<id> <spec>`" b, s)
        else
          let id := nth 0 header "" in
          match specAndLabel id header with
          | None =>
              (Bot.reply msg
                 "Invalid cron spec. Use `@every 5m`, `@daily`, or `sec min hour dom mon dow`"
                 b, s)
          | Some (spec, label) =>
              match Add validSpec s now id spec command label with
              | (Some err, s') =>
                  (Bot.reply msg ("❌ " ++ errorText err) b, s')
              | (None, s') =>
                  (Bot.reply msg
                     ("✅ Cron job `" ++ id ++ "` created." ++ GoStr.nl
                      ++ "Schedule: `" ++ spec ++ "`" ++ GoStr.nl
                      ++ "Command: `" ++ command ++ "`") b, s')
              end
          end
    | _ => (Bot.reply msg usage b, s)
    end
  else if GoStr.HasPrefix args " rm " then
    let id := Extract.TrimSpace (GoStr.TrimPrefix args " rm ") in
    match Remove s id with
    | (Some err, s') => (Bot.reply msg ("❌ " ++ errorText err) b, s')
    | (None, s') =>
        (Bot.reply msg ("🗑 Cron job `" ++ id ++ "` removed.") b, s')
    end
  else (Bot.reply msg unknown b, s).

End handleCron.

End CronCmd.

(** ** bot.go: the router and /ask *)

Module Router.

(** What [handleMessage] reads of an inbound message: [msg.From.ID],
    whether [msg.Document] is set, and [msg.Text]. *)
Record Inbound : Type := { From : Z; Document : bool; Text : string }.

(** The handler a message is given to, with the argument it receives. *)
Inductive Route : Type :=
| Unauthorized
| FileUpload
| Dropped
| Help
| Status
| ExecCommand (command : string)
| RunScript (args : string)
| ListFiles
| CatFile (filename : string)
| DeleteFile (filename : string)
| Download (filename : string)
| Ask (prompt : string)
| ClearHistory
| Confirm
| Reject
| Cron (args : string)
| Chat (text : string).

(** The map [NewBot] builds from [cfg.Telegram.AllowedIDs]. *)
Definition allowedIDs (ids : list Z) : gmap Z bool :=
  fold_left (fun allowed id => <[id := true]> allowed) ids ∅.

(** [b.allowedIDs[id]]: an absent key reads as [false]. *)
Definition allowed (m : gmap Z bool) (id : Z) : bool :=
  default false (m !! id).

Definition handleMessage (m : gmap Z bool) (msg : Inbound) : Route :=
  if negb (allowed m (From msg)) then Unauthorized
  else if Document msg then FileUpload
  else
    let text := Extract.TrimSpace (Text msg) in
    if String.eqb text "" then Dropped
    else if String.eqb text "/start" || String.eqb text "/help" then Help
    else if String.eqb text "/status" then Status
    else if GoStr.HasPrefix text "/exec "
    then ExecCommand (GoStr.TrimPrefix text "/exec ")
    else if GoStr.HasPrefix text "/run "
    then RunScript (GoStr.TrimPrefix text "/run ")
    else if String.eqb text "/ls" then ListFiles
    else if GoStr.HasPrefix text "/cat "
    then CatFile (GoStr.TrimPrefix text "/cat ")
    else if GoStr.HasPrefix text "/rm "
    then DeleteFile (GoStr.TrimPrefix text "/rm ")
    else if GoStr.HasPrefix text "/download "
    then Download (GoStr.TrimPrefix text "/download ")
    else if GoStr.HasPrefix text "/ask "
    then Ask (GoStr.TrimPrefix text "/ask ")
    else if String.eqb text "/clear" then ClearHistory
    else if String.eqb text "/yes" then Confirm
    else if String.eqb text "/no" then Reject
    else if GoStr.HasPrefix text "/cron"
    then Cron (GoStr.TrimPrefix text "/cron")
    else Chat text.

(** The command word and the argument of the routes whose command takes
    an argument after a space. *)
Definition argumentOf (r : Route) : option (string * string) :=
  match r with
  | ExecCommand a => Some ("/exec ", a)
  | RunScript a => Some ("/run ", a)
  | CatFile a => Some ("/cat ", a)
  | DeleteFile a => Some ("/rm ", a)
  | Download a => Some ("/download ", a)
  | Ask a => Some ("/ask ", a)
  | _ => None
  end.

Section handleAsk.

Variable post : list Bot.ChatMessage -> Outcome Bot.ChatMessage.

Definition handleAsk (b : Bot.Bot) (msg : Bot.Message) (prompt : string)
  : Bot.Bot :=
  let b := Bot.sendMessage (Bot.ChatID msg) "🧠 Thinking..." b in
  match Bot.Chat post (Bot.ollama b) prompt with
  | (Ret response, o) => Bot.reply msg response (Bot.setOllama o b)
  | (Fail m, o) => Bot.reply msg ("❌ Ollama error: " ++ m) (Bot.setOllama o b)
  | (Panic, o) => Bot.emit Bot.Crashed (Bot.setOllama o b)
  end.

End handleAsk.

End Router.

(** ** bot.go: handlers as goroutines *)

(** [Start] gives every message to a goroutine of its own
    ([go b.handleMessage(update.Message)]), and the handlers share the bot
    and its [pendingCmds], which no lock guards.  [handleConfirm] is taken
    apart here into its statements; between two statements of one goroutine
    another goroutine may run.  Every statement is taken to act on the bot
    in one piece. *)

Module Race.

Import Bot.

(** The statement of [handleConfirm] a goroutine is to execute next, with
    its local variables [cmd], [result] and [err]. *)
Inductive PC : Type :=
| AtLookup
| AtMissing
| AtDelete (cmd : string)
| AtSend (cmd : string)
| AtRun (cmd : string)
| AtReport (outcome : Outcome Exec.ExecResult)
| AtFeedback (result : Exec.ExecResult)
| Finished
| Dead.

Section Steps.

Variable durationString : Z -> string.
Variable formatSeconds : Z -> string.
Variable bash : string -> Exec.Execution.
Variable post : list ChatMessage -> Outcome ChatMessage.

(** One statement of [handleConfirm(msg)].  A panic inside [Run] ends the
    program: the goroutine is [Dead]. *)
Definition step (msg : Message) (b : Bot) (pc : PC) : Bot * PC :=
  let nl := GoStr.nl in
  match pc with
  | AtLookup =>
      match pendingCmds b !! FromID msg with
      | None => (b, AtMissing)
      | Some cmd => (b, AtDelete cmd)
      end
  | AtMissing => (reply msg "Nothing pending to execute." b, Finished)
  | AtDelete cmd => (deletePending (FromID msg) b, AtSend cmd)
  | AtSend cmd => (sendMessage (ChatID msg) "⚡ Executing..." b, AtRun cmd)
  | AtRun cmd =>
      match run durationString bash cmd b with
      | (Panic, b) => (emit Crashed b, Dead)
      | (outcome, b) => (b, AtReport outcome)
      end
  | AtReport (Ret result) =>
      (reply msg (Exec.FormatResult formatSeconds result) b, AtFeedback result)
  | AtReport (Fail m) => (reply msg ("❌ Error: " ++ m) b, Finished)
  | AtReport Panic => (emit Crashed b, Dead)
  | AtFeedback result =>
      let prompt :=
        "The command was executed. Here is the result:" ++ nl ++ nl
        ++ "Exit code: " ++ GoStr.Itoa (Exec.ExitCode result) ++ nl
        ++ "Stdout:" ++ nl ++ Exec.Stdout result ++ nl
        ++ "Stderr:" ++ nl ++ Exec.Stderr result in
      (setOllama (snd (Chat post (ollama b) prompt)) b, Finished)
  | Finished => (b, Finished)
  | Dead => (b, Dead)
  end.

(** Two goroutines, each in [handleConfirm] for a message of its own, and
    the bot they share. *)
Record Pool : Type := { shared : Bot; first : PC; second : PC }.

Inductive Turn : Type := First | Second.

Definition dead (p : Pool) : bool :=
  match first p, second p with
  | Dead, _ | _, Dead => true
  | _, _ => false
  end.

(** The goroutine whose turn it is executes one statement. *)
Definition turn (m1 m2 : Message) (p : Pool) (t : Turn) : Pool :=
  if dead p then p
  else
    match t with
    | First =>
        let (b, pc) := step m1 (shared p) (first p) in
        {| shared := b; first := pc; second := second p |}
    | Second =>
        let (b, pc) := step m2 (shared p) (second p) in
        {| shared := b; first := first p; second := pc |}
    end.

(** The run of the two goroutines under a schedule. *)
Definition interleave (m1 m2 : Message) (schedule : list Turn) (p : Pool)
  : Pool :=
  fold_left (turn m1 m2) schedule p.

(** Both handlers are about to begin. *)
Definition start (b : Bot) : Pool :=
  {| shared := b; first := AtLookup; second := AtLookup |}.

End Steps.

(** The schedule in which the first handler ends before the second
    begins, and one in which both look the command up before either
    deletes it. *)
Definition oneAfterTheOther : list Turn :=
  (repeat First 6 ++ repeat Second 6)%list.

Definition overlapping : list Turn :=
  ([First; Second] ++ repeat First 5 ++ repeat Second 5)%list.

End Race.

(** * Properties *)

(** ** Executor.Run *)

Section RunFacts.

Import Exec.

Variable durationString : Z -> string.

Lemma length_take n s : String.length (GoStr.take n s) = Nat.min n (String.length s).
Proof.
  revert s. induction n as [|n IH]; intros [|c r]; simpl; auto.
Qed.


Lemma capStream_total max s :
  (0 <= max)%Z -> exists out t, capStream max s = Ret (out, t).
Proof.
  intros H. unfold capStream.
  destruct (GoStr.len s >? max)%Z; [|eauto].
  destruct (Z.ltb_spec max 0); [lia | eauto].
Qed.

(** [Run] on an execution that ended before the deadline, unfolded. *)
Lemma Run_completed e x :
  deadlineExceeded x = false ->
  Run durationString e x =
    match runErr x with
    | Some (OtherError msg) => Fail ("executing command: " ++ msg)
    | err =>
        match capStream (maxOutputBytes e) (stdoutBuf x) with
        | Ret (out, t1) =>
            match capStream (maxOutputBytes e) (stderrBuf x) with
            | Ret (err', t2) =>
                Ret {| Stdout := out; Stderr := err';
                       ExitCode := match err with
                                     | Some (ExitError ps) => processExitCode ps
                                     | _ => 0%Z
                                     end;
                       Duration := elapsed x; Truncated := t1 || t2 |}
            | Fail m => Fail m
            | Panic => Panic
            end
        | Fail m => Fail m
        | Panic => Panic
        end
    end.
Proof.
  intros H. unfold Run. rewrite H.
  destruct (runErr x) as [[ps|msg]|]; reflexivity.
Qed.

Lemma Run_timed_out e x :
  deadlineExceeded x = true ->
  Run durationString e x =
    Ret {| Stdout := stdoutBuf x;
           Stderr := stderrBuf x ++ timeoutMarker ++ durationString (timeout e);
           ExitCode := timeoutExitCode;
           Duration := elapsed x;
           Truncated := false |}.
Proof. intros H. unfold Run. now rewrite H. Qed.


End RunFacts.

(** C2, at a command that floods its output and then hangs: on a timeout
    [Run] returns the captured standard output as it is, ten bytes under a
    cap of four, with the truncated flag unset; the early return of the
    timeout branch skips the capping. *)
Theorem Run_timeout_returns_uncapped_output (durationString : Z -> string) :
  exists r,
    Exec.Run durationString Sample.capFour Sample.floodThenHang = Ret r
    /\ Exec.Stdout r = "0123456789"
    /\ (GoStr.len (Exec.Stdout r) > Exec.maxOutputBytes Sample.capFour)%Z
    /\ Exec.Truncated r = false.
Proof.
  eexists. split; [reflexivity|]. repeat split.
Qed.

(** What C2 says does hold for a command that ends before the deadline,
    under a cap that is not negative: each stream is either returned as it
    is, or cut to the cap and followed by the marker, and the flag tells
    whether one was cut. *)
Lemma Run_completed_caps_output (durationString : Z -> string) e x r :
  (0 <= Exec.maxOutputBytes e)%Z ->
  Exec.deadlineExceeded x = false ->
  Exec.Run durationString e x = Ret r ->
  let cut max s out :=
    if (GoStr.len s >? max)%Z
    then out = GoStr.take (Z.to_nat max) s ++ Exec.truncationMarker
         /\ GoStr.len (GoStr.take (Z.to_nat max) s) = max
    else out = s in
  cut (Exec.maxOutputBytes e) (Exec.stdoutBuf x) (Exec.Stdout r)
  /\ cut (Exec.maxOutputBytes e) (Exec.stderrBuf x) (Exec.Stderr r)
  /\ (Exec.Truncated r = true <->
        (GoStr.len (Exec.stdoutBuf x) > Exec.maxOutputBytes e)%Z
        \/ (GoStr.len (Exec.stderrBuf x) > Exec.maxOutputBytes e)%Z).
Proof.
  intros Hmax Hd HR. rewrite Run_completed in HR by assumption.
  assert (Hcap : forall s,
    Exec.capStream (Exec.maxOutputBytes e) s =
      if (GoStr.len s >? Exec.maxOutputBytes e)%Z
      then Ret (GoStr.take (Z.to_nat (Exec.maxOutputBytes e)) s ++ Exec.truncationMarker, true)
      else Ret (s, false)).
  { intros s. unfold Exec.capStream.
    destruct (Z.ltb_spec (Exec.maxOutputBytes e) 0); [lia | reflexivity]. }
  assert (Hlen : forall s, (GoStr.len s >? Exec.maxOutputBytes e)%Z = true ->
    GoStr.len (GoStr.take (Z.to_nat (Exec.maxOutputBytes e)) s) = Exec.maxOutputBytes e).
  { intros s Hs. apply Z.gtb_lt in Hs. unfold GoStr.len in *.
    rewrite length_take. lia. }
  rewrite !Hcap in HR. cbv zeta.
  destruct (Exec.runErr x) as [[ps|msg]|]; try discriminate;
    destruct (GoStr.len (Exec.stdoutBuf x) >? Exec.maxOutputBytes e)%Z eqn:E1;
    destruct (GoStr.len (Exec.stderrBuf x) >? Exec.maxOutputBytes e)%Z eqn:E2;
    injection HR as <-; simpl;
    try apply Z.gtb_lt in E1; try apply Z.gtb_lt in E2;
    try (rewrite Z.gtb_ltb in E1; apply Z.ltb_ge in E1);
    try (rewrite Z.gtb_ltb in E2; apply Z.ltb_ge in E2);
    repeat split; auto; try (apply Hlen; apply Z.gtb_lt; lia);
    try lia; try (intros [?|?]; lia); try discriminate.
Qed.




(** C4 as stated fails under a cap that is negative, which [NewExecutor]
    takes over from the configuration as it is: a command that succeeds and
    prints nothing is no outcome of the kind "process could not be
    started", and yet [Run] gives no result for it, nor an error: the slice
    [result.Stdout[:e.maxOutputBytes]] panics. *)
Lemma Run_success_without_return :
  Exec.deadlineExceeded (Sample.quietHost "true") = false
  /\ Exec.runErr (Sample.quietHost "true") = None
  /\ Exec.Run Sample.minute Demo.capNegative (Sample.quietHost "true") = Panic
  /\ ~ (exists r,
          Exec.Run Sample.minute Demo.capNegative (Sample.quietHost "true")
          = Ret r).
Proof.
  split; [reflexivity|]. split; [reflexivity|].
  assert (H : Exec.Run Sample.minute Demo.capNegative (Sample.quietHost "true")
              = Panic) by (vm_compute; reflexivity).
  split; [exact H|]. intros [r Hr]. rewrite H in Hr. discriminate.
Qed.

(** C4, amended: [Run] returns an error only for an execution that did not
    time out and whose [cmd.Run] error is no exit error, that is, the process
    could not be run.  Under a cap that is not negative every other execution
    (success, an exit that is no success, a timeout) returns a result and no
    error, whose exit code encodes the outcome: -1 on a timeout, else the
    process's exit code; it is 0 only for a success. *)
Theorem Run_fails_only_when_not_started (durationString : Z -> string)
    (e : Exec.Executor) (x : Exec.Execution) :
  (0 <= Exec.maxOutputBytes e)%Z ->
  (forall m, Exec.Run durationString e x = Fail m ->
     Exec.deadlineExceeded x = false
     /\ exists msg, Exec.runErr x = Some (Exec.OtherError msg)
                    /\ m = "executing command: " ++ msg)
  /\ (Exec.deadlineExceeded x = true
      \/ Exec.runErr x = None
      \/ (exists ps, Exec.runErr x = Some (Exec.ExitError ps)) ->
      exists r,
        Exec.Run durationString e x = Ret r
        /\ Exec.ExitCode r =
             (if Exec.deadlineExceeded x then Exec.timeoutExitCode
              else match Exec.runErr x with
                   | Some (Exec.ExitError ps) => Exec.processExitCode ps
                   | _ => 0%Z
                   end)
        /\ (Exec.ExitCode r = 0%Z ->
            Exec.deadlineExceeded x = false
            /\ (Exec.runErr x = None
                \/ Exec.runErr x = Some (Exec.ExitError (Exec.Exited 0))))).
Proof.
  intros Hmax.
  destruct (capStream_total (Exec.maxOutputBytes e) (Exec.stdoutBuf x) Hmax)
    as (out & t1 & Hout).
  destruct (capStream_total (Exec.maxOutputBytes e) (Exec.stderrBuf x) Hmax)
    as (err & t2 & Herr).
  destruct (Exec.deadlineExceeded x) eqn:Hd.
  - rewrite Run_timed_out by assumption. split; [discriminate|].
    intros _. eexists. split; [reflexivity|]. simpl.
    split; [reflexivity|]. unfold Exec.timeoutExitCode. lia.
  - rewrite Run_completed by assumption. rewrite Hout, Herr.
    destruct (Exec.runErr x) as [[ps|msg]|] eqn:He.
    + split; [discriminate|]. intros _. eexists. split; [reflexivity|]. simpl.
      split; [reflexivity|]. intros H0. split; [reflexivity|]. right.
      destruct ps as [status|sig]; simpl in H0; [|lia].
      assert (status = 0%N) as -> by lia. reflexivity.
    + split.
      * intros m H. injection H as <-. split; [reflexivity|]. eauto.
      * intros [H|[H|[ps H]]]; discriminate.
    + split; [discriminate|]. intros _. eexists. split; [reflexivity|]. simpl.
      auto.
Qed.

Lemma Run_fails_only_when_not_started_witness :
  (0 <= Exec.maxOutputBytes Sample.pi)%Z
  /\ (exists r,
        Exec.Run Sample.minute Sample.pi Sample.exitSeven = Ret r
        /\ Exec.ExitCode r = 7%Z)
  /\ (exists msg,
        Exec.runErr (Sample.noBash "uptime") = Some (Exec.OtherError msg)
        /\ "executing command: exec: bash: executable file not found in $PATH"
           = "executing command: " ++ msg).
Proof.
  assert (H : (0 <= Exec.maxOutputBytes Sample.pi)%Z) by (simpl; lia).
  split; [exact H|]. split.
  - destruct (proj2 (Run_fails_only_when_not_started
                       Sample.minute Sample.pi Sample.exitSeven H))
      as (r & HR & Hcode & _).
    + right. right. eexists. reflexivity.
    + exists r. split; [exact HR | exact Hcode].
  - exact (proj2 (proj1 (Run_fails_only_when_not_started
                           Sample.minute Sample.pi (Sample.noBash "uptime") H)
                    _ eq_refl)).
Defined.

(** ** RunScript and the files of the workspace *)

(** C1, at a filename with parent-directory components: [RunScript] joins
    it to the workspace as it is, finds the script that lies two
    directories above the workspace, makes it executable and hands it to
    [Run]; nothing is rejected. *)
Theorem RunScript_follows_parent_directory
    (durationString : Z -> string) (bash : string -> Exec.Execution) :
  Filepath.hasSep "../../evil.sh" = true
  /\ Filepath.Join (Exec.workspace Sample.pi) "../../evil.sh" = "/home/pi/evil.sh"
  /\ GoStr.HasPrefix "/home/pi/evil.sh" (Exec.workspace Sample.pi) = false
  /\ fst (Exec.scriptCommand Sample.pi Sample.home "../../evil.sh" [])
     = Ret "bash /home/pi/evil.sh"
  /\ fst (Exec.RunScript durationString bash Sample.pi Sample.home "../../evil.sh" [])
     = Exec.Run durationString Sample.pi (bash "bash /home/pi/evil.sh")
  /\ OS.mode <$> snd (Exec.RunScript durationString bash Sample.pi Sample.home
                        "../../evil.sh" []) !! "/home/pi/evil.sh"
     = Some 493%Z.
Proof.
  assert (H : Exec.scriptCommand Sample.pi Sample.home "../../evil.sh" []
              = (Ret "bash /home/pi/evil.sh",
                 OS.Chmod Sample.home "/home/pi/evil.sh" 493)).
  { vm_compute. reflexivity. }
  split; [reflexivity|]. split; [vm_compute; reflexivity|].
  split; [reflexivity|]. split; [rewrite H; reflexivity|].
  unfold Exec.RunScript. rewrite H.
  split; [reflexivity | vm_compute; reflexivity].
Qed.

(** ** The command extractor *)

Lemma stripPrefix_length p s r :
  GoStr.stripPrefix p s = Some r ->
  String.length s = (String.length p + String.length r)%nat.
Proof.
  revert s. induction p as [|a p IH]; intros [|b s]; simpl; intros H;
    try discriminate; try (injection H as <-; reflexivity).
  destruct (Ascii.eqb a b); [|discriminate]. now rewrite (IH _ H).
Qed.

Lemma cutAtFence_unfold s :
  Extract.cutAtFence s =
    match GoStr.stripPrefix Extract.fence s with
    | Some rest => Some ("", rest)
    | None =>
        match s with
        | EmptyString => None
        | String c r =>
            match Extract.cutAtFence r with
            | Some (before, rest) => Some (String c before, rest)
            | None => None
            end
        end
    end.
Proof. destruct s; reflexivity. Qed.

Lemma cutAtFence_length s before rest :
  Extract.cutAtFence s = Some (before, rest) ->
  (String.length rest < String.length s)%nat.
Proof.
  revert before. induction s as [|c s IH]; intros before;
    rewrite cutAtFence_unfold.
  - discriminate.
  - destruct (GoStr.stripPrefix Extract.fence (String c s)) as [r|] eqn:E.
    + intros H. injection H as _ <-.
      apply stripPrefix_length in E. simpl in E. simpl. lia.
    + destruct (Extract.cutAtFence s) as [[b r]|]; [|discriminate].
      intros H. injection H as _ <-. specialize (IH b eq_refl). simpl. lia.
Qed.

Lemma matchHere_length s content rest :
  Extract.matchHere s = Some (content, rest) ->
  (String.length rest < String.length s)%nat.
Proof.
  unfold Extract.matchHere, Extract.afterTag.
  destruct (GoStr.stripPrefix Extract.fence s) as [r1|] eqn:E1; [|discriminate].
  apply stripPrefix_length in E1.
  assert (H2 : forall r2, Extract.cutAtFence r2 = Some (content, rest) ->
                 (String.length r2 <= String.length r1)%nat ->
                 (String.length rest < String.length s)%nat).
  { intros r2 H Hle. apply cutAtFence_length in H. lia. }
  destruct (GoStr.stripPrefix ("bash" ++ GoStr.nl) r1) as [r2|] eqn:Eb.
  { intros H. apply (H2 _ H). apply stripPrefix_length in Eb. lia. }
  destruct (GoStr.stripPrefix ("sh" ++ GoStr.nl) r1) as [r2|] eqn:Es.
  { intros H. apply (H2 _ H). apply stripPrefix_length in Es. lia. }
  destruct (GoStr.stripPrefix GoStr.nl r1) as [r2|] eqn:En; [|discriminate].
  intros H. apply (H2 _ H). apply stripPrefix_length in En. lia.
Qed.

(** The search ends within the steps [findAll] grants it: more steps find
    the same matches. *)
Lemma findAllFrom_enough n m s :
  (String.length s < n)%nat -> (String.length s < m)%nat ->
  Extract.findAllFrom n s = Extract.findAllFrom m s.
Proof.
  revert m s. induction n as [|n IH]; intros m s Hn Hm; [lia|].
  destruct m as [|m]; [lia|]. simpl.
  destruct (Extract.matchHere s) as [[content rest]|] eqn:E.
  - apply matchHere_length in E. f_equal. apply IH; lia.
  - destruct s as [|c r]; [reflexivity|]. simpl in *. apply IH; lia.
Qed.

(** C6, at texts with a block of another language before a shell block.
    The closing fence of the python block, followed by a line end, is taken
    for an opening fence without tag, and the next fence for its end.  In
    the first text that swallows the opening fences of both shell blocks:
    nothing is returned.  In the second the [bash] block comes first and is
    found, the [sh] block is lost.  In the third the prose between the
    python block and the [sh] block is returned as a command. *)
Theorem ExtractBashCommands_after_foreign_block :
  let nl := GoStr.nl in
  Extract.ExtractBashCommands
    ("```python" ++ nl ++ "print(1)" ++ nl ++ "```" ++ nl
     ++ "```bash" ++ nl ++ "ls" ++ nl ++ "```" ++ nl
     ++ "```sh" ++ nl ++ "pwd" ++ nl ++ "```")
  = []
  /\ Extract.ExtractBashCommands
       ("```bash" ++ nl ++ "ls" ++ nl ++ "```" ++ nl
        ++ "```python" ++ nl ++ "print(1)" ++ nl ++ "```" ++ nl
        ++ "```sh" ++ nl ++ "pwd" ++ nl ++ "```")
     = ["ls"]
  /\ Extract.ExtractBashCommands
       ("```bash" ++ nl ++ "ls" ++ nl ++ "```" ++ nl
        ++ "```python" ++ nl ++ "print(1)" ++ nl ++ "```" ++ nl
        ++ "then" ++ nl
        ++ "```sh" ++ nl ++ "pwd" ++ nl ++ "```")
     = ["ls"; "then"].
Proof. repeat split; vm_compute; reflexivity. Qed.

(** With the block of the other language last, the two shell blocks come
    out in order; a block of white space only is dropped, duplicates stay. *)
Lemma ExtractBashCommands_shell_blocks_first :
  let nl := GoStr.nl in
  Extract.ExtractBashCommands
    ("```bash" ++ nl ++ "ls" ++ nl ++ "```" ++ nl
     ++ "```sh" ++ nl ++ " pwd  " ++ nl ++ "```" ++ nl
     ++ "```bash" ++ nl ++ "  " ++ nl ++ "```" ++ nl
     ++ "```sh" ++ nl ++ "ls" ++ nl ++ "```" ++ nl
     ++ "```python" ++ nl ++ "print(1)" ++ nl ++ "```" ++ nl)
  = ["ls"; "pwd"; "ls"].
Proof. vm_compute. reflexivity. Qed.

(** ** File operations: the base name *)

Section BaseFacts.

Import Filepath.

Lemma hasSep_afterLastSep s : hasSep (afterLastSep s) = false.
Proof.
  induction s as [|c r IH]; simpl; [reflexivity|].
  destruct (hasSep r) eqn:Hr; [exact IH|].
  destruct (isSep c) eqn:Hc; [exact Hr|].
  simpl. now rewrite Hc, Hr.
Qed.

Lemma stripTrailingSeps_no_sep s :
  hasSep s = false -> stripTrailingSeps s = s.
Proof.
  induction s as [|c r IH]; simpl; [reflexivity|].
  intros H. apply orb_false_iff in H as [Hc Hr].
  rewrite (IH Hr), Hc. now destruct r.
Qed.

Lemma afterLastSep_no_sep s : hasSep s = false -> afterLastSep s = s.
Proof.
  destruct s as [|c r]; simpl; [reflexivity|].
  intros H. apply orb_false_iff in H as [Hc Hr]. now rewrite Hr, Hc.
Qed.

(** A name without separator is its own base name, the empty one apart. *)
Lemma Base_no_sep s : s <> "" -> hasSep s = false -> Base s = s.
Proof.
  intros Hne Hs. unfold Base. destruct s as [|c r]; [congruence|].
  rewrite (stripTrailingSeps_no_sep _ Hs), (afterLastSep_no_sep _ Hs).
  reflexivity.
Qed.

(** [Base] answers ".", "/" or a name without separator. *)
Lemma Base_cases path :
  Base path = "." \/ Base path = "/"
  \/ (Base path <> "" /\ hasSep (Base path) = false).
Proof.
  unfold Base. destruct path as [|c r]; [now left|].
  pose proof (hasSep_afterLastSep (stripTrailingSeps (String c r))) as H.
  destruct (afterLastSep (stripTrailingSeps (String c r))) as [|a b];
    [right; now left|].
  right. right. split; [discriminate | exact H].
Qed.

Lemma hasSep_Base path : hasSep (Base path) = true -> Base path = "/".
Proof.
  destruct (Base_cases path) as [H|[H|[_ H]]]; rewrite H; auto; discriminate.
Qed.

Lemma Base_idempotent path : Base (Base path) = Base path.
Proof.
  destruct (Base_cases path) as [H|[H|[Hne H]]].
  - rewrite H. reflexivity.
  - rewrite H. reflexivity.
  - now apply Base_no_sep.
Qed.

Lemma split_nonempty s : split s <> [].
Proof.
  destruct s as [|c r]; simpl; [discriminate|].
  destruct (isSep c); [discriminate|]. destruct (split r); discriminate.
Qed.

Lemma split_no_sep s : hasSep s = false -> split s = [s].
Proof.
  induction s as [|c r IH]; simpl; [reflexivity|].
  intros H. apply orb_false_iff in H as [Hc Hr]. now rewrite Hc, (IH Hr).
Qed.

Lemma split_app_sep a b : split (a ++ "/" ++ b) = (split a ++ split b)%list.
Proof.
  induction a as [|c r IH]; simpl; [reflexivity|].
  destruct (isSep c); [now rewrite IH|].
  rewrite IH. pose proof (split_nonempty r).
  destruct (split r); [congruence | reflexivity].
Qed.

Lemma isRooted_app a b : a <> "" -> isRooted (a ++ b) = isRooted a.
Proof. destruct a; [congruence | reflexivity]. Qed.

Lemma cleanStep_ordinary rooted buf name :
  ordinary name = true ->
  cleanStep rooted buf name
  = {| dotdots := dotdots buf; elems := name :: elems buf |}.
Proof.
  unfold ordinary, cleanStep. intros H.
  repeat (apply andb_true_iff in H as [H ?]).
  destruct (String.eqb name ""); [discriminate|].
  destruct (String.eqb name "."); [discriminate|].
  destruct (String.eqb name ".."); [discriminate|]. reflexivity.
Qed.

(** Joining an ordinary name to a directory names the entry of that name
    directly inside the directory. *)
Lemma Join_ordinary dir name :
  dir <> "" -> ordinary name = true -> Join dir name = childOf dir name.
Proof.
  intros Hdir Hord. pose proof Hord as Hord'.
  unfold ordinary in Hord'.
  repeat (apply andb_true_iff in Hord' as [Hord' ?]).
  apply negb_true_iff in Hord'.
  unfold Join. destruct dir as [|c r]; [congruence|].
  unfold Clean, childOf, cleanBuf.
  remember (String c r) as d.
  assert (Hne : d ++ "/" ++ name <> "") by (subst d; discriminate).
  destruct (d ++ "/" ++ name) eqn:E; [congruence|]. rewrite <- E.
  rewrite isRooted_app by assumption.
  rewrite split_app_sep, (split_no_sep name Hord'), fold_left_app. simpl.
  now rewrite cleanStep_ordinary.
Qed.

End BaseFacts.

Example childOf_workspace :
  Filepath.childOf "/home/pi/.miniclaw/workspace/" "notes.txt"
  = "/home/pi/.miniclaw/workspace/notes.txt".
Proof. reflexivity. Qed.

(** C5 as stated fails: a filename that climbs out of the workspace is not
    rejected by [SaveFile]; its directory part is dropped and the file is
    written inside the workspace under the base name. *)
Lemma SaveFile_traversal_not_rejected :
  fst (Exec.SaveFile Sample.pi Sample.home "../../etc/passwd" "x")
    = Ret "/home/pi/.miniclaw/workspace/passwd"
  /\ isFail (fst (Exec.SaveFile Sample.pi Sample.home "../../etc/passwd" "x"))
     = false.
Proof. split; vm_compute; reflexivity. Qed.

(** C5, amended: [SaveFile], [ReadFile] and [DeleteFile] replace the
    filename by its base name, so that a filename with a directory part or a
    parent-directory component is served as its base name would be and is
    not rejected.  They read and change the file system at the single path
    [Join(workspace, Base(filename))] only.  The base name holds no
    separator unless it is "/" itself, and when it is an ordinary name that
    path is the entry of this name directly inside the workspace root. *)
Theorem file_operations_use_base_name
    (e : Exec.Executor) (fs : OS.FS) (filename content : string) :
  let base := Filepath.Base filename in
  let path := Filepath.Join (Exec.workspace e) base in
  (Exec.SaveFile e fs filename content = Exec.SaveFile e fs base content
   /\ Exec.ReadFile e fs filename = Exec.ReadFile e fs base
   /\ Exec.DeleteFile e fs filename = Exec.DeleteFile e fs base)
  /\ (forall p, fst (Exec.SaveFile e fs filename content) = Ret p -> p = path)
  /\ (forall q, q <> path ->
        snd (Exec.SaveFile e fs filename content) !! q = fs !! q
        /\ snd (Exec.DeleteFile e fs filename) !! q = fs !! q)
  /\ (forall fs' : OS.FS, fs' !! path = fs !! path ->
        Exec.ReadFile e fs' filename = Exec.ReadFile e fs filename)
  /\ (Filepath.hasSep base = true -> base = "/")
  /\ (Exec.workspace e <> "" -> Filepath.ordinary base = true ->
      path = Filepath.childOf (Exec.workspace e) base).
Proof.
  cbv zeta. split; [|split; [|split; [|split; [|split]]]].
  - unfold Exec.SaveFile, Exec.ReadFile, Exec.DeleteFile.
    rewrite Base_idempotent. auto.
  - intros p. unfold Exec.SaveFile, OS.WriteFile.
    destruct (fs !! _) as [f|]; [destruct (OS.isDir f)|]; simpl;
      intros H; congruence.
  - intros q Hq. unfold Exec.SaveFile, Exec.DeleteFile, OS.WriteFile, OS.Remove.
    split.
    + destruct (fs !! Filepath.Join _ _) as [f|]; [destruct (OS.isDir f)|];
        simpl; auto; now rewrite lookup_insert_ne.
    + destruct (fs !! Filepath.Join _ _) as [f|];
        [destruct (OS.isDir f && OS.hasEntries fs _)|];
        simpl; auto; now rewrite lookup_delete_ne.
  - intros fs' H. unfold Exec.ReadFile, OS.ReadFile. now rewrite H.
  - apply hasSep_Base.
  - apply Join_ordinary.
Qed.

Lemma file_operations_use_base_name_witness :
  let path := "/home/pi/.miniclaw/workspace/passwd" in
  (Exec.workspace Sample.pi <> ""
   /\ Filepath.ordinary (Filepath.Base "../../etc/passwd") = true
   /\ Filepath.Join (Exec.workspace Sample.pi) (Filepath.Base "../../etc/passwd")
      = Filepath.childOf (Exec.workspace Sample.pi) (Filepath.Base "../../etc/passwd"))
  /\ (fst (Exec.SaveFile Sample.pi Sample.home "../../etc/passwd" "x") = Ret path
      /\ path = Filepath.Join (Exec.workspace Sample.pi)
                  (Filepath.Base "../../etc/passwd"))
  /\ ("/home/pi/evil.sh" <> path
      /\ snd (Exec.SaveFile Sample.pi Sample.home "../../etc/passwd" "x")
           !! "/home/pi/evil.sh"
         = Sample.home !! "/home/pi/evil.sh")
  /\ Exec.ReadFile Sample.pi (delete "/home/pi/evil.sh" Sample.home) "../../etc/passwd"
     = Exec.ReadFile Sample.pi Sample.home "../../etc/passwd"
  /\ (Filepath.hasSep (Filepath.Base "///") = true /\ Filepath.Base "///" = "/").
Proof.
  cbv zeta.
  pose proof (file_operations_use_base_name Sample.pi Sample.home
                "../../etc/passwd" "x") as (_ & Hpath & Hother & Hread & _ & Hchild).
  pose proof (file_operations_use_base_name Sample.pi Sample.home "///" "x")
    as (_ & _ & _ & _ & Hsep & _).
  assert (H1 : Exec.workspace Sample.pi <> "") by discriminate.
  assert (H2 : Filepath.ordinary (Filepath.Base "../../etc/passwd") = true)
    by reflexivity.
  assert (H3 : fst (Exec.SaveFile Sample.pi Sample.home "../../etc/passwd" "x")
               = Ret "/home/pi/.miniclaw/workspace/passwd")
    by (vm_compute; reflexivity).
  assert (H4 : "/home/pi/evil.sh"
               <> Filepath.Join (Exec.workspace Sample.pi)
                    (Filepath.Base "../../etc/passwd"))
    by (vm_compute; discriminate).
  assert (H5 : Filepath.hasSep (Filepath.Base "///") = true) by reflexivity.
  split; [exact (conj H1 (conj H2 (Hchild H1 H2)))|].
  split; [exact (conj H3 (Hpath _ H3))|].
  split; [split; [exact H4 | exact (proj1 (Hother _ H4))]|].
  split; [|exact (conj H5 (Hsep H5))].
  apply Hread. vm_compute. reflexivity.
Defined.

(** ** Pending commands and their confirmation *)

Section ConfirmFacts.

Import Bot.

Variable durationString : Z -> string.
Variable formatSeconds : Z -> string.
Variable bash : string -> Exec.Execution.
Variable post : list ChatMessage -> Outcome ChatMessage.

Local Abbreviation handleChat :=
  (Bot.handleChat durationString formatSeconds bash post).
Local Abbreviation handleConfirm :=
  (Bot.handleConfirm durationString formatSeconds bash post).
Local Abbreviation Chat := (Bot.Chat post).

Lemma ranOf_app l1 l2 : ranOf (l1 ++ l2) = (ranOf l1 ++ ranOf l2)%list.
Proof. unfold ranOf. apply omap_app. Qed.

(** An accept that finds a pending command: the entry is deleted, then the
    command is run, once; what follows in the trace runs nothing. *)
Lemma handleConfirm_pending b msg cmd :
  pendingCmds b !! FromID msg = Some cmd ->
  pendingCmds (handleConfirm b msg) = delete (FromID msg) (pendingCmds b)
  /\ autoExecute (handleConfirm b msg) = autoExecute b
  /\ exists rest,
       trace (handleConfirm b msg)
       = (trace b ++ [Deleted (FromID msg);
                      Sent (ChatID msg) "⚡ Executing...";
                      Ran cmd] ++ rest)%list
       /\ ranOf rest = []
       /\ (forall m,
             Exec.Run durationString (executor b) (bash cmd) = Fail m ->
             rest = [Sent (ChatID msg) ("❌ Error: " ++ m)]).
Proof.
  intros H. unfold Bot.handleConfirm. rewrite H. unfold run. simpl.
  destruct (Exec.Run durationString (executor b) (bash cmd)) as [r|m|]; simpl.
  - split; [reflexivity|]. split; [reflexivity|].
    eexists [_]. rewrite <- !app_assoc. simpl.
    split; [reflexivity|]. split; [reflexivity|]. discriminate.
  - split; [reflexivity|]. split; [reflexivity|].
    eexists [_]. rewrite <- !app_assoc. simpl.
    split; [reflexivity|]. split; [reflexivity|].
    intros m' Hm. injection Hm as <-. reflexivity.
  - split; [reflexivity|]. split; [reflexivity|].
    eexists [_]. rewrite <- !app_assoc. simpl.
    split; [reflexivity|]. split; [reflexivity|]. discriminate.
Qed.

(** An accept that finds nothing answers so and does nothing else. *)
Lemma handleConfirm_idle b msg :
  pendingCmds b !! FromID msg = None ->
  handleConfirm b msg = reply msg "Nothing pending to execute." b.
Proof. intros H. unfold Bot.handleConfirm. now rewrite H. Qed.

(** A turn in safe mode whose answer holds a command stores the joined
    commands under the operator's id. *)
Lemma handleChat_suggestion b msg text response o :
  autoExecute b = false ->
  Chat (ollama b) text = (Ret response, o) ->
  Extract.ExtractBashCommands response <> [] ->
  let combined := GoStr.Join (Extract.ExtractBashCommands response) GoStr.nl in
  pendingCmds (handleChat b msg text) = <[FromID msg := combined]> (pendingCmds b)
  /\ ollama (handleChat b msg text) = o
  /\ autoExecute (handleChat b msg text) = false
  /\ ranOf (trace (handleChat b msg text)) = ranOf (trace b).
Proof.
  intros Hsafe HC Hne. unfold Bot.handleChat. simpl. rewrite HC. simpl.
  destruct (Extract.ExtractBashCommands response) as [|c cs] eqn:E;
    [congruence|].
  rewrite Hsafe. simpl. repeat split; auto.
  rewrite !ranOf_app. simpl. now rewrite !app_nil_r.
Qed.

(** Handlers that do not overlap: an accept that finds a pending command
    deletes the entry, and only then runs the command, once; the entry is
    gone whatever [Run] returns, an error for a process that could not be
    started included; an accept handled after it finds nothing pending, says
    so and runs nothing. *)
Lemma accepts_in_turn (b : Bot) (msg : Message) (cmd : string) :
  pendingCmds b !! FromID msg = Some cmd ->
  let b1 := handleConfirm b msg in
  let b2 := handleConfirm b1 msg in
  (exists rest,
     trace b1 = (trace b ++ [Deleted (FromID msg);
                             Sent (ChatID msg) "⚡ Executing...";
                             Ran cmd] ++ rest)%list
     /\ ranOf rest = []
     /\ (forall m,
           Exec.Run durationString (executor b) (bash cmd) = Fail m ->
           rest = [Sent (ChatID msg) ("❌ Error: " ++ m)]))
  /\ pendingCmds b1 = delete (FromID msg) (pendingCmds b)
  /\ pendingCmds b1 !! FromID msg = None
  /\ trace b2 = (trace b1 ++ [Sent (ChatID msg) "Nothing pending to execute."])%list
  /\ pendingCmds b2 = pendingCmds b1.
Proof.
  intros H. cbv zeta.
  destruct (handleConfirm_pending b msg cmd H) as (Hp & _ & Ht).
  assert (Hnone : pendingCmds (handleConfirm b msg) !! FromID msg = None)
    by (rewrite Hp; apply lookup_delete_eq).
  split; [exact Ht|]. split; [exact Hp|]. split; [exact Hnone|].
  rewrite (handleConfirm_idle _ _ Hnone). split; reflexivity.
Qed.

(** C7: the pending commands are a map from operator id to one command.  In
    safe mode a suggestion stores its command under the operator's id, so
    that after two suggestions for one operator the map is what the second
    alone would have made of it: the first command is in no entry.  An
    accept then runs the second command and nothing else, and leaves nothing
    pending; one more accept runs nothing. *)
Theorem second_suggestion_overwrites
    (b : Bot) (m1 m2 : Message) (t1 t2 r1 r2 : string) (o1 o2 : OllamaClient) :
  autoExecute b = false ->
  FromID m1 = FromID m2 ->
  Chat (ollama b) t1 = (Ret r1, o1) ->
  Extract.ExtractBashCommands r1 <> [] ->
  Chat o1 t2 = (Ret r2, o2) ->
  Extract.ExtractBashCommands r2 <> [] ->
  let c1 := GoStr.Join (Extract.ExtractBashCommands r1) GoStr.nl in
  let c2 := GoStr.Join (Extract.ExtractBashCommands r2) GoStr.nl in
  let b1 := handleChat b m1 t1 in
  let b2 := handleChat b1 m2 t2 in
  let b3 := handleConfirm b2 m2 in
  pendingCmds b1 !! FromID m1 = Some c1
  /\ pendingCmds b2 = <[FromID m2 := c2]> (pendingCmds b)
  /\ pendingCmds b2 !! FromID m2 = Some c2
  /\ ranOf (trace b3) = (ranOf (trace b) ++ [c2])%list
  /\ pendingCmds b3 !! FromID m2 = None
  /\ ranOf (trace (handleConfirm b3 m2)) = (ranOf (trace b) ++ [c2])%list.
Proof.
  intros Hsafe Hid HC1 Hne1 HC2 Hne2. cbv zeta.
  destruct (handleChat_suggestion b m1 t1 r1 o1 Hsafe HC1 Hne1)
    as (Hp1 & Ho1 & Hs1 & Hr1).
  rewrite <- Ho1 in HC2.
  destruct (handleChat_suggestion _ m2 t2 r2 o2 Hs1 HC2 Hne2)
    as (Hp2 & Ho2 & Hs2 & Hr2).
  assert (Hlook : pendingCmds (handleChat (handleChat b m1 t1) m2 t2) !! FromID m2
                  = Some (GoStr.Join (Extract.ExtractBashCommands r2) GoStr.nl))
    by (rewrite Hp2; apply lookup_insert_eq).
  destruct (handleConfirm_pending _ m2 _ Hlook) as (Hp3 & _ & rest & Ht3 & Hrest & _).
  assert (Hnone : pendingCmds (handleConfirm (handleChat (handleChat b m1 t1) m2 t2) m2)
                    !! FromID m2 = None)
    by (rewrite Hp3; apply lookup_delete_eq).
  assert (Hran : ranOf (trace (handleConfirm (handleChat (handleChat b m1 t1) m2 t2) m2))
                 = (ranOf (trace b)
                    ++ [GoStr.Join (Extract.ExtractBashCommands r2) GoStr.nl])%list).
  { rewrite Ht3, !ranOf_app, Hr2, Hr1, Hrest. reflexivity. }
  split; [rewrite Hp1; apply lookup_insert_eq|].
  split; [rewrite Hp2, Hp1, <- Hid; apply insert_insert_eq|].
  split; [exact Hlook|]. split; [exact Hran|]. split; [exact Hnone|].
  rewrite (handleConfirm_idle _ _ Hnone). unfold reply, sendMessage, emit. simpl.
  rewrite ranOf_app, Hran. simpl. apply app_nil_r.
Qed.

End ConfirmFacts.

(** ** Handlers that overlap *)

Section RaceFacts.

Import Bot.

Variable durationString : Z -> string.
Variable formatSeconds : Z -> string.
Variable bash : string -> Exec.Execution.
Variable post : list ChatMessage -> Outcome ChatMessage.

Local Abbreviation handleConfirm :=
  (Bot.handleConfirm durationString formatSeconds bash post).
Local Abbreviation interleave :=
  (Race.interleave durationString formatSeconds bash post).

Lemma interleave_cons m1 m2 t schedule p :
  interleave m1 m2 (t :: schedule) p
  = interleave m1 m2 schedule
      (Race.turn durationString formatSeconds bash post m1 m2 p t).
Proof. reflexivity. Qed.

Lemma interleave_nil m1 m2 p : interleave m1 m2 [] p = p.
Proof. reflexivity. Qed.

Lemma interleave_app m1 m2 s1 s2 p :
  interleave m1 m2 (s1 ++ s2) p = interleave m1 m2 s2 (interleave m1 m2 s1 p).
Proof. apply fold_left_app. Qed.

(** The goroutine whose turn it is executes its next statement. *)
Ltac turn_step :=
  rewrite interleave_cons;
  cbv beta iota zeta delta
    [Race.turn Race.dead Race.step Race.first Race.second Race.shared].

(** The call of [Run] in the statement at hand, for an executor that is
    the one of [b]. *)
Ltac run_step b cmd ER :=
  cbv beta iota zeta delta [run];
  match goal with
  | |- context [Exec.Run ?d ?e ?x] =>
      change (Exec.Run d e x)
        with (Exec.Run durationString (executor b) (bash cmd))
  end;
  rewrite ER; cbv beta iota.

(** The statements of [handleConfirm], executed by one goroutine while the
    other stands still, make the handler. *)
Lemma alone_first b m1 m2 :
  (forall cmd, pendingCmds b !! FromID m1 = Some cmd ->
     Exec.Run durationString (executor b) (bash cmd) <> Panic) ->
  interleave m1 m2 (repeat Race.First 6) (Race.start b)
  = {| Race.shared := handleConfirm b m1; Race.first := Race.Finished;
       Race.second := Race.AtLookup |}.
Proof.
  intros Hrun. unfold Bot.handleConfirm, Race.start. cbv [repeat].
  destruct (pendingCmds b !! FromID m1) as [cmd|] eqn:E.
  - specialize (Hrun cmd eq_refl).
    destruct (Exec.Run durationString (executor b) (bash cmd)) as [r|m|] eqn:ER;
      [| |congruence].
    + turn_step. rewrite E. do 3 turn_step. run_step b cmd ER.
      do 2 turn_step. rewrite interleave_nil. reflexivity.
    + turn_step. rewrite E. do 3 turn_step. run_step b cmd ER.
      do 2 turn_step. rewrite interleave_nil. reflexivity.
  - turn_step. rewrite E. do 5 turn_step. rewrite interleave_nil. reflexivity.
Qed.

Lemma alone_second b m1 m2 :
  (forall cmd, pendingCmds b !! FromID m2 = Some cmd ->
     Exec.Run durationString (executor b) (bash cmd) <> Panic) ->
  interleave m1 m2 (repeat Race.Second 6)
    {| Race.shared := b; Race.first := Race.Finished;
       Race.second := Race.AtLookup |}
  = {| Race.shared := handleConfirm b m2; Race.first := Race.Finished;
       Race.second := Race.Finished |}.
Proof.
  intros Hrun. unfold Bot.handleConfirm. cbv [repeat].
  destruct (pendingCmds b !! FromID m2) as [cmd|] eqn:E.
  - specialize (Hrun cmd eq_refl).
    destruct (Exec.Run durationString (executor b) (bash cmd)) as [r|m|] eqn:ER;
      [| |congruence].
    + turn_step. rewrite E. do 3 turn_step. run_step b cmd ER.
      do 2 turn_step. rewrite interleave_nil. reflexivity.
    + turn_step. rewrite E. do 3 turn_step. run_step b cmd ER.
      do 2 turn_step. rewrite interleave_nil. reflexivity.
  - turn_step. rewrite E. do 5 turn_step. rewrite interleave_nil. reflexivity.
Qed.

(** C10, where two accepts of one operator are handled at the same time.
    Handled one after the other, the two handlers run the pending command
    once.  But when both goroutines have looked the command up before either
    has deleted it, both find it and both run it: one suggestion is executed
    twice. *)
Theorem overlapping_accepts_run_twice (b : Bot) (m1 m2 : Message) (cmd : string) :
  FromID m1 = FromID m2 ->
  pendingCmds b !! FromID m1 = Some cmd ->
  Exec.Run durationString (executor b) (bash cmd) <> Panic ->
  let seq := interleave m1 m2 Race.oneAfterTheOther (Race.start b) in
  let par := interleave m1 m2 Race.overlapping (Race.start b) in
  (Race.shared seq = handleConfirm (handleConfirm b m1) m2
   /\ Race.first seq = Race.Finished /\ Race.second seq = Race.Finished
   /\ ranOf (trace (Race.shared seq)) = (ranOf (trace b) ++ [cmd])%list)
  /\ (Race.first par = Race.Finished /\ Race.second par = Race.Finished
      /\ ranOf (trace (Race.shared par)) = (ranOf (trace b) ++ [cmd; cmd])%list
      /\ pendingCmds (Race.shared par) !! FromID m1 = None).
Proof.
  intros Hid H Hrun. cbv zeta. split.
  - unfold Race.oneAfterTheOther. rewrite interleave_app.
    rewrite alone_first by (intros c Hc; congruence).
    destruct (handleConfirm_pending durationString formatSeconds bash post
                b m1 cmd H) as (Hp & _ & rest & Ht & Hrest & _).
    assert (Hnone : pendingCmds (handleConfirm b m1) !! FromID m2 = None)
      by (rewrite Hp, <- Hid; apply lookup_delete_eq).
    rewrite alone_second by (intros c Hc; congruence).
    cbv [Race.shared Race.first Race.second].
    split; [reflexivity|]. split; [reflexivity|]. split; [reflexivity|].
    rewrite (handleConfirm_idle durationString formatSeconds bash post _ _ Hnone).
    unfold reply, sendMessage, emit. simpl.
    rewrite ranOf_app, Ht, !ranOf_app, Hrest. simpl.
    now rewrite !app_nil_r.
  - unfold Race.overlapping, Race.start. cbv [repeat app].
    destruct (Exec.Run durationString (executor b) (bash cmd)) as [r|m|] eqn:ER;
      [| |congruence].
    + turn_step. rewrite H.
      turn_step. rewrite <- Hid, H.
      do 3 turn_step. run_step b cmd ER.
      do 2 turn_step.
      do 3 turn_step. run_step b cmd ER.
      do 2 turn_step. rewrite interleave_nil.
      cbv [Race.shared Race.first Race.second].
      split; [reflexivity|]. split; [reflexivity|]. split.
      * simpl. rewrite !ranOf_app. simpl. rewrite ?app_nil_r, <- ?app_assoc.
        reflexivity.
      * simpl. rewrite <- ?Hid. apply lookup_delete_eq.
    + turn_step. rewrite H.
      turn_step. rewrite <- Hid, H.
      do 3 turn_step. run_step b cmd ER.
      do 2 turn_step.
      do 3 turn_step. run_step b cmd ER.
      do 2 turn_step. rewrite interleave_nil.
      cbv [Race.shared Race.first Race.second].
      split; [reflexivity|]. split; [reflexivity|]. split.
      * simpl. rewrite !ranOf_app. simpl. rewrite ?app_nil_r, <- ?app_assoc.
        reflexivity.
      * simpl. rewrite <- ?Hid. apply lookup_delete_eq.
Qed.

End RaceFacts.

Lemma overlapping_accepts_run_twice_witness :
  let par :=
    Race.interleave Sample.minute Sample.tenths Sample.quietHost
      Sample.echoModel Sample.operator Sample.operator Race.overlapping
      (Race.start Sample.waitingBot) in
  Bot.pendingCmds Sample.waitingBot !! Bot.FromID Sample.operator = Some "uptime"
  /\ Bot.ranOf (Bot.trace (Race.shared par))
     = (Bot.ranOf (Bot.trace Sample.waitingBot) ++ ["uptime"; "uptime"])%list.
Proof.
  cbv zeta.
  assert (H : Bot.pendingCmds Sample.waitingBot !! Bot.FromID Sample.operator
              = Some "uptime") by reflexivity.
  assert (Hrun : Exec.Run Sample.minute (Bot.executor Sample.waitingBot)
                   (Sample.quietHost "uptime") <> Panic)
    by (vm_compute; discriminate).
  split; [exact H|].
  exact (proj1 (proj2 (proj2 (proj2
           (overlapping_accepts_run_twice Sample.minute Sample.tenths
              Sample.quietHost Sample.echoModel Sample.waitingBot
              Sample.operator Sample.operator "uptime" eq_refl H Hrun))))).
Defined.

Lemma second_suggestion_overwrites_witness :
  let fence s := "```bash" ++ GoStr.nl ++ s ++ GoStr.nl ++ "```" in
  let chat := Bot.handleChat Sample.minute Sample.tenths
                Sample.quietHost Sample.echoModel in
  Bot.Chat Sample.echoModel (Bot.ollama Sample.idleBot) "df -h"
    = (Ret (fence "df -h"),
       snd (Bot.Chat Sample.echoModel (Bot.ollama Sample.idleBot) "df -h"))
  /\ Bot.pendingCmds
       (chat (chat Sample.idleBot Sample.operator "df -h") Sample.operator "uptime")
     = <[42%Z := "uptime"]> (Bot.pendingCmds Sample.idleBot).
Proof.
  cbv zeta.
  set (o1 := snd (Bot.Chat Sample.echoModel (Bot.ollama Sample.idleBot) "df -h")).
  set (o2 := snd (Bot.Chat Sample.echoModel o1 "uptime")).
  assert (H1 : Bot.Chat Sample.echoModel (Bot.ollama Sample.idleBot) "df -h"
               = (Ret ("```bash" ++ GoStr.nl ++ "df -h" ++ GoStr.nl ++ "```"), o1))
    by reflexivity.
  assert (H2 : Bot.Chat Sample.echoModel o1 "uptime"
               = (Ret ("```bash" ++ GoStr.nl ++ "uptime" ++ GoStr.nl ++ "```"), o2))
    by reflexivity.
  split; [exact H1|].
  refine (proj1 (proj2
           (second_suggestion_overwrites Sample.minute Sample.tenths Sample.quietHost Sample.echoModel
              Sample.idleBot Sample.operator Sample.operator
              "df -h" "uptime" _ _ o1 o2 eq_refl eq_refl H1 _ H2 _)));
    vm_compute; discriminate.
Defined.

(** ** The scheduler *)

Section SchedFacts.

Import Sched.

Variable validSpec : string -> bool.

Local Abbreviation Add := (Sched.Add validSpec).
Local Abbreviation loadJob := (Sched.loadJob validSpec).
Local Abbreviation NewScheduler := (Sched.NewScheduler validSpec).
Local Abbreviation tableOK := (Sched.tableOK validSpec).

Lemma AddFunc_valid c spec id :
  validSpec spec = true ->
  AddFunc validSpec c spec id
  = Some ((nextID c + 1)%Z,
          {| nextID := (nextID c + 1)%Z;
             entries := <[(nextID c + 1)%Z := id]> (entries c) |}).
Proof. intros H. unfold AddFunc. now rewrite H. Qed.

Lemma AddFunc_invalid c spec id :
  validSpec spec = false -> AddFunc validSpec c spec id = None.
Proof. intros H. unfold AddFunc. now rewrite H. Qed.

Lemma Add_duplicate s now id spec command label j :
  jobs s !! id = Some j ->
  Add s now id spec command label = (Some (AlreadyExists id), s).
Proof. intros H. unfold Sched.Add. now rewrite H. Qed.

Lemma Add_invalid s now id spec command label :
  jobs s !! id = None -> validSpec spec = false ->
  Add s now id spec command label = (Some (InvalidSpec spec), s).
Proof.
  intros H Hv. unfold Sched.Add. now rewrite H, AddFunc_invalid.
Qed.

Lemma Add_fresh s now id spec command label :
  jobs s !! id = None -> validSpec spec = true ->
  let entry := (nextID (cron s) + 1)%Z in
  let job := {| ID := id; Spec := spec; Command := command; Label := label;
                Created := now; LastRun := 0; EntryID := entry |} in
  Add s now id spec command label
  = (None,
     {| cron := {| nextID := entry; entries := <[entry := id]> (entries (cron s)) |};
        jobs := <[id := job]> (jobs s);
        disk := Some (toDoc <$> <[id := job]> (jobs s)) |}).
Proof.
  intros H Hv. unfold Sched.Add. rewrite H, AddFunc_valid by assumption.
  reflexivity.
Qed.

Lemma Remove_absent s id :
  jobs s !! id = None -> Remove s id = (Some (NotFound id), s).
Proof. intros H. unfold Remove. now rewrite H. Qed.

Lemma Remove_present s id j :
  jobs s !! id = Some j ->
  Remove s id
  = (None,
     {| cron := cronRemove (cron s) (EntryID j);
        jobs := delete id (jobs s);
        disk := Some (toDoc <$> delete id (jobs s)) |}).
Proof. intros H. unfold Remove. now rewrite H. Qed.

(** C8: [Add] answers the duplicate-id error for an id that is present and
    the invalid-spec error for a new id with a spec that does not parse, and
    in both cases returns the scheduler as it was (the job table, the
    original job with it, the timers and the file); a spec that does not
    parse never gets a job in.  [Remove] answers not-found for an absent id
    and leaves the scheduler as it was, else it deletes the entry.  So, with
    "@daily" a spec the parser accepts and no job "backup" yet: adding it
    succeeds, adding "backup" again fails as a duplicate, removing it
    succeeds, removing it again fails as not found. *)
Theorem Add_Remove_errors
    (s : Scheduler) (now : Z) (id spec command label : string) :
  (forall j, jobs s !! id = Some j ->
     Add s now id spec command label = (Some (AlreadyExists id), s))
  /\ (jobs s !! id = None -> validSpec spec = false ->
      Add s now id spec command label = (Some (InvalidSpec spec), s))
  /\ (validSpec spec = false ->
      exists err, Add s now id spec command label = (Some err, s))
  /\ (jobs s !! id = None ->
      Remove s id = (Some (NotFound id), s))
  /\ (forall j, jobs s !! id = Some j ->
      fst (Remove s id) = None
      /\ jobs (snd (Remove s id)) = delete id (jobs s))
  /\ (validSpec "@daily" = true -> jobs s !! "backup" = None ->
      let r1 := Add s now "backup" "@daily" "echo hi" "Daily Backup" in
      let r2 := Add (snd r1) now id spec command label in
      let r3 := Remove (snd r1) "backup" in
      let r4 := Remove (snd r3) "backup" in
      fst r1 = None
      /\ (id = "backup" ->
          fst r2 = Some (AlreadyExists "backup") /\ snd r2 = snd r1)
      /\ fst r3 = None
      /\ jobs (snd r3) = jobs s
      /\ fst r4 = Some (NotFound "backup")).
Proof.
  split; [|split; [|split; [|split; [|split]]]].
  - intros j. apply Add_duplicate.
  - apply Add_invalid.
  - intros Hv. destruct (jobs s !! id) as [j|] eqn:E.
    + eexists. now apply Add_duplicate with j.
    + eexists. now apply Add_invalid.
  - apply Remove_absent.
  - intros j H. now rewrite (Remove_present _ _ _ H).
  - intros Hv Hfresh. cbv zeta.
    rewrite (Add_fresh s now "backup" "@daily" "echo hi" "Daily Backup" Hfresh Hv).
    cbv zeta. simpl fst. simpl snd.
    split; [reflexivity|]. split.
    { intros ->. erewrite Add_duplicate; [split; reflexivity|].
      simpl. apply lookup_insert_eq. }
    erewrite Remove_present by (simpl; apply lookup_insert_eq).
    simpl fst. simpl snd. split; [reflexivity|]. split.
    { simpl. rewrite delete_insert_eq. now apply delete_id. }
    rewrite Remove_absent; [reflexivity|].
    simpl. apply lookup_delete_eq.
Qed.

(** *** The table invariant *)

Lemma loadJob_ok s d : tableOK s -> tableOK (loadJob s d).
Proof.
  intros Hs. unfold Sched.loadJob, AddFunc.
  destruct (validSpec (d_spec d)) eqn:Hv; [|exact Hs].
  intros k j. simpl. rewrite lookup_insert.
  case_decide as Hk; [|apply Hs].
  intros H. injection H as <-. simpl. auto.
Qed.

Lemma fold_loadJob_ok items s :
  tableOK s -> tableOK (fold_left loadJob items s).
Proof.
  revert s. induction items as [|d items IH]; intros s Hs; simpl; [exact Hs|].
  apply IH, loadJob_ok, Hs.
Qed.

Lemma Reachable_ok s : Reachable validSpec s -> tableOK s.
Proof.
  induction 1 as [file order _ | s now id spec command label _ IH
                 | s id _ IH | s id entry now _ IH].
  - unfold Sched.NewScheduler, load. simpl.
    assert (H0 : tableOK {| cron := {| nextID := 0; entries := ∅ |};
                            jobs := ∅; disk := file |})
      by (intros k j; simpl; rewrite lookup_empty; discriminate).
    destruct file; [apply fold_loadJob_ok, H0 | exact H0].
  - unfold Sched.Add. destruct (jobs s !! id) eqn:E; [exact IH|].
    unfold AddFunc. destruct (validSpec spec) eqn:Hv; [|exact IH].
    intros k j. simpl. rewrite lookup_insert.
    case_decide as Hk; [|apply IH].
    intros H. injection H as <-. simpl. auto.
  - unfold Remove. destruct (jobs s !! id) eqn:E; [|exact IH].
    intros k j. simpl. rewrite lookup_delete.
    case_decide; [discriminate | apply IH].
  - unfold recordRun. destruct (jobs s !! id) as [job|] eqn:E; [|exact IH].
    destruct (EntryID job =? entry)%Z; [|exact IH].
    intros k j. simpl. rewrite lookup_insert.
    case_decide as Hk; [|apply IH].
    intros H. injection H as <-. subst k. simpl. exact (IH _ _ E).
Qed.

(** *** Writing the table and loading it again *)

Lemma find_none_all {A} (f : A -> bool) (l : list A) :
  (forall x, x ∈ l -> f x = false) -> find f l = None.
Proof.
  induction l as [|a l IH]; intros H; simpl; [reflexivity|].
  rewrite (H a) by left. apply IH. intros x Hx. apply H. now right.
Qed.

Lemma find_unique {A B} (key : A -> B) (f : A -> bool) (l : list A) (x : A) :
  NoDup (key <$> l) ->
  (forall y, f y = true <-> key y = key x) ->
  x ∈ l -> find f l = Some x.
Proof.
  intros Hnd Hf. induction l as [|a l IH]; intros Hx; [inversion Hx|].
  simpl. inversion Hnd as [|? ? Hnotin Hnd']; subst.
  apply elem_of_cons in Hx as [<-|Hx].
  - now rewrite (proj2 (Hf x) eq_refl).
  - destruct (f a) eqn:Ea; [|now apply IH].
    exfalso. apply Hnotin. apply Hf in Ea. rewrite Ea.
    now apply list_elem_of_fmap_2.
Qed.

(** The table after the loop of [load]: under an id the first job of the
    range with that id, when there is one. *)
Lemma fold_loadJob_lookup items s id :
  (forall d, d ∈ items -> validSpec (d_spec d) = true) ->
  NoDup (d_id <$> items) ->
  persisted <$> (jobs (fold_left loadJob items s) !! id)
  = match find (fun d => String.eqb (d_id d) id) items with
    | Some d => Some (persisted (ofDoc d))
    | None => persisted <$> (jobs s !! id)
    end.
Proof.
  revert s. induction items as [|d items IH]; intros s Hv Hnd; [reflexivity|].
  inversion Hnd as [|? ? Hnotin Hnd']; subst. simpl.
  rewrite IH by (auto; intros d' Hd'; apply Hv; now right).
  unfold Sched.loadJob at 1. rewrite AddFunc_valid by (apply Hv; left). simpl.
  destruct (String.eqb_spec (d_id d) id) as [Heq|Hne].
  - rewrite find_none_all.
    + rewrite Heq, lookup_insert_eq. reflexivity.
    + intros x Hx. apply String.eqb_neq. intros Hx'. apply Hnotin.
      rewrite Heq, <- Hx'. now apply list_elem_of_fmap_2.
  - rewrite lookup_insert_ne by assumption. reflexivity.
Qed.

(** The jobs the file of a well-keyed table holds, in any order. *)
Lemma range_of_table s order :
  tableOK s ->
  rangeOrder (toDoc <$> jobs s) order ->
  NoDup (d_id <$> order)
  /\ (forall d, d ∈ order <-> exists j, jobs s !! d_id d = Some j /\ d = toDoc j).
Proof.
  intros Hs Hr. unfold rangeOrder in Hr.
  assert (Hel : forall d, d ∈ order
                  <-> exists j, jobs s !! d_id d = Some j /\ d = toDoc j).
  { intros d. rewrite Hr, list_elem_of_fmap. split.
    - intros [[k d'] [-> Hin]]. apply elem_of_map_to_list in Hin.
      rewrite lookup_fmap in Hin. simpl.
      destruct (jobs s !! k) as [j|] eqn:E; [|discriminate].
      injection Hin as <-. destruct (Hs _ _ E) as [Hid _].
      exists j. simpl. rewrite Hid. auto.
    - intros (j & Hj & ->). exists (d_id (toDoc j), toDoc j). split; [reflexivity|].
      apply elem_of_map_to_list. rewrite lookup_fmap, Hj. reflexivity. }
  split; [|exact Hel].
  rewrite Hr, <- list_fmap_compose.
  rewrite (list_fmap_ext _ fst).
  - apply NoDup_fst_map_to_list.
  - intros i [k d] Hi. simpl.
    assert (Hin : (k, d) ∈ map_to_list (toDoc <$> jobs s))
      by (apply list_elem_of_lookup; eauto).
    apply elem_of_map_to_list in Hin. rewrite lookup_fmap in Hin.
    destruct (jobs s !! k) as [j|] eqn:E; [|discriminate].
    injection Hin as <-. simpl. apply (Hs _ _ E).
Qed.

(** C9: for a scheduler the program can hold, let [persist] write the
    table and let a new scheduler load what the file then holds, its loop
    ranging over the jobs of that file in whatever order: the new table
    holds a job under an id exactly when the old table did, with the same
    id, spec, command, label and last run (and creation time). *)
Theorem persist_load_round_trip (s : Scheduler) (order : list JobDoc) :
  Reachable validSpec s ->
  (forall file, disk (persist s) = Some file -> rangeOrder file order) ->
  forall id,
    persisted <$> (jobs (NewScheduler (disk (persist s)) order) !! id)
    = persisted <$> (jobs s !! id).
Proof.
  intros Hreach Hfile id. pose proof (Reachable_ok s Hreach) as Hs.
  assert (Hr : rangeOrder (toDoc <$> jobs s) order) by (apply Hfile; reflexivity).
  destruct (range_of_table s order Hs Hr) as [Hnd Hel].
  unfold Sched.NewScheduler, load. simpl.
  rewrite fold_loadJob_lookup; [|intros d Hd|exact Hnd].
  - simpl. rewrite lookup_empty. simpl.
    destruct (jobs s !! id) as [j|] eqn:E.
    + destruct (Hs _ _ E) as [Hid _].
      rewrite (find_unique d_id _ order (toDoc j)); [| exact Hnd | |].
      * destruct j; reflexivity.
      * intros y. simpl. rewrite Hid. apply String.eqb_eq.
      * apply Hel. exists j. simpl. rewrite Hid. auto.
    + rewrite find_none_all; [reflexivity|].
      intros d Hd. apply String.eqb_neq. intros Heq.
      apply Hel in Hd as (j & Hj & _). congruence.
  - apply Hel in Hd as (j & Hj & ->). simpl. exact (proj2 (Hs _ _ Hj)).
Qed.

End SchedFacts.

Lemma Add_Remove_errors_witness :
  let s1 := snd (Sched.Add Sched.descriptor Sample.emptyScheduler 5
                   "backup" "@daily" "echo hi" "Daily Backup") in
  (Sched.descriptor "@daily" = true
   /\ Sched.jobs Sample.emptyScheduler !! "backup" = None
   /\ fst (Sched.Add Sched.descriptor Sample.emptyScheduler 5
             "backup" "@daily" "echo hi" "Daily Backup") = None)
  /\ Sched.Add Sched.descriptor s1 6 "backup" "@hourly" "date" "Clock"
     = (Some (Sched.AlreadyExists "backup"), s1)
  /\ (Sched.descriptor "every day" = false
      /\ Sched.Add Sched.descriptor s1 6 "report" "every day" "date" "Clock"
         = (Some (Sched.InvalidSpec "every day"), s1))
  /\ Sched.Remove s1 "report" = (Some (Sched.NotFound "report"), s1)
  /\ fst (Sched.Remove s1 "backup") = None.
Proof.
  cbv zeta.
  set (s1 := snd (Sched.Add Sched.descriptor Sample.emptyScheduler 5
                    "backup" "@daily" "echo hi" "Daily Backup")).
  assert (H1 : Sched.descriptor "@daily" = true) by reflexivity.
  assert (H2 : Sched.jobs Sample.emptyScheduler !! "backup" = None) by reflexivity.
  assert (H3 : Sched.jobs s1 !! "backup"
               = Some {| Sched.ID := "backup"; Sched.Spec := "@daily";
                         Sched.Command := "echo hi"; Sched.Label := "Daily Backup";
                         Sched.Created := 5; Sched.LastRun := 0;
                         Sched.EntryID := 1 |})
    by (vm_compute; reflexivity).
  assert (H4 : Sched.jobs s1 !! "report" = None) by (vm_compute; reflexivity).
  assert (H5 : Sched.descriptor "every day" = false) by reflexivity.
  split.
  { split; [exact H1|]. split; [exact H2|].
    exact (proj1 (proj2 (proj2 (proj2 (proj2 (proj2
             (Add_Remove_errors Sched.descriptor Sample.emptyScheduler 5
                "backup" "@hourly" "date" "Clock"))))) H1 H2)). }
  split.
  { exact (proj1 (Add_Remove_errors Sched.descriptor s1 6
                    "backup" "@hourly" "date" "Clock") _ H3). }
  split.
  { split; [exact H5|].
    exact (proj1 (proj2 (Add_Remove_errors Sched.descriptor s1 6
                           "report" "every day" "date" "Clock")) H4 H5). }
  split.
  { exact (proj1 (proj2 (proj2 (proj2
             (Add_Remove_errors Sched.descriptor s1 6
                "report" "@hourly" "date" "Clock")))) H4). }
  exact (proj1 (proj1 (proj2 (proj2 (proj2 (proj2
           (Add_Remove_errors Sched.descriptor s1 6
              "backup" "@hourly" "date" "Clock")))))
           _ H3)).
Defined.

Lemma persist_load_round_trip_witness :
  let written := Sched.disk (Sched.persist Sample.backupScheduler) in
  let order := Sched.fileOrder written in
  Sched.Reachable Sched.descriptor Sample.backupScheduler
  /\ (forall file, written = Some file -> Sched.rangeOrder file order)
  /\ Sched.persisted
       <$> (Sched.jobs (Sched.NewScheduler Sched.descriptor written order)
            !! "backup")
     = Sched.persisted <$> (Sched.jobs Sample.backupScheduler !! "backup").
Proof.
  cbv zeta.
  assert (H1 : Sched.Reachable Sched.descriptor Sample.backupScheduler).
  { apply Sched.reach_run, Sched.reach_add, Sched.reach_new. discriminate. }
  assert (H2 : forall file,
             Sched.disk (Sched.persist Sample.backupScheduler) = Some file ->
             Sched.rangeOrder file
               (Sched.fileOrder (Sched.disk (Sched.persist Sample.backupScheduler)))).
  { intros file Hfile. rewrite Hfile. unfold Sched.rangeOrder. reflexivity. }
  split; [exact H1|]. split; [exact H2|].
  exact (persist_load_round_trip Sched.descriptor Sample.backupScheduler _ H1 H2 "backup").
Defined.

(** The same on the sample: the table holds the job "backup", last run at
    99; what a new scheduler reads from the file [persist] wrote is this
    job, and from the file as it was before the run, the job without a last
    run. *)
Example backup_after_restart :
  let written := Sched.disk (Sched.persist Sample.backupScheduler) in
  let before :=
    Sched.disk
      (snd (Sched.Add Sched.descriptor Sample.emptyScheduler 5
              "backup" "@daily" "echo hi" "Daily Backup")) in
  Sched.persisted
    <$> (Sched.jobs
           (Sched.NewScheduler Sched.descriptor written (Sched.fileOrder written))
         !! "backup")
  = Some ("backup", "@daily", "echo hi", "Daily Backup", 99%Z, 5%Z)
  /\ Sched.persisted
       <$> (Sched.jobs
              (Sched.NewScheduler Sched.descriptor before (Sched.fileOrder before))
            !! "backup")
     = Some ("backup", "@daily", "echo hi", "Daily Backup", 0%Z, 5%Z).
Proof. split; vm_compute; reflexivity. Qed.

(** * Further properties *)

(** ** Run: the cap *)

Lemma length_append a b :
  String.length (a ++ b) = (String.length a + String.length b)%nat.
Proof. induction a as [|c a IH]; simpl; [reflexivity | now rewrite IH]. Qed.

Lemma len_append a b : GoStr.len (a ++ b) = (GoStr.len a + GoStr.len b)%Z.
Proof. unfold GoStr.len. rewrite length_append. lia. Qed.

Lemma take_take_prefix n s t :
  (n <= String.length s)%nat ->
  GoStr.take n (GoStr.take n s ++ t) = GoStr.take n s.
Proof.
  revert s. induction n as [|n IH]; intros [|c r]; simpl; intros H; auto;
    try lia.
  rewrite IH by lia. reflexivity.
Qed.

(** X1: with a negative cap, a command that ends before the deadline never
    yields a result: unless the process could not be run, [Run] panics on
    the slice of the first stream, whatever the command printed.  Only a
    timeout still returns. *)
Theorem Run_negative_cap_panics
    (durationString : Z -> string) (e : Exec.Executor) (x : Exec.Execution) :
  (Exec.maxOutputBytes e < 0)%Z ->
  (Exec.deadlineExceeded x = false ->
   (forall msg, Exec.runErr x <> Some (Exec.OtherError msg)) ->
   Exec.Run durationString e x = Panic)
  /\ (Exec.deadlineExceeded x = true ->
      exists r, Exec.Run durationString e x = Ret r).
Proof.
  intros Hneg. split.
  - intros Hd Hrun. rewrite Run_completed by assumption.
    assert (Hcap : Exec.capStream (Exec.maxOutputBytes e) (Exec.stdoutBuf x) = Panic).
    { unfold Exec.capStream.
      destruct (Z.gtb_spec (GoStr.len (Exec.stdoutBuf x)) (Exec.maxOutputBytes e)).
      - destruct (Z.ltb_spec (Exec.maxOutputBytes e) 0); [reflexivity | lia].
      - unfold GoStr.len in *. lia. }
    rewrite Hcap. destruct (Exec.runErr x) as [[ps|msg]|]; try reflexivity.
    exfalso. now apply (Hrun msg).
  - intros Hd. rewrite Run_timed_out by assumption. eauto.
Qed.

Lemma Run_negative_cap_panics_witness :
  (Exec.maxOutputBytes Demo.capNegative < 0)%Z
  /\ Exec.Run Sample.minute Demo.capNegative Sample.exitSeven = Panic
  /\ exists r, Exec.Run Sample.minute Demo.capNegative Sample.floodThenHang = Ret r.
Proof.
  assert (H : (Exec.maxOutputBytes Demo.capNegative < 0)%Z) by (simpl; lia).
  split; [exact H|]. split.
  - apply (proj1 (Run_negative_cap_panics Sample.minute Demo.capNegative
                    Sample.exitSeven H)); [reflexivity | discriminate].
  - exact (proj2 (Run_negative_cap_panics Sample.minute Demo.capNegative
                    Sample.floodThenHang H) eq_refl).
Defined.

(** X2: for a command that ends before the deadline, under a cap that is
    not negative, neither stream of the result is longer than the cap plus
    the sixteen bytes of the marker, and each begins with the first bytes of
    what was captured, up to the cap. *)
Theorem Run_completed_output_bound
    (durationString : Z -> string) (e : Exec.Executor) (x : Exec.Execution)
    (r : Exec.ExecResult) :
  (0 <= Exec.maxOutputBytes e)%Z ->
  Exec.deadlineExceeded x = false ->
  Exec.Run durationString e x = Ret r ->
  let cap := Z.to_nat (Exec.maxOutputBytes e) in
  (GoStr.len (Exec.Stdout r) <= Exec.maxOutputBytes e + 16)%Z
  /\ (GoStr.len (Exec.Stderr r) <= Exec.maxOutputBytes e + 16)%Z
  /\ GoStr.take cap (Exec.Stdout r) = GoStr.take cap (Exec.stdoutBuf x)
  /\ GoStr.take cap (Exec.Stderr r) = GoStr.take cap (Exec.stderrBuf x).
Proof.
  intros Hmax Hd HR. cbv zeta.
  destruct (Run_completed_caps_output durationString e x r Hmax Hd HR)
    as (Hout & Herr & _). cbv beta in Hout, Herr.
  assert (Hm : GoStr.len Exec.truncationMarker = 16%Z) by reflexivity.
  assert (Hcut : forall s out,
    (if (GoStr.len s >? Exec.maxOutputBytes e)%Z
     then out = GoStr.take (Z.to_nat (Exec.maxOutputBytes e)) s ++ Exec.truncationMarker
          /\ GoStr.len (GoStr.take (Z.to_nat (Exec.maxOutputBytes e)) s)
             = Exec.maxOutputBytes e
     else out = s) ->
    (GoStr.len out <= Exec.maxOutputBytes e + 16)%Z
    /\ GoStr.take (Z.to_nat (Exec.maxOutputBytes e)) out
       = GoStr.take (Z.to_nat (Exec.maxOutputBytes e)) s).
  { intros s out H.
    destruct (Z.gtb_spec (GoStr.len s) (Exec.maxOutputBytes e)) as [Hgt|Hle].
    - destruct H as [-> Hlen]. rewrite len_append, Hm, Hlen.
      split; [lia|]. apply take_take_prefix. unfold GoStr.len in Hgt. lia.
    - subst out. split; [lia | reflexivity]. }
  destruct (Hcut _ _ Hout) as [H1 H2]. destruct (Hcut _ _ Herr) as [H3 H4].
  auto.
Qed.

Lemma Run_completed_output_bound_witness :
  (0 <= Exec.maxOutputBytes Sample.capFour)%Z
  /\ exists r,
       Exec.Run Sample.minute Sample.capFour Demo.noisyFailure = Ret r
       /\ (GoStr.len (Exec.Stdout r) <= 4 + 16)%Z
       /\ GoStr.take 4 (Exec.Stderr r) = "ABCD".
Proof.
  assert (H : (0 <= Exec.maxOutputBytes Sample.capFour)%Z) by (simpl; lia).
  split; [exact H|].
  eexists. split; [reflexivity|].
  pose proof (Run_completed_output_bound Sample.minute Sample.capFour
                Demo.noisyFailure _ H eq_refl eq_refl) as (H1 & _ & _ & H4).
  split; [exact H1 | exact H4].
Defined.

(** ** RunScript *)

Lemma exec_bits_set m :
  Z.land m 73 = 0%Z -> Z.land (Z.lor m 493) 73 = 73%Z.
Proof.
  intros H. rewrite Z.land_lor_distr_l, H. reflexivity.
Qed.

Lemma Chmod_lookup fs path m q :
  OS.Chmod fs path m !! q
  = if decide (path = q)
    then (fun f => {| OS.data := OS.data f; OS.mode := m; OS.isDir := OS.isDir f |})
           <$> fs !! q
    else fs !! q.
Proof.
  unfold OS.Chmod. case_decide as Hq.
  - subst q. destruct (fs !! path) as [f|] eqn:E.
    + now rewrite lookup_insert_eq.
    + now rewrite E.
  - destruct (fs !! path) as [f|]; [now rewrite lookup_insert_ne|reflexivity].
Qed.

(** X3: [RunScript] fails with "script not found" exactly when nothing
    lies at the joined path, and then changes nothing and runs nothing.
    Else it hands [Run] a command line, and all it has changed in the file
    system is the mode of the script, which now has an executable bit: the
    content of the script and every other entry are as before, and a script
    that had an executable bit keeps its mode. *)
Theorem RunScript_finds_and_prepares
    (durationString : Z -> string) (bash : string -> Exec.Execution)
    (e : Exec.Executor) (fs : OS.FS) (filename : string) (args : list string) :
  let path := Filepath.Join (Exec.workspace e) filename in
  let after := snd (Exec.RunScript durationString bash e fs filename args) in
  (fs !! path = None ->
   Exec.RunScript durationString bash e fs filename args
   = (Fail ("script not found: " ++ filename), fs))
  /\ (forall info, fs !! path = Some info ->
      (exists cmdStr,
         fst (Exec.RunScript durationString bash e fs filename args)
         = Exec.Run durationString e (bash cmdStr))
      /\ (exists info',
            after !! path = Some info'
            /\ Z.land (OS.mode info') 73 <> 0%Z
            /\ OS.data info' = OS.data info
            /\ OS.isDir info' = OS.isDir info
            /\ (Z.land (OS.mode info) 73 <> 0%Z -> info' = info))
      /\ (forall q, q <> path -> after !! q = fs !! q)).
Proof.
  cbv zeta. unfold Exec.RunScript, Exec.scriptCommand, OS.Stat. split.
  - intros H. rewrite H. reflexivity.
  - intros info H. rewrite H.
    destruct (Z.eqb_spec (Z.land (OS.mode info) 73) 0) as [Hz|Hnz]; simpl.
    + split; [eauto|]. split.
      * rewrite Chmod_lookup, decide_True, H by reflexivity. simpl.
        eexists. split; [reflexivity|]. simpl.
        rewrite (exec_bits_set _ Hz). repeat split; first [lia | congruence].
      * intros q Hq. rewrite Chmod_lookup, decide_False by congruence.
        reflexivity.
    + split; [eauto|]. split; [|reflexivity].
      exists info. repeat split; auto.
Qed.

Lemma RunScript_finds_and_prepares_witness :
  let path := "/home/pi/.miniclaw/workspace/deploy.sh" in
  let after := snd (Exec.RunScript Sample.minute Sample.quietHost Sample.pi
                      Demo.workspaceFS "deploy.sh" ["--fast"]) in
  Demo.workspaceFS !! Filepath.Join (Exec.workspace Sample.pi) "missing.sh" = None
  /\ Exec.RunScript Sample.minute Sample.quietHost Sample.pi Demo.workspaceFS
       "missing.sh" []
     = (Fail "script not found: missing.sh", Demo.workspaceFS)
  /\ (exists info', after !! path = Some info'
                    /\ Z.land (OS.mode info') 73 <> 0%Z)
  /\ after !! "/home/pi/.miniclaw/workspace/notes.txt"
     = Demo.workspaceFS !! "/home/pi/.miniclaw/workspace/notes.txt".
Proof.
  cbv zeta.
  assert (H0 : Demo.workspaceFS
                 !! Filepath.Join (Exec.workspace Sample.pi) "missing.sh" = None)
    by (vm_compute; reflexivity).
  assert (H1 : Demo.workspaceFS
                 !! Filepath.Join (Exec.workspace Sample.pi) "deploy.sh"
               = Some {| OS.data := "#!/bin/sh" ++ GoStr.nl ++ "echo deployed";
                         OS.mode := 420; OS.isDir := false |})
    by (vm_compute; reflexivity).
  split; [exact H0|]. split.
  - exact (proj1 (RunScript_finds_and_prepares Sample.minute Sample.quietHost
                    Sample.pi Demo.workspaceFS "missing.sh" []) H0).
  - destruct (proj2 (RunScript_finds_and_prepares Sample.minute Sample.quietHost
                       Sample.pi Demo.workspaceFS "deploy.sh" ["--fast"]) _ H1)
      as (_ & (info' & Hl & Hx & _) & Hq).
    split.
    + exists info'. split; [exact Hl | exact Hx].
    + apply Hq. vm_compute. discriminate.
Defined.

Lemma firstLine_shebang s :
  GoStr.TrimPrefix (Exec.firstLine ("#!" ++ s)) "#!" = Exec.firstLine s.
Proof. reflexivity. Qed.

(** X4: a script that is longer than two bytes and begins with "#!" is run
    by what follows on its first line, whatever its name.  Every other
    script (one that cannot be read, is at most two bytes long or begins
    otherwise) is run by one of the five interpreters of the extension
    table. *)
Theorem detectInterpreter_shebang_or_table
    (fs : OS.FS) (path filename : string) :
  (exists f c rest,
     fs !! path = Some f /\ OS.isDir f = false
     /\ OS.data f = "#!" ++ String c rest
     /\ Exec.detectInterpreter fs path filename = Exec.firstLine (String c rest))
  \/ ((forall f c rest, fs !! path = Some f -> OS.isDir f = false ->
         OS.data f <> "#!" ++ String c rest)
      /\ Exec.detectInterpreter fs path filename
           ∈ ["python3"; "bash"; "node"; "ruby"; "perl"]).
Proof.
  assert (Htab : forall ext,
    Exec.interpreterOfExt ext ∈ ["python3"; "bash"; "node"; "ruby"; "perl"]).
  { intros ext. unfold Exec.interpreterOfExt.
    repeat match goal with
           | |- context [if ?b then _ else _] => destruct b
           end; set_solver. }
  unfold Exec.detectInterpreter, OS.ReadFile.
  destruct (fs !! path) as [f|] eqn:E.
  2:{ right. split; [discriminate | apply Htab]. }
  destruct (OS.isDir f) eqn:Ed.
  { right. split; [|apply Htab]. intros f' c rest H. injection H as <-. congruence. }
  destruct (OS.data f) as [|a [|b [|c rest]]] eqn:Edata;
    try (right; split; [|apply Htab];
         intros f' c' rest' H _; injection H as <-; rewrite Edata; discriminate).
  assert (Htake : String.eqb (GoStr.take 2 (String a (String b (String c rest)))) "#!"
                  = Ascii.eqb a "#" && Ascii.eqb b "!").
  { simpl. destruct (Ascii.eqb a "#"), (Ascii.eqb b "!"); reflexivity. }
  rewrite Htake.
  destruct (Ascii.eqb_spec a "#") as [->|Ha];
    [destruct (Ascii.eqb_spec b "!") as [->|Hb]|].
  - left. exists f, c, rest. repeat split; auto.
    assert (Hlen : (GoStr.len (String "#" (String "!" (String c rest))) >? 2)%Z = true).
    { apply Z.gtb_lt. unfold GoStr.len. simpl String.length. lia. }
    rewrite Hlen. reflexivity.
  - right. rewrite andb_false_r. split; [|apply Htab].
    intros f' c' rest' H _. injection H as <-. rewrite Edata.
    intros H. injection H as ->. congruence.
  - right. rewrite andb_false_r. split; [|apply Htab].
    intros f' c' rest' H _. injection H as <-. rewrite Edata.
    intros H. injection H as ->. congruence.
Qed.

Lemma Join_cons (x y : string) (l : list string) (sep : string) :
  GoStr.Join (x :: y :: l) sep = x ++ sep ++ GoStr.Join (y :: l) sep.
Proof. reflexivity. Qed.

Lemma append_cons c (x y : string) : String c x ++ y = String c (x ++ y).
Proof. reflexivity. Qed.

Lemma append_assoc (x y z : string) : (x ++ y) ++ z = x ++ y ++ z.
Proof.
  induction x as [|c x IH]; [reflexivity|].
  now rewrite !append_cons, IH.
Qed.

Lemma Join_space_unquoted (l1 l2 : list string) (a b : string) :
  GoStr.Join (l1 ++ (a ++ " " ++ b) :: l2) " " = GoStr.Join (l1 ++ a :: b :: l2) " ".
Proof.
  induction l1 as [|h l1 IH].
  - cbn [app]. rewrite (Join_cons a b).
    destruct l2 as [|c l2].
    + cbn [GoStr.Join]. reflexivity.
    + rewrite !Join_cons, !append_assoc. reflexivity.
  - cbn [app].
    destruct l1 as [|h' l1]; cbn [app] in *; rewrite !(Join_cons h);
      now rewrite IH.
Qed.

(** X5: the arguments of a script reach the command line joined by spaces
    and not quoted: an argument that holds a space gives the command line
    its two halves would give as two arguments. *)
Theorem RunScript_arguments_not_quoted
    (durationString : Z -> string) (bash : string -> Exec.Execution)
    (e : Exec.Executor) (fs : OS.FS) (filename : string)
    (before after : list string) (a b : string) :
  Exec.RunScript durationString bash e fs filename
    (before ++ (a ++ " " ++ b) :: after)
  = Exec.RunScript durationString bash e fs filename
      (before ++ a :: b :: after).
Proof.
  unfold Exec.RunScript, Exec.scriptCommand.
  destruct (OS.Stat fs _) as [info| |]; try reflexivity.
  rewrite Join_space_unquoted.
  destruct before; reflexivity.
Qed.

(** ** The files of the workspace *)

Lemma len_take_le n s : (GoStr.len (GoStr.take n s) <= Z.of_nat n)%Z.
Proof. unfold GoStr.len. rewrite length_take. lia. Qed.

(** X6: what [ReadFile] returns is never longer than 4000 bytes plus the
    sixteen bytes of the marker; a file of at most 4000 bytes is returned
    as it is, and an absent entry or a directory gives an error that begins
    with "reading file: ". *)
Theorem ReadFile_bounded (e : Exec.Executor) (fs : OS.FS) (filename : string) :
  let path := Filepath.Join (Exec.workspace e) (Filepath.Base filename) in
  (forall out, Exec.ReadFile e fs filename = Ret out ->
     (GoStr.len out <= 4016)%Z
     /\ exists f, fs !! path = Some f /\ OS.isDir f = false
                  /\ ((GoStr.len (OS.data f) <= 4000)%Z -> out = OS.data f))
  /\ ((fs !! path = None \/ exists f, fs !! path = Some f /\ OS.isDir f = true) ->
      exists m, Exec.ReadFile e fs filename = Fail ("reading file: " ++ m)).
Proof.
  cbv zeta. unfold Exec.ReadFile, OS.ReadFile.
  remember 4000%nat as n eqn:Hn.
  assert (Hz : Z.of_nat n = 4000%Z) by (subst n; reflexivity).
  clear Hn. split.
  - intros out. destruct (fs !! _) as [f|]; [|discriminate].
    destruct (OS.isDir f) eqn:Ed; [discriminate|].
    destruct (Z.gtb_spec (GoStr.len (OS.data f)) 4000) as [Hgt|Hle];
      intros H; injection H as <-.
    + split.
      * rewrite len_append. pose proof (len_take_le n (OS.data f)).
        change (GoStr.len Exec.truncationMarker) with 16%Z. lia.
      * exists f. repeat split; auto. intros. lia.
    + split; [lia|]. exists f. repeat split; auto.
  - intros [H|(f & H & Hd)]; rewrite H; [|rewrite Hd]; eauto.
Qed.

Lemma ReadFile_bounded_witness :
  Exec.ReadFile Sample.pi Demo.workspaceFS "../notes.txt" = Ret "remember the milk"
  /\ (GoStr.len "remember the milk" <= 4016)%Z
  /\ exists m, Exec.ReadFile Sample.pi Demo.workspaceFS "nothing.txt"
               = Fail ("reading file: " ++ m).
Proof.
  assert (H : Exec.ReadFile Sample.pi Demo.workspaceFS "../notes.txt"
              = Ret "remember the milk") by (vm_compute; reflexivity).
  split; [exact H|]. split.
  - exact (proj1 (proj1 (ReadFile_bounded Sample.pi Demo.workspaceFS "../notes.txt")
                    _ H)).
  - apply (proj2 (ReadFile_bounded Sample.pi Demo.workspaceFS "nothing.txt")).
    left. vm_compute. reflexivity.
Defined.

(** X7: what [SaveFile] has saved is what [ReadFile] answers, up to the cut
    at 4000 bytes, under every filename with the same base name: the
    directory part of either name plays no role. *)
Theorem SaveFile_then_ReadFile
    (e : Exec.Executor) (fs : OS.FS) (filename other content path : string) :
  fst (Exec.SaveFile e fs filename content) = Ret path ->
  Filepath.Base other = Filepath.Base filename ->
  Exec.ReadFile e (snd (Exec.SaveFile e fs filename content)) other
  = Ret (if (GoStr.len content >? 4000)%Z
         then GoStr.take 4000 content ++ Exec.truncationMarker
         else content).
Proof.
  unfold Exec.SaveFile, Exec.ReadFile, OS.WriteFile, OS.ReadFile.
  intros H Hb. rewrite Hb.
  destruct (fs !! _) as [f|] eqn:E; [destruct (OS.isDir f) eqn:Ed|];
    simpl in *; try discriminate;
    rewrite lookup_insert_eq; simpl;
    destruct (GoStr.len content >? 4000)%Z; reflexivity.
Qed.

Lemma SaveFile_then_ReadFile_witness :
  fst (Exec.SaveFile Sample.pi Demo.workspaceFS "../../etc/motd" "hello")
    = Ret "/home/pi/.miniclaw/workspace/motd"
  /\ Filepath.Base "motd" = Filepath.Base "../../etc/motd"
  /\ Exec.ReadFile Sample.pi
       (snd (Exec.SaveFile Sample.pi Demo.workspaceFS "../../etc/motd" "hello"))
       "motd"
     = Ret "hello".
Proof.
  assert (H1 : fst (Exec.SaveFile Sample.pi Demo.workspaceFS "../../etc/motd" "hello")
               = Ret "/home/pi/.miniclaw/workspace/motd")
    by (vm_compute; reflexivity).
  assert (H2 : Filepath.Base "motd" = Filepath.Base "../../etc/motd") by reflexivity.
  split; [exact H1|]. split; [exact H2|].
  exact (SaveFile_then_ReadFile Sample.pi Demo.workspaceFS
           "../../etc/motd" "motd" "hello" _ H1 H2).
Defined.

(** X8: saving under a name twice leaves the file system as saving the
    second content alone does: the later upload replaces the earlier one,
    and a file that was there before keeps its mode. *)
Theorem SaveFile_twice (e : Exec.Executor) (fs : OS.FS)
    (filename first second : string) :
  Exec.SaveFile e (snd (Exec.SaveFile e fs filename first)) filename second
  = Exec.SaveFile e fs filename second.
Proof.
  unfold Exec.SaveFile, OS.WriteFile.
  destruct (fs !! _) as [f|] eqn:E; [destruct (OS.isDir f) eqn:Ed|]; simpl.
  - rewrite E, Ed. reflexivity.
  - rewrite lookup_insert_eq. simpl. now rewrite insert_insert_eq.
  - rewrite lookup_insert_eq. simpl. now rewrite insert_insert_eq.
Qed.

(** X9: [DeleteFile] on a name under which nothing lies fails and changes
    nothing.  After a [DeleteFile] that succeeded, nothing lies under the
    name: [ReadFile] fails for every filename with the same base name,
    one more [DeleteFile] fails, and if the entry had been made by a
    [SaveFile] on a free name, the file system is what it was before
    both. *)
Theorem DeleteFile_removes (e : Exec.Executor) (fs : OS.FS) (filename : string) :
  let path := Filepath.Join (Exec.workspace e) (Filepath.Base filename) in
  (fs !! path = None ->
   isFail (fst (Exec.DeleteFile e fs filename)) = true
   /\ snd (Exec.DeleteFile e fs filename) = fs)
  /\ (fst (Exec.DeleteFile e fs filename) = Ret tt ->
      let after := snd (Exec.DeleteFile e fs filename) in
      after = delete path fs
      /\ (forall other, Filepath.Base other = Filepath.Base filename ->
            isFail (Exec.ReadFile e after other) = true)
      /\ isFail (fst (Exec.DeleteFile e after filename)) = true)
  /\ (forall content,
        fs !! path = None ->
        Exec.DeleteFile e (snd (Exec.SaveFile e fs filename content)) filename
        = (Ret tt, fs)).
Proof.
  cbv zeta. unfold Exec.DeleteFile, Exec.ReadFile, Exec.SaveFile,
    OS.Remove, OS.ReadFile, OS.WriteFile.
  split; [|split].
  - intros H. rewrite H. auto.
  - destruct (fs !! _) as [f|] eqn:E; [|discriminate].
    destruct (OS.isDir f && OS.hasEntries fs _); [discriminate|]. simpl.
    intros _. split; [reflexivity|]. split.
    + intros other Hb. now rewrite Hb, lookup_delete_eq.
    + now rewrite lookup_delete_eq.
  - intros content H. rewrite H. simpl. rewrite lookup_insert_eq. simpl.
    now rewrite delete_insert_eq, delete_id.
Qed.

Lemma DeleteFile_removes_witness :
  Demo.workspaceFS
    !! Filepath.Join (Exec.workspace Sample.pi) (Filepath.Base "gone.txt") = None
  /\ snd (Exec.DeleteFile Sample.pi Demo.workspaceFS "gone.txt") = Demo.workspaceFS
  /\ fst (Exec.DeleteFile Sample.pi Demo.workspaceFS "notes.txt") = Ret tt
  /\ isFail (Exec.ReadFile Sample.pi
               (snd (Exec.DeleteFile Sample.pi Demo.workspaceFS "notes.txt"))
               "/tmp/notes.txt") = true
  /\ Exec.DeleteFile Sample.pi
       (snd (Exec.SaveFile Sample.pi Demo.workspaceFS "gone.txt" "x")) "gone.txt"
     = (Ret tt, Demo.workspaceFS).
Proof.
  pose proof (DeleteFile_removes Sample.pi Demo.workspaceFS "gone.txt")
    as (Habsent & _ & Hundo).
  pose proof (DeleteFile_removes Sample.pi Demo.workspaceFS "notes.txt")
    as (_ & Hdone & _).
  assert (H0 : Demo.workspaceFS
                 !! Filepath.Join (Exec.workspace Sample.pi) (Filepath.Base "gone.txt")
               = None) by (vm_compute; reflexivity).
  assert (H1 : fst (Exec.DeleteFile Sample.pi Demo.workspaceFS "notes.txt") = Ret tt)
    by (vm_compute; reflexivity).
  split; [exact H0|]. split; [exact (proj2 (Habsent H0))|].
  split; [exact H1|]. split.
  - exact (proj1 (proj2 (Hdone H1)) "/tmp/notes.txt" eq_refl).
  - exact (Hundo "x" H0).
Defined.

(** ** The extractor: what it does find *)

Lemma dropPrefix_Some p l rest :
  Extract.dropPrefix p l = Some rest -> l = (p ++ rest)%list.
Proof.
  revert l. induction p as [|a p IH]; intros [|b l]; simpl; intros H;
    try discriminate; try (injection H as <-; reflexivity).
  destruct (Ascii.eqb_spec a b) as [->|]; [|discriminate].
  now rewrite (IH _ H).
Qed.

Lemma dropPrefix_app p rest : Extract.dropPrefix p (p ++ rest) = Some rest.
Proof.
  induction p as [|a p IH]; simpl; [now destruct rest|].
  now rewrite Ascii.eqb_refl.
Qed.

Lemma dropRune_Some runes l rest :
  Extract.dropRune runes l = Some rest ->
  exists p, p ∈ runes /\ l = (p ++ rest)%list.
Proof.
  induction runes as [|r runes IH]; simpl; [discriminate|].
  destruct (Extract.dropPrefix r l) as [rest'|] eqn:E.
  - intros H. injection H as <-. exists r. split; [left|].
    now apply dropPrefix_Some.
  - intros H. destruct (IH H) as (p & Hp & ->). exists p. split; [now right|].
    reflexivity.
Qed.

Lemma dropRune_None runes p rest :
  p ∈ runes -> Extract.dropRune runes (p ++ rest) <> None.
Proof.
  induction runes as [|r runes IH]; intros Hp; [inversion Hp|]. simpl.
  destruct (Extract.dropPrefix r (p ++ rest)) eqn:E; [discriminate|].
  apply elem_of_cons in Hp as [->|Hp]; [|now apply IH].
  now rewrite dropPrefix_app in E.
Qed.

(** With steps enough for its length, [trimLeading] stops at a list that
    begins with none of the runes, and that is an end piece of the input. *)
Lemma trimLeading_done runes fuel l :
  Forall (fun p => p <> []) runes ->
  (length l <= fuel)%nat ->
  Extract.dropRune runes (Extract.trimLeading fuel runes l) = None
  /\ exists pre, l = (pre ++ Extract.trimLeading fuel runes l)%list.
Proof.
  intros Hne. revert l. induction fuel as [|fuel IH]; intros l Hlen.
  - destruct l; [|simpl in Hlen; lia]. simpl. split.
    + destruct (Extract.dropRune runes []) as [rest|] eqn:E; [|reflexivity].
      destruct (dropRune_Some _ _ _ E) as (p & Hp & Heq).
      rewrite Forall_forall in Hne. specialize (Hne p Hp).
      destruct p; [congruence | discriminate].
    + now exists [].
  - simpl. destruct (Extract.dropRune runes l) as [rest|] eqn:E.
    + destruct (dropRune_Some _ _ _ E) as (p & Hp & ->).
      rewrite Forall_forall in Hne. pose proof (Hne p Hp) as Hp0.
      destruct (IH rest) as [Hd [pre Hpre]].
      { rewrite length_app in Hlen. destruct p; [congruence|]. simpl in Hlen. lia. }
      split; [exact Hd|]. exists (p ++ pre)%list.
      rewrite <- app_assoc. now rewrite <- Hpre.
    + split; [exact E|]. now exists [].
Qed.

Lemma spaceRunes_nonempty : Forall (fun p => p <> []) Extract.spaceRunes.
Proof. unfold Extract.spaceRunes. simpl. repeat constructor; discriminate. Qed.

Lemma revRunes_nonempty :
  Forall (fun p => p <> []) (map (@rev ascii) Extract.spaceRunes).
Proof. unfold Extract.spaceRunes. simpl. repeat constructor; discriminate. Qed.

Lemma asciiSpace_cases c :
  Text.asciiSpace c = true ->
  c ∈ map Extract.byte [9; 10; 11; 12; 13; 32].
Proof.
  unfold Text.asciiSpace. rewrite existsb_exists.
  intros (x & Hin & Heq). apply Ascii.eqb_eq in Heq. subst x.
  now apply list_elem_of_In.
Qed.

Lemma no_rune_no_space runes c r :
  (runes = Extract.spaceRunes \/ runes = map (@rev ascii) Extract.spaceRunes) ->
  Extract.dropRune runes (c :: r) = None -> Text.asciiSpace c = false.
Proof.
  intros Hr Hnone. destruct (Text.asciiSpace c) eqn:E; [|reflexivity].
  exfalso. apply asciiSpace_cases in E.
  apply (dropRune_None runes [c] r); [|exact Hnone].
  simpl in E. destruct Hr as [-> | ->]; unfold Extract.spaceRunes; simpl;
    repeat (apply elem_of_cons in E as [-> | E]; [set_solver|]);
    inversion E.
Qed.

Lemma list_of_string_app a b :
  list_ascii_of_string (a ++ b)
  = (list_ascii_of_string a ++ list_ascii_of_string b)%list.
Proof.
  induction a as [|c a IH]; [reflexivity|].
  rewrite append_cons. simpl. now rewrite IH.
Qed.

(** What [TrimSpace] answers begins and ends with no rune of white space,
    and is a piece of its input. *)
Lemma TrimSpace_spec s :
  let t := list_ascii_of_string (Extract.TrimSpace s) in
  Extract.dropRune Extract.spaceRunes t = None
  /\ Extract.dropRune (map (@rev ascii) Extract.spaceRunes) (rev t) = None
  /\ exists pre post, list_ascii_of_string s = (pre ++ t ++ post)%list.
Proof.
  cbv zeta. unfold Extract.TrimSpace.
  rewrite list_ascii_of_string_of_list_ascii.
  set (l := list_ascii_of_string s).
  destruct (trimLeading_done Extract.spaceRunes (length l) l
              spaceRunes_nonempty (le_n _)) as [H1 [pre Hpre]].
  set (l1 := Extract.trimLeading (length l) Extract.spaceRunes l) in *.
  destruct (trimLeading_done (map (@rev ascii) Extract.spaceRunes)
              (length l1) (rev l1) revRunes_nonempty) as [H2 [post Hpost]].
  { rewrite length_rev. lia. }
  set (l2 := Extract.trimLeading (length l1)
               (map (@rev ascii) Extract.spaceRunes) (rev l1)) in *.
  assert (Hl1 : l1 = (rev l2 ++ rev post)%list).
  { rewrite <- rev_app_distr, <- Hpost. now rewrite rev_involutive. }
  split; [|split].
  - destruct (Extract.dropRune Extract.spaceRunes (rev l2)) as [rest|] eqn:E;
      [|reflexivity].
    destruct (dropRune_Some _ _ _ E) as (p & Hp & Heq).
    exfalso. apply (dropRune_None Extract.spaceRunes p (rest ++ rev post) Hp).
    rewrite app_assoc, <- Heq, <- Hl1. exact H1.
  - now rewrite rev_involutive.
  - exists pre, (rev post). now rewrite <- Hl1.
Qed.

(** X10: every command [ExtractBashCommands] returns is trimmed: it is not
    empty, and neither its first nor its last byte is ASCII white space. *)
Theorem extracted_commands_trimmed (response cmd : string) :
  cmd ∈ Extract.ExtractBashCommands response ->
  cmd <> ""
  /\ (forall c rest, cmd = String c rest -> Text.asciiSpace c = false)
  /\ (forall front c, cmd = front ++ String c "" -> Text.asciiSpace c = false).
Proof.
  unfold Extract.ExtractBashCommands. rewrite list_elem_of_filter.
  intros [Hne Hin]. apply list_elem_of_In, in_map_iff in Hin as (body & <- & _).
  destruct (TrimSpace_spec body) as (Hhead & Hlast & _). cbv zeta in *.
  split; [|split].
  - intros Heq. rewrite Heq in Hne. exact Hne.
  - intros c rest Heq. rewrite Heq in Hhead. simpl in Hhead.
    apply (no_rune_no_space _ _ _ (or_introl eq_refl) Hhead).
  - intros front c Heq. rewrite Heq, list_of_string_app in Hlast.
    simpl in Hlast. rewrite rev_app_distr in Hlast. simpl in Hlast.
    apply (no_rune_no_space _ _ _ (or_intror eq_refl) Hlast).
Qed.

Lemma extracted_commands_trimmed_witness :
  let response :=
    "Run this:" ++ GoStr.nl ++ "```bash" ++ GoStr.nl ++ "  df -h  "
    ++ GoStr.nl ++ "```" in
  "df -h" ∈ Extract.ExtractBashCommands response
  /\ Text.asciiSpace "d" = false.
Proof.
  cbv zeta.
  assert (H : "df -h" ∈ Extract.ExtractBashCommands
                ("Run this:" ++ GoStr.nl ++ "```bash" ++ GoStr.nl ++ "  df -h  "
                 ++ GoStr.nl ++ "```"))
    by (vm_compute; left).
  split; [exact H|].
  exact (proj1 (proj2 (extracted_commands_trimmed _ _ H)) "d"%char "f -h" eq_refl).
Defined.

Lemma findAll_skip c t :
  Extract.matchHere (String c t) = None ->
  Extract.findAll (String c t) = Extract.findAll t.
Proof.
  intros H. unfold Extract.findAll.
  change (Extract.findAllFrom (S (String.length (String c t))) (String c t))
    with (match Extract.matchHere (String c t) with
          | Some (content, rest) =>
              content :: Extract.findAllFrom (String.length (String c t)) rest
          | None => Extract.findAllFrom (String.length (String c t)) t
          end).
  rewrite H. reflexivity.
Qed.

Lemma findAll_match s content rest :
  Extract.matchHere s = Some (content, rest) ->
  Extract.findAll s = content :: Extract.findAll rest.
Proof.
  intros H. unfold Extract.findAll.
  change (Extract.findAllFrom (S (String.length s)) s)
    with (match Extract.matchHere s with
          | Some (content, rest) =>
              content :: Extract.findAllFrom (String.length s) rest
          | None => match s with
                    | EmptyString => []
                    | String _ r => Extract.findAllFrom (String.length s) r
                    end
          end).
  rewrite H. f_equal. apply matchHere_length in H.
  apply findAllFrom_enough; lia.
Qed.

Lemma matchHere_needs_fence s :
  GoStr.stripPrefix Extract.fence s = None -> Extract.matchHere s = None.
Proof. intros H. unfold Extract.matchHere. now rewrite H. Qed.

Lemma findAll_no_fence s :
  Extract.cutAtFence s = None -> Extract.findAll s = [].
Proof.
  induction s as [|c s IH]; intros H; [reflexivity|].
  rewrite cutAtFence_unfold in H.
  destruct (GoStr.stripPrefix Extract.fence (String c s)) eqn:E; [discriminate|].
  rewrite findAll_skip by now apply matchHere_needs_fence.
  apply IH. destruct (Extract.cutAtFence s) as [[b r]|]; [discriminate|reflexivity].
Qed.

(** X11: a text without a fence of three backticks holds no command. *)
Theorem no_fence_no_commands (response : string) :
  Extract.cutAtFence response = None ->
  Extract.ExtractBashCommands response = [].
Proof.
  intros H. unfold Extract.ExtractBashCommands.
  now rewrite (findAll_no_fence _ H).
Qed.

Lemma no_fence_no_commands_witness :
  Extract.cutAtFence "Use `df -h` to see the disk usage." = None
  /\ Extract.ExtractBashCommands "Use `df -h` to see the disk usage." = [].
Proof.
  assert (H : Extract.cutAtFence "Use `df -h` to see the disk usage." = None)
    by reflexivity.
  split; [exact H | exact (no_fence_no_commands _ H)].
Defined.

Lemma stripPrefix_no_tick c s :
  Ascii.eqb c "`"%char = false ->
  GoStr.stripPrefix Extract.fence (String c s) = None.
Proof.
  intros H. unfold Extract.fence.
  change (GoStr.stripPrefix "```" (String c s))
    with (if Ascii.eqb "`"%char c then GoStr.stripPrefix "``" s else None).
  rewrite Ascii.eqb_sym, H. reflexivity.
Qed.

Lemma cutAtFence_body body post :
  Text.hasTick body = false ->
  Extract.cutAtFence (body ++ "```" ++ post) = Some (body, post).
Proof.
  induction body as [|c body IH]; intros H.
  - reflexivity.
  - simpl in H. apply orb_false_iff in H as [Hc Hb].
    rewrite append_cons, cutAtFence_unfold, (stripPrefix_no_tick _ _ Hc).
    now rewrite (IH Hb).
Qed.

Lemma matchHere_block tag body post :
  tag ∈ ["bash"; "sh"; ""] ->
  Text.hasTick body = false ->
  Extract.matchHere ("```" ++ tag ++ GoStr.nl ++ body ++ "```" ++ post)
  = Some (body, post).
Proof.
  intros Htag Hb. pose proof (cutAtFence_body body post Hb) as Hcut.
  repeat (apply elem_of_cons in Htag as [-> | Htag]); [| | |inversion Htag];
    unfold Extract.matchHere, Extract.afterTag; simpl; exact Hcut.
Qed.

Lemma findAll_lead lead s :
  Text.hasTick lead = false ->
  Extract.findAll (lead ++ s) = Extract.findAll s.
Proof.
  induction lead as [|c lead IH]; intros H; [reflexivity|].
  simpl in H. apply orb_false_iff in H as [Hc Hl].
  rewrite append_cons, findAll_skip; [now apply IH|].
  apply matchHere_needs_fence, stripPrefix_no_tick, Hc.
Qed.

(** X12: a block that opens with a fence and the tag "bash", "sh" or none,
    directly followed by a line end, and closes with a fence, is found when
    neither the text before it nor its content holds a backtick: the commands
    of the whole text are the trimmed content, unless that is empty, and then
    the commands of the text after the closing fence.  So blocks that follow
    one another, with prose free of backticks around them, all come out, in
    order. *)
Theorem shell_block_extracted (lead tag body rest : string) :
  Text.hasTick lead = false ->
  Text.hasTick body = false ->
  tag ∈ ["bash"; "sh"; ""] ->
  Extract.ExtractBashCommands
    (lead ++ "```" ++ tag ++ GoStr.nl ++ body ++ "```" ++ rest)
  = match Extract.TrimSpace body with
    | EmptyString => Extract.ExtractBashCommands rest
    | cmd => cmd :: Extract.ExtractBashCommands rest
    end.
Proof.
  intros Hl Hb Htag. unfold Extract.ExtractBashCommands.
  rewrite (findAll_lead _ _ Hl), (findAll_match _ _ _ (matchHere_block _ _ _ Htag Hb)).
  simpl map. rewrite filter_cons.
  destruct (Extract.TrimSpace body) as [|c t]; [reflexivity|].
  reflexivity.
Qed.

Lemma shell_block_extracted_witness :
  let nl := GoStr.nl in
  Text.hasTick ("First the disk:" ++ nl) = false
  /\ Text.hasTick ("df -h" ++ nl) = false
  /\ Text.hasTick (nl ++ "then the load:" ++ nl) = false
  /\ Text.hasTick ("uptime" ++ nl) = false
  /\ Extract.ExtractBashCommands
       (("First the disk:" ++ nl) ++ "```" ++ "bash" ++ nl ++ ("df -h" ++ nl)
        ++ "```"
        ++ (nl ++ "then the load:" ++ nl) ++ "```" ++ "" ++ nl ++ ("uptime" ++ nl)
        ++ "```" ++ "")
     = ["df -h"; "uptime"].
Proof.
  cbv zeta.
  assert (H1 : Text.hasTick ("First the disk:" ++ GoStr.nl) = false) by reflexivity.
  assert (H2 : Text.hasTick ("df -h" ++ GoStr.nl) = false) by reflexivity.
  assert (H3 : Text.hasTick (GoStr.nl ++ "then the load:" ++ GoStr.nl) = false)
    by reflexivity.
  assert (H4 : Text.hasTick ("uptime" ++ GoStr.nl) = false) by reflexivity.
  repeat (split; [assumption|]).
  rewrite (shell_block_extracted _ "bash" _ _ H1 H2) by set_solver.
  rewrite (shell_block_extracted _ "" _ _ H3 H4) by set_solver.
  vm_compute. reflexivity.
Defined.

(** ** The handlers of suggestions *)

Section HandlerFacts.

Import Bot.

Variable durationString : Z -> string.
Variable formatSeconds : Z -> string.
Variable bash : string -> Exec.Execution.
Variable post : list ChatMessage -> Outcome ChatMessage.

Local Abbreviation handleChat :=
  (Bot.handleChat durationString formatSeconds bash post).
Local Abbreviation handleConfirm :=
  (Bot.handleConfirm durationString formatSeconds bash post).
Local Abbreviation Chat := (Bot.Chat post).

Lemma ranOf_snoc l ev :
  ranOf (l ++ [ev])
  = (ranOf l ++ match ev with Ran cmd => [cmd] | _ => [] end)%list.
Proof. rewrite ranOf_app. destruct ev; reflexivity. Qed.

(** X13: in safe mode [handleChat] runs nothing, whatever the model answers;
    in auto-execute mode it leaves the pending commands as they are, and runs
    the joined commands of the answer, once, when the answer holds any, and
    nothing else. *)
Theorem handleChat_by_mode (b : Bot) (msg : Message) (text : string) :
  (autoExecute b = false ->
   ranOf (trace (handleChat b msg text)) = ranOf (trace b))
  /\ (autoExecute b = true ->
      pendingCmds (handleChat b msg text) = pendingCmds b
      /\ ranOf (trace (handleChat b msg text))
         = (ranOf (trace b)
            ++ match fst (Chat (ollama b) text) with
               | Ret response =>
                   match Extract.ExtractBashCommands response with
                   | [] => []
                   | commands => [GoStr.Join commands GoStr.nl]
                   end
               | _ => []
               end)%list).
Proof.
  unfold Bot.handleChat. simpl.
  destruct (Chat (ollama b) text) as [[response|m|] o]; simpl.
  - destruct (Extract.ExtractBashCommands response) as [|c cs]; simpl.
    + split; intros _; rewrite ?ranOf_app; simpl; rewrite ?app_nil_r; auto.
    + split; intros ->; simpl.
      * rewrite !ranOf_app. simpl. now rewrite !app_nil_r.
      * unfold run. simpl.
        destruct (Exec.Run _ _ _); simpl;
          (split; [reflexivity|]);
          rewrite !ranOf_app; simpl; now rewrite !app_nil_r.
  - split; intros _; rewrite ?ranOf_app; simpl; rewrite ?app_nil_r; auto.
  - split; intros _; rewrite ?ranOf_app; simpl; rewrite ?app_nil_r; auto.
Qed.

(** X14: what an operator's message does to the pending commands concerns
    this operator alone: a suggestion, an accept and a reject leave the
    entry of every other operator as it was. *)
Theorem pending_of_others_untouched (b : Bot) (msg : Message) (text : string)
    (other : Z) :
  other <> FromID msg ->
  pendingCmds (handleChat b msg text) !! other = pendingCmds b !! other
  /\ pendingCmds (handleConfirm b msg) !! other = pendingCmds b !! other
  /\ pendingCmds (handleReject b msg) !! other = pendingCmds b !! other.
Proof.
  intros Hne. split; [|split].
  - unfold Bot.handleChat. simpl.
    destruct (Chat (ollama b) text) as [[response|m|] o]; simpl; try reflexivity.
    destruct (Extract.ExtractBashCommands response) as [|c cs]; simpl;
      [reflexivity|].
    destruct (autoExecute b); simpl.
    + unfold run. simpl. destruct (Exec.Run _ _ _); reflexivity.
    + now rewrite lookup_insert_ne.
  - unfold Bot.handleConfirm.
    destruct (pendingCmds b !! FromID msg) as [cmd|]; [|reflexivity].
    unfold run. simpl.
    destruct (Exec.Run _ _ _); simpl; now rewrite lookup_delete_ne.
  - unfold handleReject. simpl. now rewrite lookup_delete_ne.
Qed.

(** X15: a reject removes the operator's pending command, if there is one,
    so that an accept right after it runs nothing and answers that nothing
    is pending. *)
Theorem reject_then_accept_runs_nothing (b : Bot) (msg : Message) :
  let rejected := handleReject b msg in
  pendingCmds rejected = delete (FromID msg) (pendingCmds b)
  /\ handleConfirm rejected msg
     = reply msg "Nothing pending to execute." rejected
  /\ ranOf (trace (handleConfirm rejected msg)) = ranOf (trace b).
Proof.
  cbv zeta.
  assert (Hnone : pendingCmds (handleReject b msg) !! FromID msg = None)
    by (unfold handleReject; simpl; apply lookup_delete_eq).
  split; [reflexivity|].
  rewrite (handleConfirm_idle durationString formatSeconds bash post _ _ Hnone).
  split; [reflexivity|].
  unfold handleReject, reply, sendMessage, deletePending, emit. simpl.
  rewrite !ranOf_app. simpl. now rewrite !app_nil_r.
Qed.

Lemma recent_short (h : list ChatMessage) :
  (length h <= 12)%nat -> recent h = h.
Proof.
  intros H. unfold recent. replace (length h - 12)%nat with 0%nat by lia.
  reflexivity.
Qed.

Lemma recent_length (h : list ChatMessage) : (length (recent h) <= 12)%nat.
Proof. unfold recent. rewrite length_skipn. lia. Qed.

(** X16: a request to the model depends on the conversation only through
    its twelve latest messages: [Chat] answers as it would if the memory held
    nothing older, and no request holds more than fourteen messages'
    worth.  A successful exchange appends the user's message and the answer
    to the memory, a failed one leaves the client as it was. *)
Theorem Chat_window (o : OllamaClient) (userMessage : string) :
  fst (Chat o userMessage)
  = fst (Chat {| systemPrompt := systemPrompt o; history := recent (history o) |}
           userMessage)
  /\ (length (recent (history o)) <= 12)%nat
  /\ (exists older, history o = (older ++ recent (history o))%list)
  /\ (forall response o',
        Chat o userMessage = (Ret response, o') ->
        exists answer,
          Content answer = response
          /\ systemPrompt o' = systemPrompt o
          /\ history o'
             = (history o ++ [{| Role := "user"; Content := userMessage |}; answer])%list)
  /\ (forall m o', Chat o userMessage = (Fail m, o') -> o' = o).
Proof.
  split; [|split; [|split; [|split]]].
  - unfold Bot.Chat. simpl.
    rewrite (recent_short (recent (history o)) (recent_length _)).
    destruct (post _); reflexivity.
  - apply recent_length.
  - exists (firstn (length (history o) - 12) (history o)).
    unfold recent. now rewrite firstn_skipn.
  - intros response o'. unfold Bot.Chat.
    destruct (post _) as [answer|m|]; intros H; try discriminate.
    injection H as <- <-. exists answer. simpl. auto.
  - intros m o'. unfold Bot.Chat.
    destruct (post _) as [answer|m'|]; intros H; try discriminate.
    now injection H as _ <-.
Qed.

End HandlerFacts.

Lemma handleChat_by_mode_witness :
  let chat := Bot.handleChat Sample.minute Sample.tenths Sample.quietHost
                Sample.echoModel in
  (Bot.autoExecute Sample.idleBot = false
   /\ Bot.ranOf (Bot.trace (chat Sample.idleBot Sample.operator "df -h")) = [])
  /\ (Bot.autoExecute DemoBot.autoBot = true
      /\ Bot.pendingCmds (chat DemoBot.autoBot Sample.operator "df -h")
         = Bot.pendingCmds DemoBot.autoBot
      /\ Bot.ranOf (Bot.trace (chat DemoBot.autoBot Sample.operator "df -h"))
         = ["df -h"]).
Proof.
  cbv zeta.
  pose proof (handleChat_by_mode Sample.minute Sample.tenths Sample.quietHost
                Sample.echoModel Sample.idleBot Sample.operator "df -h")
    as [Hsafe _].
  pose proof (handleChat_by_mode Sample.minute Sample.tenths Sample.quietHost
                Sample.echoModel DemoBot.autoBot Sample.operator "df -h")
    as [_ Hauto].
  split.
  - split; [reflexivity | exact (Hsafe eq_refl)].
  - split; [reflexivity|]. destruct (Hauto eq_refl) as [Hp Hr].
    split; [exact Hp|]. rewrite Hr. vm_compute. reflexivity.
Defined.

Lemma pending_of_others_untouched_witness :
  7%Z <> Bot.FromID Sample.operator
  /\ Bot.pendingCmds
       (Bot.handleChat Sample.minute Sample.tenths Sample.quietHost
          Sample.echoModel
          {| Bot.autoExecute := false;
             Bot.executor := Bot.executor DemoBot.autoBot;
             Bot.ollama := Bot.ollama DemoBot.autoBot;
             Bot.pendingCmds := Bot.pendingCmds DemoBot.autoBot;
             Bot.trace := [] |}
          Sample.operator "df -h") !! 7%Z
     = Some "reboot".
Proof.
  assert (H : 7%Z <> Bot.FromID Sample.operator) by discriminate.
  split; [exact H|].
  rewrite (proj1 (pending_of_others_untouched Sample.minute Sample.tenths
                    Sample.quietHost Sample.echoModel _ Sample.operator
                    "df -h" 7%Z H)).
  reflexivity.
Defined.

Lemma Chat_window_witness :
  (exists response o',
     Bot.Chat Sample.echoModel (Bot.ollama Sample.idleBot) "uptime"
       = (Ret response, o')
     /\ length (Bot.history o') = 2%nat)
  /\ snd (Bot.Chat DemoBot.deadModel (Bot.ollama Sample.idleBot) "uptime")
     = Bot.ollama Sample.idleBot.
Proof.
  pose proof (Chat_window Sample.echoModel (Bot.ollama Sample.idleBot) "uptime")
    as (_ & _ & _ & Hok & _).
  pose proof (Chat_window DemoBot.deadModel (Bot.ollama Sample.idleBot) "uptime")
    as (_ & _ & _ & _ & Hfail).
  split.
  - eexists _, _. split; [reflexivity|].
    destruct (Hok _ _ eq_refl) as (answer & _ & _ & Hh).
    rewrite Hh. reflexivity.
  - exact (Hfail "calling ollama: connection refused" _ eq_refl).
Defined.

(** ** The scheduler: timers, loading, runs *)

Section TimerFacts.

Import Sched.

Variable validSpec : string -> bool.

Local Abbreviation Add := (Sched.Add validSpec).
Local Abbreviation loadJob := (Sched.loadJob validSpec).
Local Abbreviation NewScheduler := (Sched.NewScheduler validSpec).

Local Abbreviation timersOK := Timers.timersOK.

Lemma register_timers s id j :
  timersOK s ->
  EntryID j = (nextID (cron s) + 1)%Z ->
  timersOK {| cron := {| nextID := (nextID (cron s) + 1)%Z;
                         entries := <[(nextID (cron s) + 1)%Z := id]>
                                      (entries (cron s)) |};
              jobs := <[id := j]> (jobs s);
              disk := disk s |}.
Proof.
  intros (Hj & He & H0) Hentry. split; [|split]; simpl.
  - intros k j'. rewrite lookup_insert. case_decide as Hk.
    + intros H. injection H as <-. subst k. rewrite Hentry.
      apply lookup_insert_eq.
    + intros H. pose proof (Hj _ _ H) as Hl. pose proof (He _ _ Hl).
      rewrite lookup_insert_ne by lia. exact Hl.
  - intros entry id'. rewrite lookup_insert. case_decide as Hk.
    + intros _. lia.
    + intros H. pose proof (He _ _ H). lia.
  - lia.
Qed.

Lemma persist_timers s : timersOK s -> timersOK (persist s).
Proof. intros H. exact H. Qed.

Lemma loadJob_timers s d : timersOK s -> timersOK (loadJob s d).
Proof.
  intros Hs. unfold Sched.loadJob, AddFunc.
  destruct (validSpec (d_spec d)); [|exact Hs].
  now apply register_timers.
Qed.

Lemma Reachable_timers s : Reachable validSpec s -> timersOK s.
Proof.
  induction 1 as [file order _ | s now id spec command label _ IH
                 | s id _ IH | s id entry now _ IH].
  - unfold Sched.NewScheduler, load. simpl.
    assert (H0 : timersOK {| cron := {| nextID := 0; entries := ∅ |};
                             jobs := ∅; disk := file |}).
    { split; [|split]; simpl; try lia; intros ? ?; rewrite lookup_empty;
        discriminate. }
    destruct file; [|exact H0].
    generalize dependent H0.
    generalize ({| cron := {| nextID := 0; entries := ∅ |}; jobs := ∅;
                   disk := Some g |}).
    induction order as [|d order IHo]; intros s0 H0; simpl; [exact H0|].
    apply IHo, loadJob_timers, H0.
  - unfold Sched.Add. destruct (jobs s !! id) eqn:E; [exact IH|].
    unfold AddFunc. destruct (validSpec spec); [|exact IH].
    simpl. apply persist_timers. now apply register_timers.
  - unfold Remove. destruct (jobs s !! id) as [job|] eqn:E; [|exact IH].
    simpl. destruct IH as (Hj & He & H0). split; [|split]; simpl.
    + intros k j. rewrite lookup_delete. case_decide as Hk; [discriminate|].
      intros H. pose proof (Hj _ _ H) as Hl. pose proof (Hj _ _ E) as Hl'.
      rewrite lookup_delete_ne; [exact Hl|].
      intros Heq. rewrite Heq in Hl'. congruence.
    + intros entry id'. rewrite lookup_delete. case_decide; [discriminate|].
      apply He.
    + exact H0.
  - unfold recordRun. destruct (jobs s !! id) as [job|] eqn:E; [|exact IH].
    destruct (EntryID job =? entry)%Z; [|exact IH].
    simpl. destruct IH as (Hj & He & H0). split; [|split]; simpl; auto.
    intros k j. rewrite lookup_insert. case_decide as Hk; [|apply Hj].
    intros H. injection H as <-. subst k. simpl. exact (Hj _ _ E).
Qed.

(** X17: in every scheduler the program can hold, each job of the table is
    filed under its own id, carries a spec the parser accepts and has a live
    timer entry of its own: the entry's id is positive, not above the
    counter, and registered for this job, so that two jobs never share an
    entry. *)
Theorem reachable_jobs_have_timers (s : Scheduler) :
  Reachable validSpec s ->
  (forall k j, jobs s !! k = Some j ->
     ID j = k /\ validSpec (Spec j) = true
     /\ entries (cron s) !! EntryID j = Some k
     /\ (0 < EntryID j <= nextID (cron s))%Z)
  /\ (forall k1 k2 j1 j2,
        jobs s !! k1 = Some j1 -> jobs s !! k2 = Some j2 ->
        EntryID j1 = EntryID j2 -> k1 = k2).
Proof.
  intros Hr. destruct (Reachable_timers s Hr) as (Hj & He & _).
  pose proof (Reachable_ok validSpec s Hr) as Hok. split.
  - intros k j H. destruct (Hok _ _ H) as [Hid Hv].
    repeat split; auto; apply (He _ _ (Hj _ _ H)).
  - intros k1 k2 j1 j2 H1 H2 Heq.
    pose proof (Hj _ _ H1) as L1. pose proof (Hj _ _ H2) as L2.
    rewrite Heq in L1. congruence.
Qed.

(** X18: [Remove] cancels the timer of the job it removes and no other: in
    a scheduler the program can hold, the removed job's entry is not live
    afterwards, and every other job is still in the table with its own live
    entry. *)
Theorem Remove_cancels_its_timer_only (s : Scheduler) (id : string) (job : CronJob) :
  Reachable validSpec s ->
  jobs s !! id = Some job ->
  let after := snd (Remove s id) in
  entries (cron after) !! EntryID job = None
  /\ jobs after !! id = None
  /\ (forall k j, k <> id -> jobs s !! k = Some j ->
        jobs after !! k = Some j
        /\ entries (cron after) !! EntryID j = Some k).
Proof.
  intros Hr Hjob. cbv zeta.
  destruct (Reachable_timers s Hr) as (Hj & _ & _).
  rewrite (Remove_present s id job Hjob). simpl.
  split; [apply lookup_delete_eq|]. split; [apply lookup_delete_eq|].
  intros k j Hk H. split; [now rewrite lookup_delete_ne|].
  pose proof (Hj _ _ H) as L. pose proof (Hj _ _ Hjob) as L'.
  rewrite lookup_delete_ne; [exact L|].
  intros Heq. rewrite Heq in L'. congruence.
Qed.

(** The table after the loop of [load], whatever the specs: under an id the
    first job of the range with that id, if its spec parses. *)
Lemma fold_loadJob_lookup_any items s id :
  NoDup (d_id <$> items) ->
  persisted <$> (jobs (fold_left loadJob items s) !! id)
  = match find (fun d => String.eqb (d_id d) id) items with
    | Some d =>
        if validSpec (d_spec d) then Some (persisted (ofDoc d))
        else persisted <$> (jobs s !! id)
    | None => persisted <$> (jobs s !! id)
    end.
Proof.
  revert s. induction items as [|d items IH]; intros s Hnd; [reflexivity|].
  inversion Hnd as [|? ? Hnotin Hnd']; subst. simpl.
  rewrite IH by assumption.
  destruct (String.eqb_spec (d_id d) id) as [Heq|Hne].
  - rewrite find_none_all.
    + unfold Sched.loadJob, AddFunc.
      destruct (validSpec (d_spec d)); [|reflexivity].
      simpl. rewrite Heq, lookup_insert_eq. reflexivity.
    + intros x Hx. apply String.eqb_neq. intros Hx'. apply Hnotin.
      rewrite Heq, <- Hx'. now apply list_elem_of_fmap_2.
  - assert (Hsame : jobs (loadJob s d) !! id = jobs s !! id).
    { unfold Sched.loadJob, AddFunc.
      destruct (validSpec (d_spec d)); [|reflexivity].
      simpl. now rewrite lookup_insert_ne. }
    rewrite Hsame. reflexivity.
Qed.

(** X19: from a file in which every job lies under its own id, [load] takes
    the jobs whose spec the parser accepts, with the fields of the file, and
    drops the others without a word: the new table holds a job under an id
    exactly when the file does and its spec parses.  Without a file the
    table is empty. *)
Theorem load_keeps_parsable_jobs (doc : gmap string JobDoc) (order : list JobDoc) :
  (forall k d, doc !! k = Some d -> d_id d = k) ->
  rangeOrder doc order ->
  (forall id,
     persisted <$> (jobs (NewScheduler (Some doc) order) !! id)
     = match doc !! id with
       | Some d =>
           if validSpec (d_spec d) then Some (persisted (ofDoc d)) else None
       | None => None
       end)
  /\ jobs (NewScheduler None order) = ∅.
Proof.
  intros Hkey Hr. split; [|reflexivity]. intros id.
  unfold rangeOrder in Hr.
  assert (Hel : forall d, d ∈ order <-> doc !! d_id d = Some d).
  { intros d. rewrite Hr, list_elem_of_fmap. split.
    - intros [[k d'] [-> Hin]]. apply elem_of_map_to_list in Hin. simpl.
      now rewrite (Hkey _ _ Hin).
    - intros H. exists (d_id d, d). split; [reflexivity|].
      now apply elem_of_map_to_list. }
  assert (Hnd : NoDup (d_id <$> order)).
  { rewrite Hr, <- list_fmap_compose.
    rewrite (list_fmap_ext _ fst); [apply NoDup_fst_map_to_list|].
    intros i [k d] Hi. simpl.
    assert (Hin : (k, d) ∈ map_to_list doc) by (apply list_elem_of_lookup; eauto).
    apply elem_of_map_to_list in Hin. apply (Hkey _ _ Hin). }
  unfold Sched.NewScheduler, load. simpl.
  rewrite fold_loadJob_lookup_any by exact Hnd. simpl. rewrite lookup_empty. simpl.
  destruct (doc !! id) as [d|] eqn:E.
  - rewrite (find_unique d_id _ order d Hnd).
    + destruct (validSpec (d_spec d)); reflexivity.
    + intros y. simpl. rewrite (Hkey _ _ E). apply String.eqb_eq.
    + apply Hel. now rewrite (Hkey _ _ E).
  - rewrite find_none_all; [reflexivity|].
    intros d Hd. apply String.eqb_neq. intros Heq.
    apply Hel in Hd. congruence.
Qed.

End TimerFacts.

(** X20: a run of a job changes nothing in the table but the last run of
    the job itself, and that only while the job its timer holds is still the
    one in the table; the other fields of every job, the other jobs and the
    timers stay as they are, and the file is written to mirror the table. *)
Theorem runJob_records_last_run_only
    (durationString formatSeconds : Z -> string) (bash : string -> Exec.Execution)
    (e : Exec.Executor) (s after : Sched.Scheduler) (job : Sched.CronJob)
    (now : Z) (note : string) :
  Sched.runJob durationString formatSeconds bash e s job now = Some (after, note) ->
  let fixed (j : Sched.CronJob) :=
    (Sched.ID j, Sched.Spec j, Sched.Command j, Sched.Label j,
     Sched.Created j, Sched.EntryID j) in
  (forall k, fixed <$> Sched.jobs after !! k = fixed <$> Sched.jobs s !! k)
  /\ (forall k, k <> Sched.ID job -> Sched.jobs after !! k = Sched.jobs s !! k)
  /\ (forall j, Sched.jobs s !! Sched.ID job = Some j ->
        Sched.LastRun <$> Sched.jobs after !! Sched.ID job
        = Some (if (Sched.EntryID j =? Sched.EntryID job)%Z
                then now else Sched.LastRun j))
  /\ Sched.cron after = Sched.cron s
  /\ Sched.disk after = Some (Sched.toDoc <$> Sched.jobs after).
Proof.
  intros H. cbv zeta.
  assert (Hafter : after = Sched.recordRun s (Sched.ID job) (Sched.EntryID job) now).
  { unfold Sched.runJob in H. destruct (Exec.Run _ _ _); try discriminate;
      now injection H as <- _. }
  subst after. clear H. unfold Sched.recordRun.
  destruct (Sched.jobs s !! Sched.ID job) as [j|] eqn:E.
  - destruct (Sched.EntryID j =? Sched.EntryID job)%Z eqn:Eb; simpl.
    + split; [|split; [|split; [|split]]]; try reflexivity.
      * intros k. rewrite lookup_insert. case_decide as Hk; [|reflexivity].
        subst k. rewrite E. reflexivity.
      * intros k Hk. now rewrite lookup_insert_ne.
      * intros j' Hj'. injection Hj' as <-. rewrite lookup_insert_eq, Eb.
        reflexivity.
    + split; [|split; [|split; [|split]]]; try reflexivity.
      intros j' Hj'. injection Hj' as <-. rewrite E, Eb. reflexivity.
  - simpl. split; [|split; [|split; [|split]]]; try reflexivity.
    intros j' Hj'. discriminate.
Qed.

Lemma reachable_jobs_have_timers_witness :
  Sched.Reachable Sched.descriptor DemoSched.withBackup
  /\ Sched.jobs DemoSched.withBackup !! "backup" = Some DemoSched.backupJob
  /\ Sched.entries (Sched.cron DemoSched.withBackup)
       !! Sched.EntryID DemoSched.backupJob = Some "backup".
Proof.
  assert (H1 : Sched.Reachable Sched.descriptor DemoSched.withBackup).
  { apply Sched.reach_add, Sched.reach_new. discriminate. }
  assert (H2 : Sched.jobs DemoSched.withBackup !! "backup" = Some DemoSched.backupJob)
    by (vm_compute; reflexivity).
  split; [exact H1|]. split; [exact H2|].
  exact (proj1 (proj2 (proj2
           (proj1 (reachable_jobs_have_timers Sched.descriptor _ H1) _ _ H2)))).
Defined.

Lemma Remove_cancels_its_timer_only_witness :
  Sched.Reachable Sched.descriptor DemoSched.withBackup
  /\ Sched.jobs DemoSched.withBackup !! "backup" = Some DemoSched.backupJob
  /\ Sched.entries (Sched.cron (snd (Sched.Remove DemoSched.withBackup "backup")))
       !! 1%Z = None.
Proof.
  assert (H1 : Sched.Reachable Sched.descriptor DemoSched.withBackup).
  { apply Sched.reach_add, Sched.reach_new. discriminate. }
  assert (H2 : Sched.jobs DemoSched.withBackup !! "backup" = Some DemoSched.backupJob)
    by (vm_compute; reflexivity).
  split; [exact H1|]. split; [exact H2|].
  exact (proj1 (Remove_cancels_its_timer_only Sched.descriptor _ _ _ H1 H2)).
Defined.

Lemma load_keeps_parsable_jobs_witness :
  let order := snd <$> map_to_list DemoSched.mixedFile in
  (forall k d, DemoSched.mixedFile !! k = Some d -> Sched.d_id d = k)
  /\ Sched.rangeOrder DemoSched.mixedFile order
  /\ Sched.persisted
       <$> (Sched.jobs (Sched.NewScheduler Sched.descriptor
                          (Some DemoSched.mixedFile) order) !! "backup")
     = Some ("backup", "@daily", "echo hi", "Daily Backup", 99%Z, 5%Z)
  /\ Sched.persisted
       <$> (Sched.jobs (Sched.NewScheduler Sched.descriptor
                          (Some DemoSched.mixedFile) order) !! "old")
     = None.
Proof.
  cbv zeta.
  assert (H1 : forall k d, DemoSched.mixedFile !! k = Some d -> Sched.d_id d = k).
  { intros k d. unfold DemoSched.mixedFile.
    rewrite lookup_insert. case_decide as Hk.
    - intros H. injection H as <-. exact Hk.
    - rewrite lookup_insert. case_decide as Hk'.
      + intros H. injection H as <-. exact Hk'.
      + rewrite lookup_empty. discriminate. }
  assert (H2 : Sched.rangeOrder DemoSched.mixedFile
                 (snd <$> map_to_list DemoSched.mixedFile))
    by (unfold Sched.rangeOrder; reflexivity).
  pose proof (proj1 (load_keeps_parsable_jobs Sched.descriptor _ _ H1 H2)) as H.
  split; [exact H1|]. split; [exact H2|]. split.
  - rewrite (H "backup"). reflexivity.
  - rewrite (H "old"). reflexivity.
Defined.

Lemma runJob_records_last_run_only_witness :
  exists after note,
    Sched.runJob Sample.minute Sample.tenths Sample.quietHost Sample.pi
      DemoSched.withBackup DemoSched.backupJob 77 = Some (after, note)
    /\ Sched.LastRun <$> Sched.jobs after !! "backup" = Some 77%Z
    /\ Sched.disk after = Some (Sched.toDoc <$> Sched.jobs after).
Proof.
  eexists _, _. split; [reflexivity|].
  pose proof (runJob_records_last_run_only Sample.minute Sample.tenths
                Sample.quietHost Sample.pi DemoSched.withBackup _
                DemoSched.backupJob 77 _ eq_refl) as (_ & _ & Hlast & _ & Hdisk).
  split; [|exact Hdisk].
  exact (Hlast DemoSched.backupJob eq_refl).
Defined.

(** ** splitMessage *)

Lemma take_drop n s : GoStr.take n s ++ Text.drop n s = s.
Proof.
  revert s. induction n as [|n IH]; intros [|c r]; simpl; auto.
  rewrite append_cons. now rewrite IH.
Qed.

Lemma length_drop n s :
  String.length (Text.drop n s) = (String.length s - n)%nat.
Proof. revert s. induction n as [|n IH]; intros [|c r]; simpl; auto. Qed.

Lemma lastNewline_bounds s :
  (-1 <= Chunks.lastNewline s < GoStr.len s)%Z.
Proof.
  unfold GoStr.len. induction s as [|c r IH]; simpl Chunks.lastNewline.
  - simpl. lia.
  - simpl String.length.
    destruct (Z.leb_spec 0 (Chunks.lastNewline r)); [lia|].
    destruct (Ascii.eqb c "010"); lia.
Qed.

Lemma cutIndex_bounds maxLen text :
  (2 <= maxLen)%Z -> (maxLen < GoStr.len text)%Z ->
  (1 <= Chunks.cutIndex maxLen text <= maxLen)%Z
  /\ (Z.quot maxLen 2 <= Chunks.cutIndex maxLen text)%Z.
Proof.
  intros H2 Hlen. unfold Chunks.cutIndex.
  pose proof (lastNewline_bounds (GoStr.take (Z.to_nat maxLen) text)) as Hb.
  pose proof (len_take_le (Z.to_nat maxLen) text) as Ht.
  assert (Hq : (1 <= Z.quot maxLen 2 <= maxLen)%Z).
  { rewrite Z.quot_div_nonneg by lia. split.
    - apply Z.div_le_lower_bound; lia.
    - apply Z.div_le_upper_bound; lia. }
  destruct (Z.ltb_spec (Chunks.lastNewline (GoStr.take (Z.to_nat maxLen) text))
              (Z.quot maxLen 2)); lia.
Qed.

(** One round of the loop on a text that is longer than [maxLen]. *)
Lemma splitLoop_long k maxLen text :
  (0 <= maxLen)%Z -> (maxLen < GoStr.len text)%Z ->
  Chunks.splitLoop (S k) maxLen text
  = match Chunks.splitLoop k maxLen
            (Text.drop (Z.to_nat (Chunks.cutIndex maxLen text)) text) with
    | Some (Ret chunks) =>
        Some (Ret (GoStr.take (Z.to_nat (Chunks.cutIndex maxLen text)) text :: chunks))
    | other => other
    end.
Proof.
  intros H0 Hlen. cbn [Chunks.splitLoop].
  destruct (Z.eqb_spec (GoStr.len text) 0); [lia|].
  destruct (Z.leb_spec (GoStr.len text) maxLen); [lia|].
  destruct (Z.ltb_spec maxLen 0); [lia|]. reflexivity.
Qed.

Lemma splitLoop_short k maxLen text :
  (0 < GoStr.len text <= maxLen)%Z ->
  Chunks.splitLoop (S k) maxLen text = Some (Ret [text]).
Proof.
  intros H. cbn [Chunks.splitLoop].
  destruct (Z.eqb_spec (GoStr.len text) 0); [lia|].
  destruct (Z.leb_spec (GoStr.len text) maxLen); [reflexivity|lia].
Qed.

(** What the loop answers for a text that is not empty, with steps enough
    for its length. *)
Lemma splitLoop_spec maxLen :
  (2 <= maxLen)%Z ->
  forall fuel text,
    (String.length text < fuel)%nat -> text <> "" ->
    exists chunks,
      Chunks.splitLoop fuel maxLen text = Some (Ret chunks)
      /\ GoStr.Join chunks "" = text
      /\ chunks <> []
      /\ Forall (fun c => (0 < GoStr.len c <= maxLen)%Z) chunks
      /\ (forall front last, chunks = (front ++ [last])%list ->
            Forall (fun c => (Z.quot maxLen 2 <= GoStr.len c)%Z) front).
Proof.
  intros H2. induction fuel as [|k IH]; intros text Hfuel Hne; [lia|].
  assert (Hpos : (0 < GoStr.len text)%Z).
  { unfold GoStr.len. destruct text; [congruence | simpl; lia]. }
  destruct (Z.leb_spec (GoStr.len text) maxLen) as [Hle|Hgt].
  - exists [text]. rewrite splitLoop_short by lia.
    split; [reflexivity|]. split; [reflexivity|]. split; [discriminate|].
    split; [repeat constructor; lia|].
    intros front last Heq. destruct front as [|a [|b front]];
      [constructor | discriminate | discriminate].
  - rewrite splitLoop_long by lia.
    destruct (cutIndex_bounds maxLen text H2 Hgt) as [Hidx Hhalf].
    set (idx := Z.to_nat (Chunks.cutIndex maxLen text)) in *.
    assert (Hlenrest : String.length (Text.drop idx text)
                       = (String.length text - idx)%nat) by apply length_drop.
    assert (Hidxlen : (idx < String.length text)%nat)
      by (unfold GoStr.len in Hgt; lia).
    destruct (IH (Text.drop idx text)) as (chunks & Hrun & Hjoin & Hnil & Hall & Hfront).
    { lia. }
    { intros Heq. rewrite Heq in Hlenrest. simpl in Hlenrest. lia. }
    exists (GoStr.take idx text :: chunks). rewrite Hrun.
    assert (Hhead : GoStr.len (GoStr.take idx text) = Chunks.cutIndex maxLen text).
    { unfold GoStr.len. rewrite length_take. lia. }
    split; [reflexivity|]. split.
    { destruct chunks as [|c chunks]; [congruence|].
      rewrite Join_cons, Hjoin. apply take_drop. }
    split; [discriminate|]. split.
    { constructor; [lia | exact Hall]. }
    intros front last Heq. destruct front as [|a front].
    + constructor.
    + injection Heq as <- Heq. constructor; [lia|]. now apply (Hfront front last).
Qed.

(** More steps than the text has bytes change nothing. *)
Lemma splitLoop_enough maxLen :
  (2 <= maxLen)%Z ->
  forall n m text,
    (String.length text < n)%nat -> (String.length text < m)%nat ->
    Chunks.splitLoop n maxLen text = Chunks.splitLoop m maxLen text.
Proof.
  intros H2. induction n as [|n IH]; intros m text Hn Hm; [lia|].
  destruct m as [|m]; [lia|].
  destruct (Z.leb_spec (GoStr.len text) maxLen) as [Hle|Hgt].
  - cbn [Chunks.splitLoop].
    destruct (GoStr.len text =? 0)%Z; [reflexivity|].
    destruct (Z.leb_spec (GoStr.len text) maxLen); [reflexivity | lia].
  - rewrite !splitLoop_long by lia.
    destruct (cutIndex_bounds maxLen text H2 Hgt) as [Hidx _].
    pose proof (length_drop (Z.to_nat (Chunks.cutIndex maxLen text)) text) as Hd.
    unfold GoStr.len in Hgt.
    rewrite (IH m); [reflexivity | lia | lia].
Qed.

(** X21: for a chunk size of at least 2 [splitMessage] returns, within as
    many rounds as the text has bytes, chunks that put together in order
    are the text again; no chunk is longer than the chunk size, none is
    empty unless the text is, and every chunk but the last holds at least
    half the chunk size. *)
Theorem splitMessage_chunks (text : string) (maxLen : Z) :
  (2 <= maxLen)%Z ->
  exists chunks,
    (forall fuel, (String.length text < fuel)%nat ->
       Chunks.splitMessage fuel text maxLen = Some (Ret chunks))
    /\ GoStr.Join chunks "" = text
    /\ Forall (fun c => (GoStr.len c <= maxLen)%Z) chunks
    /\ (text <> "" -> Forall (fun c => c <> "") chunks)
    /\ (forall front last, chunks = (front ++ [last])%list ->
          Forall (fun c => (Z.quot maxLen 2 <= GoStr.len c)%Z) front).
Proof.
  intros H2. unfold Chunks.splitMessage.
  destruct (Z.leb_spec (GoStr.len text) maxLen) as [Hle|Hgt].
  - exists [text]. split; [reflexivity|]. split; [reflexivity|].
    split; [repeat constructor; lia|]. split; [repeat constructor; auto|].
    intros front last Heq. destruct front as [|a [|b front]];
      [constructor | discriminate | discriminate].
  - assert (Hne : text <> "").
    { intros ->. unfold GoStr.len in Hgt. simpl in Hgt. lia. }
    destruct (splitLoop_spec maxLen H2 (S (String.length text)) text
                (Nat.lt_succ_diag_r _) Hne)
      as (chunks & Hrun & Hjoin & _ & Hall & Hfront).
    exists chunks. split.
    { intros fuel Hfuel.
      rewrite (splitLoop_enough maxLen H2 fuel (S (String.length text)));
        [exact Hrun | lia | lia]. }
    split; [exact Hjoin|]. split.
    { eapply Forall_impl; [exact Hall|]. simpl. intros c Hc. lia. }
    split; [|exact Hfront].
    intros _. eapply Forall_impl; [exact Hall|]. simpl. intros c Hc ->.
    unfold GoStr.len in Hc. simpl in Hc. lia.
Qed.

Lemma splitMessage_chunks_witness :
  let text := "one" ++ GoStr.nl ++ "two" ++ GoStr.nl ++ "three" in
  (2 <= 6)%Z
  /\ Chunks.splitMessage 20 text 6 = Some (Ret ["one"; GoStr.nl ++ "two"; GoStr.nl ++ "three"])
  /\ exists chunks,
       Chunks.splitMessage 20 text 6 = Some (Ret chunks)
       /\ GoStr.Join chunks "" = text.
Proof.
  cbv zeta. assert (H : (2 <= 6)%Z) by lia.
  split; [exact H|]. split; [vm_compute; reflexivity|].
  destruct (splitMessage_chunks
              ("one" ++ GoStr.nl ++ "two" ++ GoStr.nl ++ "three") 6 H)
    as (chunks & Hrun & Hjoin & _).
  exists chunks. split; [apply Hrun; simpl; lia | exact Hjoin].
Defined.

(** X22: with a chunk size of 0 the loop of [splitMessage] makes no
    progress on a text that is not empty: every round cuts off an empty chunk,
    and no number of rounds ends it. *)
Theorem splitMessage_zero_never_returns (fuel : nat) (text : string) :
  text <> "" -> Chunks.splitMessage fuel text 0 = None.
Proof.
  intros Hne.
  assert (Hpos : (0 < GoStr.len text)%Z).
  { unfold GoStr.len. destruct text; [congruence | simpl; lia]. }
  unfold Chunks.splitMessage.
  destruct (Z.leb_spec (GoStr.len text) 0); [lia|].
  induction fuel as [|k IH]; [reflexivity|].
  rewrite splitLoop_long by lia.
  replace (Chunks.cutIndex 0 text) with 0%Z by reflexivity.
  simpl Z.to_nat. simpl Text.drop. now rewrite IH.
Qed.

Lemma splitMessage_zero_never_returns_witness :
  "hello" <> "" /\ Chunks.splitMessage 1000 "hello" 0 = None.
Proof.
  assert (H : "hello" <> "") by discriminate.
  split; [exact H | exact (splitMessage_zero_never_returns 1000 "hello" H)].
Defined.

(** ** ChatStream *)

Lemma pieces_until_done before last after :
  Stream.unfinished before -> Stream.Done last = true ->
  Stream.pieces (before ++ Some last :: after)
  = (Stream.contents before ++ [Bot.Content (Stream.Message last)])%list.
Proof.
  intros Hb Hd. induction before as [|line before IH]; simpl.
  - now rewrite Hd.
  - assert (Hb' : Stream.unfinished before)
      by (intros c Hc; apply Hb; now right).
    destruct line as [chunk|]; simpl.
    + rewrite (Hb chunk) by left. unfold Stream.contents in *. simpl.
      now rewrite IH.
    + now apply IH.
Qed.

Lemma pieces_unfinished lines :
  Stream.unfinished lines -> Stream.pieces lines = Stream.contents lines.
Proof.
  intros Hb. induction lines as [|line lines IH]; [reflexivity|].
  assert (Hb' : Stream.unfinished lines)
    by (intros c Hc; apply Hb; now right).
  destruct line as [chunk|]; simpl.
  - rewrite (Hb chunk) by left. unfold Stream.contents in *. simpl.
    now rewrite IH.
  - now apply IH.
Qed.

(** X23: when the streamed answer has a line marked done, the answer of
    [ChatStream] is the contents of the lines that decode, up to and with
    the first done line, put together in order: lines that do not decode are
    passed over and nothing after the done line is read.  [onChunk] is
    called with these contents one by one, and the memory grows by the
    user's message and the answer. *)
Theorem ChatStream_answer
    (postStream : list Bot.ChatMessage -> Outcome (list (option Stream.StreamChunk)))
    (o : Bot.OllamaClient) (userMessage : string)
    (before : list (option Stream.StreamChunk)) (last : Stream.StreamChunk)
    (after : list (option Stream.StreamChunk)) :
  postStream (Stream.request o userMessage)
  = Ret (before ++ Some last :: after)%list ->
  Stream.unfinished before ->
  Stream.Done last = true ->
  let heard :=
    (Stream.contents before ++ [Bot.Content (Stream.Message last)])%list in
  let answer := GoStr.Join heard "" in
  Stream.ChatStream postStream o userMessage
  = (Ret answer,
     {| Bot.systemPrompt := Bot.systemPrompt o;
        Bot.history :=
          (Bot.history o
           ++ [{| Bot.Role := "user"; Bot.Content := userMessage |}]
           ++ [{| Bot.Role := "assistant"; Bot.Content := answer |}])%list |},
     heard).
Proof.
  intros Hpost Hb Hd. cbv zeta. unfold Stream.ChatStream. rewrite Hpost.
  now rewrite (pieces_until_done _ _ _ Hb Hd).
Qed.

Lemma ChatStream_answer_witness :
  Stream.ChatStream DemoStream.server (Bot.ollama Sample.idleBot) "hello"
  = (Ret "Hi there",
     {| Bot.systemPrompt := Bot.systemPrompt (Bot.ollama Sample.idleBot);
        Bot.history :=
          (Bot.history (Bot.ollama Sample.idleBot)
           ++ [{| Bot.Role := "user"; Bot.Content := "hello" |}]
           ++ [{| Bot.Role := "assistant"; Bot.Content := "Hi there" |}])%list |},
     ["Hi"; " there"; ""]).
Proof.
  apply (ChatStream_answer DemoStream.server (Bot.ollama Sample.idleBot) "hello"
           [Some (DemoStream.word "Hi"); None; Some (DemoStream.word " there")]
           DemoStream.finish
           [Some (DemoStream.word "ignored")]).
  - reflexivity.
  - intros chunk Hin. repeat (apply elem_of_cons in Hin as [Hin|Hin]);
      try discriminate; try (injection Hin as ->; reflexivity).
    inversion Hin.
  - reflexivity.
Defined.

(** ** The /cron command *)

(** What [TrimSpace] answers does not begin with a byte of white space. *)
Lemma TrimSpace_head s c r :
  Extract.TrimSpace s = String c r -> Text.asciiSpace c = false.
Proof.
  intros Heq. destruct (TrimSpace_spec s) as (Hhead & _ & _). cbv zeta in Hhead.
  rewrite Heq in Hhead. simpl in Hhead.
  apply (no_rune_no_space _ _ _ (or_introl eq_refl) Hhead).
Qed.

Lemma TrimSpace_not_space_led s p :
  Extract.TrimSpace s <> String " " p.
Proof. intros Heq. now apply TrimSpace_head in Heq. Qed.

Lemma HasPrefix_space_led s p :
  GoStr.HasPrefix (Extract.TrimSpace s) (String " " p) = false.
Proof.
  unfold GoStr.HasPrefix.
  destruct (Extract.TrimSpace s) as [|c r] eqn:E; [reflexivity|].
  change (GoStr.stripPrefix (String " " p) (String c r))
    with (if Ascii.eqb " " c then GoStr.stripPrefix p r else None).
  destruct (Ascii.eqb_spec " "%char c) as [<-|]; [|reflexivity].
  now apply TrimSpace_not_space_led in E.
Qed.

(** X24: [handleCron] never reaches [Add] or [Remove].  It trims its
    argument first and then looks for words led by a space, which a trimmed
    text never is: whatever follows [/cron], the scheduler is left as it
    was and one message is sent, the list of jobs when nothing follows and
    the notice of an unknown command otherwise. *)
Theorem handleCron_never_changes_jobs
    (validSpec : string -> bool) (formatTime : Z -> string)
    (quote parseError : string -> string)
    (b : Bot.Bot) (s : Sched.Scheduler) (listed : list Sched.CronJob)
    (now : Z) (msg : Bot.Message) (args : string) :
  let after :=
    CronCmd.handleCron validSpec formatTime quote parseError
      b s listed now msg args in
  snd after = s
  /\ fst after
     = Bot.reply msg
         (if String.eqb (Extract.TrimSpace args) ""
          then CronCmd.FormatJobList formatTime listed
          else CronCmd.unknown) b.
Proof.
  cbv zeta. unfold CronCmd.handleCron.
  rewrite !HasPrefix_space_led.
  destruct (String.eqb_spec (Extract.TrimSpace args) "") as [->|Hne];
    [now split|].
  destruct (String.eqb_spec (Extract.TrimSpace args) " list") as [Hl|_];
    [now apply TrimSpace_not_space_led in Hl|].
  now split.
Qed.

(** ** The router *)

Lemma TrimSpace_last s front c :
  Extract.TrimSpace s = front ++ String c "" -> Text.asciiSpace c = false.
Proof.
  intros Heq. destruct (TrimSpace_spec s) as (_ & Hlast & _). cbv zeta in Hlast.
  rewrite Heq, list_of_string_app in Hlast.
  simpl in Hlast. rewrite rev_app_distr in Hlast. simpl in Hlast.
  apply (no_rune_no_space _ _ _ (or_intror eq_refl) Hlast).
Qed.

Lemma stripPrefix_app p s r :
  GoStr.stripPrefix p s = Some r -> s = p ++ r.
Proof.
  revert s. induction p as [|a p IH]; intros s H.
  - destruct s; injection H as <-; reflexivity.
  - destruct s as [|b s]; [discriminate|].
    change (GoStr.stripPrefix (String a p) (String b s))
      with (if Ascii.eqb a b then GoStr.stripPrefix p s else None) in H.
    destruct (Ascii.eqb_spec a b) as [->|]; [|discriminate].
    rewrite append_cons. f_equal. now apply IH.
Qed.

Lemma HasPrefix_split t p :
  GoStr.HasPrefix t p = true -> t = p ++ GoStr.TrimPrefix t p.
Proof.
  unfold GoStr.HasPrefix, GoStr.TrimPrefix.
  destruct (GoStr.stripPrefix p t) as [r|] eqn:E; [|discriminate].
  intros _. now apply stripPrefix_app.
Qed.

(** A trimmed text that begins with a command word and its space has
    something after the space, which does not end in white space. *)
Lemma trimmed_argument s word :
  GoStr.HasPrefix (Extract.TrimSpace s) (word ++ " ") = true ->
  let arg := GoStr.TrimPrefix (Extract.TrimSpace s) (word ++ " ") in
  Extract.TrimSpace s = (word ++ " ") ++ arg
  /\ arg <> ""
  /\ (forall front c, arg = front ++ String c "" ->
        Text.asciiSpace c = false).
Proof.
  intros Hp. cbv zeta. pose proof (HasPrefix_split _ _ Hp) as Heq.
  set (arg := GoStr.TrimPrefix (Extract.TrimSpace s) (word ++ " ")) in *.
  split; [exact Heq|]. split.
  - intros Hnil. rewrite Hnil in Heq.
    assert (Hend : Extract.TrimSpace s = word ++ String " " "").
    { rewrite Heq. clear. induction word as [|c w IH]; [reflexivity|].
      rewrite !append_cons. now rewrite IH. }
    now apply TrimSpace_last in Hend.
  - intros front c Harg. rewrite Harg in Heq.
    rewrite <- append_assoc in Heq. now apply TrimSpace_last in Heq.
Qed.

Lemma allowed_fold ids m id :
  Router.allowed
    (fold_left (fun allowed id => <[id := true]> allowed) ids m) id = true
  <-> id ∈ ids \/ Router.allowed m id = true.
Proof.
  revert m. induction ids as [|x ids IH]; intros m; simpl.
  - split; [now right|]. intros [H|H]; [inversion H|exact H].
  - rewrite IH. unfold Router.allowed.
    destruct (decide (x = id)) as [->|Hne].
    + rewrite lookup_insert_eq. simpl. split; intros _; [left; left|now right].
    + rewrite lookup_insert_ne by exact Hne. rewrite elem_of_cons.
      split; [intros [H|H]; auto|intros [[H|H]|H]; auto; congruence].
Qed.

(** X25: a message is turned away as unauthorized exactly when its sender's
    id is not among the configured [allowed_ids]; this is decided before
    the message's text or attachment is looked at, so that no text reaches a
    handler for a sender outside the list. *)
Theorem unauthorized_iff_not_listed (ids : list Z) (msg : Router.Inbound) :
  Router.handleMessage (Router.allowedIDs ids) msg = Router.Unauthorized
  <-> Router.From msg ∉ ids.
Proof.
  unfold Router.handleMessage, Router.allowedIDs.
  pose proof (allowed_fold ids ∅ (Router.From msg)) as Hfold.
  destruct (Router.allowed _ (Router.From msg)) eqn:Ea; simpl.
  - split.
    + repeat match goal with
             | |- context [if ?c then _ else _] => destruct c
             end; discriminate.
    + intros Hnot. exfalso. apply Hnot.
      destruct (proj1 Hfold eq_refl) as [H|H]; [exact H|].
      unfold Router.allowed in H. rewrite lookup_empty in H. discriminate.
  - split; [|reflexivity]. intros _ Hin.
    assert (false = true) by (apply Hfold; now left). discriminate.
Qed.

(** X26: a command that takes an argument is only recognised with
    something after its word.  When [handleMessage] hands a message to
    [handleExec], [handleRunScript], [handleCatFile], [handleDeleteFile],
    [handleDownload] or [handleAsk], the sender is allowed, the message
    carries no document, its trimmed text is the command word, a space and
    the argument, and the argument is not empty and does not end in white
    space. *)
Theorem routed_argument (m : gmap Z bool) (msg : Router.Inbound)
    (word arg : string) :
  Router.argumentOf (Router.handleMessage m msg) = Some (word, arg) ->
  Router.allowed m (Router.From msg) = true
  /\ Router.Document msg = false
  /\ Extract.TrimSpace (Router.Text msg) = word ++ arg
  /\ arg <> ""
  /\ (forall front c, arg = front ++ String c "" ->
        Text.asciiSpace c = false).
Proof.
  unfold Router.handleMessage.
  destruct (Router.allowed m (Router.From msg)); simpl; [|discriminate].
  destruct (Router.Document msg); simpl; [discriminate|].
  set (text := Extract.TrimSpace (Router.Text msg)).
  repeat match goal with
         | |- context [if (?x || ?y) then _ else _] =>
             destruct (x || y); simpl; [discriminate|]
         | |- context [if String.eqb ?a ?b then _ else _] =>
             destruct (String.eqb a b); simpl; [discriminate|]
         | |- context [if GoStr.HasPrefix text ?p then _ else _] =>
             let E := fresh "E" in
             destruct (GoStr.HasPrefix text p) eqn:E; simpl;
             [first
                [ discriminate
                | intros H; injection H as <- <-;
                  split; [reflexivity|]; split; [reflexivity|];
                  first [ exact (trimmed_argument _ "/exec" E)
                        | exact (trimmed_argument _ "/run" E)
                        | exact (trimmed_argument _ "/cat" E)
                        | exact (trimmed_argument _ "/rm" E)
                        | exact (trimmed_argument _ "/download" E)
                        | exact (trimmed_argument _ "/ask" E) ] ]
             | try discriminate]
         end.
Qed.

Lemma routed_argument_witness :
  let msg := {| Router.From := 42; Router.Document := false;
                Router.Text := "  /exec df -h  " |} in
  Router.argumentOf (Router.handleMessage (Router.allowedIDs [42%Z]) msg)
  = Some ("/exec ", "df -h")
  /\ Extract.TrimSpace (Router.Text msg) = "/exec " ++ "df -h".
Proof.
  cbv zeta.
  assert (H : Router.argumentOf
                (Router.handleMessage (Router.allowedIDs [42%Z])
                   {| Router.From := 42; Router.Document := false;
                      Router.Text := "  /exec df -h  " |})
              = Some ("/exec ", "df -h")) by (vm_compute; reflexivity).
  split; [exact H|].
  exact (proj1 (proj2 (proj2 (routed_argument _ _ _ _ H)))).
Defined.

(** X27: [/ask] shows the model's answer and offers nothing: whatever the
    answer holds, [handleAsk] runs no command and stores none for
    confirmation, while the client's memory grows as it does for a chat
    message. *)
Theorem handleAsk_offers_nothing
    (durationString formatSeconds : Z -> string)
    (bash : string -> Exec.Execution)
    (post : list Bot.ChatMessage -> Outcome Bot.ChatMessage)
    (b : Bot.Bot) (msg : Bot.Message) (prompt : string) :
  let b' := Router.handleAsk post b msg prompt in
  Bot.ranOf (Bot.trace b') = Bot.ranOf (Bot.trace b)
  /\ Bot.pendingCmds b' = Bot.pendingCmds b
  /\ Bot.ollama b'
     = Bot.ollama
         (Bot.handleChat durationString formatSeconds bash post b msg prompt).
Proof.
  cbv zeta. unfold Router.handleAsk, Bot.handleChat. simpl.
  destruct (Bot.Chat post (Bot.ollama b) prompt) as [[response|m|] o]; simpl.
  - split; [rewrite !ranOf_app|].
    + simpl. now rewrite !app_nil_r.
    + split; [reflexivity|].
      destruct (Extract.ExtractBashCommands response) as [|c cs];
        [reflexivity|].
      destruct (Bot.autoExecute b); simpl; [|reflexivity].
      unfold Bot.run. simpl. now destruct (Exec.Run _ _ _).
  - split; [rewrite !ranOf_app; simpl; now rewrite !app_nil_r|].
    now split.
  - split; [rewrite !ranOf_app; simpl; now rewrite !app_nil_r|].
    now split.
Qed.
